(** * Order book: a shallow embedding of OrderBook.h and of the command
    interpreter that drives it.

    The embedding follows the C++ classes one to one: [Order],
    [OrderMinMaxHeap], [OrderEntry] and [OrderBook] are modules whose
    functions carry the names of the methods. Objects are values and a
    method that mutates [this] returns the new value.

    Conventions.
    - [time_t], [order_id_t] and [quantity_t] are integers ([Z]).
    - [price_t] is a single-precision float in the source. Prices are read
      with two fractional digits, and the model keeps a price as the exact
      number of hundredths ([10450] is 104.50); rounding is outside the
      model. A conversion of a price to [int] truncates toward zero.
    - A fixed-size array is a finite map from indices to values together
      with the value every slot holds after construction; an access outside
      [0, size) is undefined behaviour and yields [Undefined OutOfBounds].
    - A linked list is a [list]; a null pointer is [None] (or the empty
      list for a bucket).
    - A loop without a bound that can be read off its header takes a
      [fuel] argument, the number of iterations it may run; [OutOfFuel] is
      returned when the loop wants one more. A loop that never ends is one
      that returns [OutOfFuel] whatever the fuel.

    The repository holds OrderBook.h a second time, in front of the
    interpreter. That copy names the [date] field [timestamp], has no
    get_min_order (its match takes the best sell from get_max_order too)
    and declares the amount of OrderMinMaxHeap::transact as a quantity_t.
    The embedding follows OrderBook.h; the runs used as examples below
    behave the same under both copies, except where get_min_order is
    named. *)

From stdpp Require Import gmap strings list sorting.
From Stdlib Require Import ZArith Lia.

Local Open Scope Z_scope.

(** ** Results of partial operations *)

Inductive fault : Type :=
  | OutOfBounds     (* array access outside the array            *)
  | NullPointer     (* member access through a null pointer      *)
  | IntConversion.  (* float to int conversion out of int range  *)

Inductive result (A : Type) : Type :=
  | Ok (a : A)
  | Undefined (f : fault)
  | OutOfFuel.

Arguments Ok {A} a.
Arguments Undefined {A} f.
Arguments OutOfFuel {A}.

Definition bind {A B : Type} (m : result A) (k : A -> result B) : result B :=
  match m with
  | Ok a => k a
  | Undefined f => Undefined f
  | OutOfFuel => OutOfFuel
  end.

Notation "'let*' x ':=' m 'in' k" := (bind m (fun x => k))
  (at level 10, x pattern, m at level 100, k at level 200).

(** ** Constants, enumerations and scalar types *)

Definition MAX_NUM_ORDERS_IN_HEAP : Z := 65536.         (* 1 << 16 *)
Definition NUM_TOTAL_SYMBOLS_IN_ORDER_BOOK : Z := 65536. (* 1 << 16 *)

(* enum error_status; the methods return it as an int *)
Definition ACCEPT : Z := 0.
Definition INVALID_AMMENDMENT_DETAILS : Z := 101.
Definition INVALID_ORDER_DETAILS : Z := 303.
Definition ORDER_DOES_NOT_EXIST : Z := 404.

Inductive action_t : Type := NEW | AMEND | CANCEL | MATCH | QUERY.

Inductive order_type_t : Type := MARKET | LIMIT | IOC.

Definition order_type_to_str (ot : order_type_t) : string :=
  match ot with MARKET => "M" | LIMIT => "L" | IOC => "I" end.

Inductive side_t : Type := BUY | SELL.

Inductive execution_status_t : Type :=
  NOT_EXECUTED | PARTIALLY_EXECUTED | EXECUTED | CANCELLED.

Inductive order_heap_type_t : Type := BUY_HEAP | SELL_HEAP.

Definition order_id_t := Z.
Definition symbol_t := string.
Definition price_t := Z.      (* hundredths *)
Definition quantity_t := Z.
Definition time_t := Z.

Global Instance order_type_eq_dec : EqDecision order_type_t.
Proof. solve_decision. Defined.
Global Instance execution_status_eq_dec : EqDecision execution_status_t.
Proof. solve_decision. Defined.
Global Instance side_eq_dec : EqDecision side_t.
Proof. solve_decision. Defined.

(* bool <-> int conversions of C++ *)
Definition int_of_bool (b : bool) : Z := if b then 1 else 0.
Definition bool_of_int (z : Z) : bool := negb (z =? 0).

(* int arithmetic: 32 bits, two's complement *)
Definition INT_MIN : Z := - 2147483648.
Definition INT_MAX : Z := 2147483647.

Definition wrap_int (z : Z) : Z := (z + 2147483648) mod 4294967296 - 2147483648.

(* [a << k] on int: the product modulo 2^32 *)
Definition shl (a k : Z) : Z := wrap_int (Z.shiftl a k).

(* conversion of a float holding [p] hundredths to int: truncation,
   undefined when the truncated value does not fit *)
Definition int_of_float (p : Z) : result Z :=
  let z := Z.quot p 100 in
  if (INT_MIN <=? z) && (z <=? INT_MAX) then Ok z else Undefined IntConversion.

(* conversion of a non-negative float to uint64_t: truncation *)
Definition quantity_of_float (p : Z) : quantity_t := Z.quot p 100.

(* conversion of a quantity or an int to float *)
Definition float_of_int (q : Z) : Z := 100 * q.

(** ** alteration_history_t and Order *)

(* struct alteration_history_t without its [next_update] pointer: the
   chain of nodes is a list *)
Record alteration_history_t : Type := {
  history : execution_status_t;
  date : time_t;
  price : price_t;
  quantity_remaining : quantity_t
}.

Global Instance alteration_history_eq_dec : EqDecision alteration_history_t.
Proof. solve_decision. Defined.

(* [history_node] is the node the [history] pointer of the class points to,
   [history_next] the nodes reached from it through [next_update]. *)
Record Order : Type := {
  order_id : order_id_t;
  order_type : order_type_t;
  history_node : alteration_history_t;
  history_next : list alteration_history_t
}.

Global Instance Order_eq_dec : EqDecision Order.
Proof. solve_decision. Defined.

Module Order.

(* Order(oid, ot, t, p, q) *)
Definition new (oid : order_id_t) (ot : order_type_t)
    (t : time_t) (p : price_t) (q : quantity_t) : Order :=
  {| order_id := oid; order_type := ot;
     history_node := {| history := NOT_EXECUTED; date := t; price := p;
                        quantity_remaining := q |};
     history_next := [] |}.

(* Order() *)
Definition new_default : Order := new 0 MARKET 0 0 0.

(* all nodes, first to last *)
Definition chain (o : Order) : list alteration_history_t :=
  history_node o :: history_next o.

(* the loop of get_history_entry: [eht] runs over the chain *)
Fixpoint walk (t : time_t) (most_recent : alteration_history_t)
    (eht : list alteration_history_t) : alteration_history_t :=
  match eht with
  | [] => most_recent
  | e :: rest =>
      if (t =? -1) || (date e <=? t) then walk t e rest else most_recent
  end.

Definition get_history_entry (o : Order) (t : time_t) : alteration_history_t :=
  walk t (history_node o) (chain o).

Definition active_at (o : Order) (t : time_t) : bool :=
  let ht := get_history_entry o t in
  let status := history ht in
  ((t =? -1) || (date (history_node o) <=? t))
  && negb (bool_decide (status = EXECUTED))
  && negb (bool_decide (status = CANCELLED)).

Definition get_status (o : Order) (t : time_t) : execution_status_t :=
  history (get_history_entry o t).
Definition get_price (o : Order) (t : time_t) : price_t :=
  price (get_history_entry o t).
Definition get_quantity (o : Order) (t : time_t) : quantity_t :=
  quantity_remaining (get_history_entry o t).
Definition get_timestamp (o : Order) (t : time_t) : time_t :=
  date (get_history_entry o t).
Definition get_order_id (o : Order) : order_id_t := order_id o.
Definition get_order_type (o : Order) : order_type_t := order_type o.

(* [history_entry->next_update = new_entry], where [history_entry] is the
   node [get_history_entry()] returns: with t = -1 the walk never breaks
   and ends on the last node, so the new node goes to the end *)
Definition add_execution_history_entry (o : Order) (h : execution_status_t)
    (d : time_t) (p : price_t) (q : quantity_t) : Order :=
  let new_entry :=
    {| history := h; date := d; price := p; quantity_remaining := q |} in
  let history_entry := get_history_entry o (-1) in
  if d <? date history_entry then o
  else {| order_id := order_id o; order_type := order_type o;
          history_node := history_node o;
          history_next := history_next o ++ [new_entry] |}.

Definition transact (o : Order) (d : time_t) (new_price : price_t)
    (new_quantity : quantity_t) : Order :=
  let status := if new_quantity =? 0 then EXECUTED else PARTIALLY_EXECUTED in
  add_execution_history_entry o status d new_price new_quantity.

Definition ammend (o : Order) (new_price : price_t)
    (new_quantity : quantity_t) : Order :=
  let history_entry := get_history_entry o (-1) in
  add_execution_history_entry o
    (history history_entry) (date history_entry) new_price new_quantity.

End Order.

(** ** OrderMinMaxHeap *)

(* [data] and [allocated] hold the slots that were written; every other
   slot has the value the constructor gave it, [Order()] and [false].
   [active_ptr] and [matched_ptr] are kept as offsets from [data]. *)
Record OrderMinMaxHeap : Type := {
  data : gmap Z Order;
  active_ptr : Z;
  matched_ptr : Z;
  allocated : gmap Z bool;
  heap_type : order_heap_type_t
}.

Module OrderMinMaxHeap.

Definition in_array (i : Z) : bool :=
  (0 <=? i) && (i <? MAX_NUM_ORDERS_IN_HEAP).

(* data[i] *)
Definition get_data (h : OrderMinMaxHeap) (i : Z) : result Order :=
  if in_array i then Ok (default Order.new_default (data h !! i))
  else Undefined OutOfBounds.

(* data[i] = o *)
Definition set_data (h : OrderMinMaxHeap) (i : Z) (o : Order)
    : result OrderMinMaxHeap :=
  if in_array i then
    Ok {| data := <[i := o]> (data h); active_ptr := active_ptr h;
          matched_ptr := matched_ptr h; allocated := allocated h;
          heap_type := heap_type h |}
  else Undefined OutOfBounds.

(* allocated[i] *)
Definition get_allocated (h : OrderMinMaxHeap) (i : Z) : result bool :=
  if in_array i then Ok (default false (allocated h !! i))
  else Undefined OutOfBounds.

(* allocated[i] = b *)
Definition set_allocated (h : OrderMinMaxHeap) (i : Z) (b : bool)
    : result OrderMinMaxHeap :=
  if in_array i then
    Ok {| data := data h; active_ptr := active_ptr h;
          matched_ptr := matched_ptr h; allocated := <[i := b]> (allocated h);
          heap_type := heap_type h |}
  else Undefined OutOfBounds.

Definition set_active_ptr (h : OrderMinMaxHeap) (a : Z) : OrderMinMaxHeap :=
  {| data := data h; active_ptr := a; matched_ptr := matched_ptr h;
     allocated := allocated h; heap_type := heap_type h |}.

Definition set_matched_ptr (h : OrderMinMaxHeap) (m : Z) : OrderMinMaxHeap :=
  {| data := data h; active_ptr := active_ptr h; matched_ptr := m;
     allocated := allocated h; heap_type := heap_type h |}.

(* OrderMinMaxHeap(type) *)
Definition new (type : order_heap_type_t) : OrderMinMaxHeap :=
  {| data := ∅; active_ptr := 0; matched_ptr := 0; allocated := ∅;
     heap_type := type |}.

Definition swap (h : OrderMinMaxHeap) (a b : Z) : result OrderMinMaxHeap :=
  let* temp := get_data h a in
  let* ob := get_data h b in
  let* h1 := set_data h a ob in
  set_data h1 b temp.

(* has_precedence(const Order&, const Order&, t): the function returns on
   its first statement; the comparison on heap_type, price and timestamp
   that follows it in the source is never reached *)
Definition has_precedence (a b : Order) (t : time_t) : bool :=
  Order.get_price a t <? Order.get_price b t.

(* has_precedence(const int&, const int&, t) *)
Definition has_precedence_at (h : OrderMinMaxHeap) (a b : Z) (t : time_t)
    : result bool :=
  let* oa := get_data h a in
  let* ob := get_data h b in
  Ok (has_precedence oa ob t).

(* allocated[a << 1] || allocated[a << 1 + 1]; the second index parses
   as a << (1 + 1) *)
Definition has_children (h : OrderMinMaxHeap) (a : Z) : result bool :=
  let* c1 := get_allocated h (shl a 1) in
  if c1 then Ok true else get_allocated h (shl a (1 + 1)).

Definition smallest_descendant (h : OrderMinMaxHeap) (a : Z) : result Z :=
  let* c1 := get_allocated h (shl a 1) in
  let* min1 :=
    (if c1 then
       let* o := get_data h (shl a 1) in int_of_float (Order.get_price o (-1))
     else Ok (-1)) in
  let* c2 := get_allocated h (shl a (1 + 1)) in
  if c2 then
    let* lt :=
      (if min1 =? -1 then Ok true
       else let* o := get_data h (shl a 1) in
            Ok (Order.get_price o (-1) <? float_of_int min1)) in
    if lt then
      let* o := get_data h (shl a 1) in int_of_float (Order.get_price o (-1))
    else Ok min1
  else Ok min1.

Definition get_parent (m : Z) : Z := shl m 1.

Section Loops.

(* the number of iterations granted to each loop *)
Variable fuel : nat.

Fixpoint is_grandchild_of_loop (k : nat) (i b : Z) (res : bool)
    : result bool :=
  if i >? b then
    match k with
    | O => OutOfFuel
    | S k' => is_grandchild_of_loop k' (shl i 1) b true
    end
  else Ok res.

Definition is_grandchild_of (a b : Z) : result bool :=
  is_grandchild_of_loop fuel a b false.

(* the body of the loops of push_down_min (flip = false) and
   push_down_max (flip = true), which differ in the negation of the two
   has_precedence tests only; None is [break] *)
Definition push_down_body (flip : bool) (h : OrderMinMaxHeap) (m i mi : Z)
    : result (option OrderMinMaxHeap) :=
  let* p := has_precedence_at h mi i (-1) in
  if xorb flip p then
    let* g := is_grandchild_of mi i in
    if g then
      let* h1 := swap h mi i in
      let* p2 := has_precedence_at h1 m (get_parent m) (-1) in
      if xorb flip p2 then
        let* h2 := swap h1 m (get_parent m) in Ok (Some h2)
      else Ok (Some h1)
    else
      let* h1 := swap h m i in Ok (Some h1)
  else Ok None.

Fixpoint push_down_loop (flip : bool) (k : nat) (h : OrderMinMaxHeap)
    (m i mi : Z) : result OrderMinMaxHeap :=
  let* c := has_children h mi in
  if c then
    match k with
    | O => OutOfFuel
    | S k' =>
        let* r := push_down_body flip h m i mi in
        match r with
        | None => Ok h
        | Some h1 =>
            let* mi1 := smallest_descendant h1 mi in
            push_down_loop flip k' h1 m mi mi1
        end
    end
  else Ok h.

Definition push_down_min (h : OrderMinMaxHeap) (m : Z) : result OrderMinMaxHeap :=
  push_down_loop false fuel h m m m.

Definition push_down_max (h : OrderMinMaxHeap) (m : Z) : result OrderMinMaxHeap :=
  push_down_loop true fuel h m m m.

Definition push_down (h : OrderMinMaxHeap) (m : Z) : result OrderMinMaxHeap :=
  let* c := has_children h m in
  if c then push_down_min h m else push_down_max h m.

(* the loops of push_up_min (flip = false) and push_up_max (flip = true) *)
Fixpoint push_up_loop (flip : bool) (k : nat) (h : OrderMinMaxHeap) (i : Z)
    : result OrderMinMaxHeap :=
  let* c :=
    (if shl i 2 >=? 0 then
       let* p := has_precedence_at h i (shl i 2) (-1) in Ok (xorb flip p)
     else Ok false) in
  if c then
    match k with
    | O => OutOfFuel
    | S k' =>
        let* h1 := swap h i (shl i 2) in
        push_up_loop flip k' h1 (shl i 2)
    end
  else Ok h.

Definition push_up_min (h : OrderMinMaxHeap) (m : Z) : result OrderMinMaxHeap :=
  push_up_loop false fuel h m.

Definition push_up_max (h : OrderMinMaxHeap) (m : Z) : result OrderMinMaxHeap :=
  push_up_loop true fuel h m.

Definition push_up (h : OrderMinMaxHeap) (i : Z) : result OrderMinMaxHeap :=
  if i =? 0 then Ok h
  else
    let* c := has_children h i in
    if negb c then
      let* p := has_precedence_at h i (get_parent i) (-1) in
      if p then
        let* h1 := swap h i (get_parent i) in
        push_up_max h1 (get_parent i)
      else push_up_min h i
    else
      let* p := has_precedence_at h i (get_parent i) (-1) in
      if p then
        let* h1 := swap h i (get_parent i) in
        push_up_min h1 (get_parent i)
      else push_up_max h i.

Definition make_inactive (h : OrderMinMaxHeap) (i : Z) : result OrderMinMaxHeap :=
  let* h1 := swap h i (active_ptr h - 1) in
  let* h2 := set_allocated h1 (active_ptr h1 - 1) false in
  let h3 := set_active_ptr h2 (active_ptr h2 - 1) in
  push_down h3 0.

(* the loop of search: [d] runs from data up to matched_ptr, [k] is the
   number of slots left *)
Fixpoint search_loop (k : nat) (h : OrderMinMaxHeap) (d : Z) (id : order_id_t)
    : result Z :=
  match k with
  | O => Ok (-1)
  | S k' =>
      let* a := get_allocated h d in
      let* hit :=
        (if a then let* o := get_data h d in
                   Ok (Order.get_order_id o =? id)
         else Ok false) in
      if hit then Ok d else search_loop k' h (d + 1) id
  end.

Definition search (h : OrderMinMaxHeap) (id : order_id_t) : result Z :=
  search_loop (Z.to_nat (matched_ptr h)) h 0 id.

Definition insert (h : OrderMinMaxHeap) (datum : Order)
    : result (bool * OrderMinMaxHeap) :=
  let* h1 := swap h (active_ptr h) (matched_ptr h) in
  let* h2 := set_data h1 (active_ptr h1) datum in
  let* h3 := set_allocated h2 (active_ptr h2) true in
  let* h4 := push_up h3 (active_ptr h3) in
  let h5 := set_active_ptr h4 (active_ptr h4 + 1) in
  let h6 := set_matched_ptr h5 (matched_ptr h5 + 1) in
  Ok (true, h6).

(* the method is declared bool and returns the int return_status *)
Definition ammend (h : OrderMinMaxHeap) (id : order_id_t)
    (new_price : price_t) (new_quantity : quantity_t)
    : result (bool * OrderMinMaxHeap) :=
  let* i := search h id in
  if negb (i =? -1) then
    let* o := get_data h i in
    let o1 := Order.ammend o new_price new_quantity in
    let o2 := Order.add_execution_history_entry o1
                (history (Order.get_history_entry o1 (-1)))
                (Order.get_timestamp o1 (-1)) new_price new_quantity in
    let* h1 := set_data h i o2 in
    let* h2 := push_down h1 0 in
    Ok (bool_of_int ACCEPT, h2)
  else Ok (bool_of_int ORDER_DOES_NOT_EXIST, h).

Definition cancel (h : OrderMinMaxHeap) (id : order_id_t)
    : result (Z * OrderMinMaxHeap) :=
  let* i := search h id in
  if negb (i =? -1) then
    let* o := get_data h i in
    let o1 := Order.add_execution_history_entry o CANCELLED
                (Order.get_timestamp o (-1)) (Order.get_price o (-1))
                (Order.get_quantity o (-1)) in
    let* h1 := set_data h i o1 in
    let* h2 := make_inactive h1 i in
    let* h3 := push_down h2 0 in
    Ok (ACCEPT, h3)
  else Ok (ORDER_DOES_NOT_EXIST, h).

(* the returned pointer as an offset from [data]; None is NULL *)
Definition get_max_order (h : OrderMinMaxHeap) : result (option Z) :=
  let* a0 := get_allocated h 0 in
  if negb a0 then Ok None
  else
    let* c1 :=
      (let* a1 := get_allocated h 1 in
       if negb a1 then Ok true
       else
         let* p01 := has_precedence_at h 0 1 (-1) in
         if p01 then
           let* a2 := get_allocated h 2 in
           if negb a2 then Ok true else has_precedence_at h 0 2 (-1)
         else Ok false) in
    if c1 then Ok (Some 0)
    else
      let* c2 :=
        (let* a2 := get_allocated h 2 in
         if negb a2 then Ok true else has_precedence_at h 1 2 (-1)) in
      if c2 then Ok (Some 1) else Ok (Some 2).

Definition get_min_order (h : OrderMinMaxHeap) : result (option Z) :=
  Ok (Some 0).

(* [get_quantity(t) - deduction] is a subtraction of floats in the source
   (price_t is float, and the quantity is converted to it). Here it is
   exact, on hundredths: the model follows the source where the quantity,
   the price and their difference are values of a float, and it does not
   follow the rounding of single precision beyond that (a quantity above
   2^24, a price with more than two decimals). *)
Definition transact (h : OrderMinMaxHeap) (local_id : order_id_t)
    (deduction : price_t) (t : time_t) : result (bool * OrderMinMaxHeap) :=
  let* local_i := search h local_id in
  let* local := get_data h local_i in
  let* abs_diff :=
    int_of_float (float_of_int (Order.get_quantity local t) - deduction) in
  if abs_diff <=? 0 then
    let local1 := Order.transact local t (Order.get_price local t) 0 in
    let* h1 := set_data h local_i local1 in
    let* h2 := make_inactive h1 local_i in
    Ok (true, h2)
  else
    let local1 := Order.transact local t (Order.get_price local t)
        (quantity_of_float
           (float_of_int (Order.get_quantity local t) - deduction)) in
    let* h1 := set_data h local_i local1 in
    Ok (true, h1).

End Loops.

(** get_max_n_orders. [stack], [t_stack] and [output] are arrays of
    [Order]; here they are lists of that length, read and written by
    position. *)

Definition rd (l : list Order) (i : nat) : result Order :=
  match l !! i with
  | Some o => Ok o
  | None => Undefined OutOfBounds
  end.

Definition wr (l : list Order) (i : nat) (o : Order) : result (list Order) :=
  if bool_decide (i < length l)%nat then Ok (<[i := o]> l)
  else Undefined OutOfBounds.

(* "Place until insertion": for (; a <= stack + stack_i; ). [k] counts the
   positions from [a] up to and including [stack_i]. The result is
   (t_stack, a, b, stack_i). *)
Fixpoint place (k : nat) (d : Order) (t : time_t) (n : nat)
    (stack t_stack : list Order) (a b stack_i : nat)
    : result (list Order * nat * nat * nat) :=
  match k with
  | O => Ok (t_stack, a, b, stack_i)
  | S k' =>
      let* c :=
        (if bool_decide (a = stack_i) && bool_decide (stack_i < n)%nat
         then Ok true
         else let* sa := rd stack a in Ok (has_precedence d sa t)) in
      if c then
        let* ts := wr t_stack b d in
        Ok (ts, a, S b, S stack_i)
      else
        let* sa := rd stack a in
        let* ts := wr t_stack b sa in
        place k' d t n stack ts (S a) (S b) stack_i
  end.

(* "Place after insertion till finished": for (; b < t_stack + stack_i; ) *)
Fixpoint place_rest (k : nat) (stack t_stack : list Order) (a b : nat)
    : result (list Order) :=
  match k with
  | O => Ok t_stack
  | S k' =>
      let* sa := rd stack a in
      let* ts := wr t_stack b sa in
      place_rest k' stack ts (S a) (S b)
  end.

(* for (i = 0; i < stack_i; i++) *(dst + i) = *(src + i), from position i *)
Fixpoint copy (k : nat) (src dst : list Order) (i : nat) : result (list Order) :=
  match k with
  | O => Ok dst
  | S k' =>
      let* x := rd src i in
      let* dst1 := wr dst i x in
      copy k' src dst1 (S i)
  end.

(* one turn of the loop over the orders, for the order [d] *)
Definition get_max_n_orders_step (t : time_t) (n : nat) (d : Order)
    (stack : list Order) (stack_i : nat) : result (list Order * nat) :=
  if negb (Order.active_at d t) then Ok (stack, stack_i)
  else
    let t_stack := replicate n Order.new_default in
    let* fits :=
      (if bool_decide (stack_i < n)%nat then Ok true
       else
         (* stack + n - 1 *)
         let* last := (if bool_decide (1 <= n)%nat then rd stack (n - 1)
                       else Undefined OutOfBounds) in
         Ok (has_precedence last d t)) in
    let* (t_stack1, stack_i1) :=
      (if fits then
         let* (ts, a, b, si) :=
           place (S stack_i) d t n stack t_stack 0 0 stack_i in
         let* ts1 := place_rest (si - b) stack ts a b in
         Ok (ts1, si)
       else Ok (t_stack, stack_i)) in
    let* stack1 := copy stack_i1 t_stack1 stack 0 in
    Ok (stack1, stack_i1).

Fixpoint get_max_n_orders_loop (k : nat) (h : OrderMinMaxHeap) (t : time_t)
    (n : nat) (d : Z) (stack : list Order) (stack_i : nat)
    : result (list Order * nat) :=
  match k with
  | O => Ok (stack, stack_i)
  | S k' =>
      let* od := get_data h d in
      let* (stack1, stack_i1) := get_max_n_orders_step t n od stack stack_i in
      get_max_n_orders_loop k' h t n (d + 1) stack1 stack_i1
  end.

(* [output] has [size] slots; the result is the written array and the
   returned count *)
Definition get_max_n_orders (h : OrderMinMaxHeap) (t : time_t)
    (output : list Order) (n : nat) : result (list Order * nat) :=
  let stack := replicate n Order.new_default in
  let* (stack1, stack_i) :=
    get_max_n_orders_loop (Z.to_nat (matched_ptr h)) h t n 0 stack 0 in
  let* output1 := copy stack_i stack1 output 0 in
  Ok (output1, stack_i).

End OrderMinMaxHeap.

(** ** Output *)

(* What the program writes to cout, one value per line.
   - [Report id kind None] is the line "id - kind", and
     [Report id kind (Some (code, msg))] the line "id - kind - code - msg";
   - [TradeRow] is the line match prints for a trade:
     symbol|b_oi,b_type,b_quantity,b_price|s_price,s_quantity,s_type,s_oi;
   - [SnapshotRow] is a line of query: symbol|buy fields|sell fields, each
     side present or empty. *)
Inductive line : Type :=
  | Report (id : order_id_t) (kind : string) (reason : option (Z * string))
  | TradeRow (sym : string)
      (b_oi : order_id_t) (b_t : string) (b_quantity : quantity_t) (b_price : price_t)
      (s_price : price_t) (s_quantity : quantity_t) (s_t : string) (s_oi : order_id_t)
  | SnapshotRow (sym : string)
      (buy : option (order_id_t * string * quantity_t * price_t))
      (sell : option (price_t * quantity_t * string * order_id_t)).

(** ** OrderEntry *)

(* The [next_entry] pointer is not a field here: the entries of a bucket of
   the hash table are kept as a list, see [OrderBook]. *)
Record OrderEntry : Type := {
  symbol : string;
  buys : OrderMinMaxHeap;
  sells : OrderMinMaxHeap
}.

Module OrderEntry.

(* OrderEntry(s) *)
Definition new (s : string) : OrderEntry :=
  {| symbol := s;
     buys := OrderMinMaxHeap.new BUY_HEAP;
     sells := OrderMinMaxHeap.new SELL_HEAP |}.

Definition get_symbol (e : OrderEntry) : string := symbol e.

Definition set_buys (e : OrderEntry) (h : OrderMinMaxHeap) : OrderEntry :=
  {| symbol := symbol e; buys := h; sells := sells e |}.

Definition set_sells (e : OrderEntry) (h : OrderMinMaxHeap) : OrderEntry :=
  {| symbol := symbol e; buys := buys e; sells := h |}.

(* what one turn of the loop of match does *)
Inductive turn : Type :=
  | Break
  | Continue (out : line) (e : OrderEntry).

Section Loops.

Variable fuel : nat.

Definition add (e : OrderEntry) (o : Order) (s : side_t)
    : result (bool * OrderEntry) :=
  match s with
  | BUY =>
      let* (_, h) := OrderMinMaxHeap.insert fuel (buys e) o in
      Ok (true, set_buys e h)
  | SELL =>
      let* (_, h) := OrderMinMaxHeap.insert fuel (sells e) o in
      Ok (true, set_sells e h)
  end.

Definition ammend (e : OrderEntry) (s : side_t) (oid : order_id_t)
    (p : price_t) (q : quantity_t) : result (bool * OrderEntry) :=
  match s with
  | BUY =>
      let* (_, h) := OrderMinMaxHeap.ammend fuel (buys e) oid p q in
      Ok (true, set_buys e h)
  | SELL =>
      let* (_, h) := OrderMinMaxHeap.ammend fuel (sells e) oid p q in
      Ok (true, set_sells e h)
  end.

Definition cancel (e : OrderEntry) (oid : order_id_t) (s : side_t)
    : result (Z * OrderEntry) :=
  match s with
  | BUY =>
      let* (_, h) := OrderMinMaxHeap.cancel fuel (buys e) oid in
      Ok (ACCEPT, set_buys e h)
  | SELL =>
      let* (_, h) := OrderMinMaxHeap.cancel fuel (sells e) oid in
      Ok (ACCEPT, set_sells e h)
  end.

(* the body of the while (true) of match *)
Definition match_body (e : OrderEntry) (t : time_t) : result turn :=
  let* best_buy := OrderMinMaxHeap.get_max_order (buys e) in
  let* best_sell := OrderMinMaxHeap.get_min_order (sells e) in
  match best_buy, best_sell with
  | Some bi, Some si =>
      let* bo := OrderMinMaxHeap.get_data (buys e) bi in
      let* so := OrderMinMaxHeap.get_data (sells e) si in
      (* Collect buy data. *)
      let b_price := Order.get_price bo (-1) in
      let b_oi := Order.get_order_id bo in
      let b_quantity := Order.get_quantity bo (-1) in
      let b_t := Order.get_order_type bo in
      (* Collect sell data. *)
      let s_price := Order.get_price so (-1) in
      let s_oi := Order.get_order_id so in
      let s_quantity := Order.get_quantity so (-1) in
      let s_t := Order.get_order_type so in
      if negb (bool_decide (history (Order.get_history_entry bo (-1)) = EXECUTED))
         && negb (bool_decide (history (Order.get_history_entry so (-1)) = EXECUTED))
         && (b_price >=? s_price)
      then
        let out := TradeRow (symbol e)
                     b_oi (order_type_to_str b_t) b_quantity b_price
                     s_price s_quantity (order_type_to_str s_t) s_oi in
        let* (_, hb) := OrderMinMaxHeap.transact fuel (buys e) b_oi b_price t in
        let e1 := set_buys e hb in
        let* (_, hs) := OrderMinMaxHeap.transact fuel (sells e1) s_oi b_price t in
        Ok (Continue out (set_sells e1 hs))
      else Ok Break
  | _, _ => Ok Break
  end.

(* while (true): [k] is the number of times the loop may come round again
   after a turn that did not break *)
Fixpoint match_loop (k : nat) (e : OrderEntry) (t : time_t)
    : result (list line * OrderEntry) :=
  let* r := match_body e t in
  match r with
  | Break => Ok ([], e)
  | Continue out e1 =>
      match k with
      | O => OutOfFuel
      | S k' =>
          let* (outs, e2) := match_loop k' e1 t in
          Ok (out :: outs, e2)
      end
  end.

(* match(t): the returned status, the lines written and the entry *)
Definition match_ (e : OrderEntry) (t : time_t)
    : result (Z * list line * OrderEntry) :=
  let* (outs, e1) := match_loop fuel e t in
  Ok (ACCEPT, outs, e1).

End Loops.

(* the line for rank [i] of query *)
Definition query_row (e : OrderEntry) (t : time_t)
    (top_buys min_sells : list Order) (num_buys num_sells i : nat)
    : result line :=
  let* buy :=
    (if bool_decide (i < num_buys)%nat then
       let* o := OrderMinMaxHeap.rd top_buys i in
       Ok (Some (Order.get_order_id o, order_type_to_str (Order.get_order_type o),
                 Order.get_quantity o t, Order.get_price o t))
     else Ok None) in
  let* sell :=
    (if bool_decide (i < num_sells)%nat then
       let* o := OrderMinMaxHeap.rd min_sells i in
       Ok (Some (Order.get_price o t, Order.get_quantity o t,
                 order_type_to_str (Order.get_order_type o), Order.get_order_id o))
     else Ok None) in
  Ok (SnapshotRow (symbol e) buy sell).

Fixpoint query_rows (k : nat) (e : OrderEntry) (t : time_t)
    (top_buys min_sells : list Order) (num_buys num_sells i : nat)
    : result (list line) :=
  match k with
  | O => Ok []
  | S k' =>
      let* r := query_row e t top_buys min_sells num_buys num_sells i in
      let* rs := query_rows k' e t top_buys min_sells num_buys num_sells (S i) in
      Ok (r :: rs)
  end.

(* query(t): the returned status and the lines written *)
Definition query (e : OrderEntry) (t : time_t) : result (Z * list line) :=
  let top_buys := replicate 5%nat Order.new_default in
  let* (top_buys1, num_buys) :=
    OrderMinMaxHeap.get_max_n_orders (buys e) t top_buys 5 in
  let min_sells := replicate 5%nat Order.new_default in
  let* (min_sells1, num_sells) :=
    OrderMinMaxHeap.get_max_n_orders (sells e) t min_sells 5 in
  let num_to_display :=
    if (num_sells <? num_buys)%nat then num_buys else num_sells in
  let* rows :=
    query_rows num_to_display e t top_buys1 min_sells1 num_buys num_sells 0 in
  Ok (ACCEPT, rows).

End OrderEntry.

(** ** Command *)

Inductive command_format_t : Type :=
  | F_NEW
  | F_AMMEND
  | F_MATCH_TIMESTAMP
  | F_MATCH_TIMESTAMP_SYMBOL
  | F_QUERY
  | F_QUERY_SYMBOL
  | F_QUERY_TIMESTAMP
  | F_QUERY_TIMESTAMP_SYMBOL
  | F_QUERY_SYMBOL_TIMESTAMP.

Module Command.

Record t : Type := {
  format : command_format_t;
  order_action : action_t;
  order_id : order_id_t;
  timestamp : time_t;
  symbol : symbol_t;
  side : side_t;
  order_type : order_type_t;
  price : price_t;
  quantity : quantity_t
}.

End Command.

(** ** OrderBook *)

(* struct hash_order_to_symbol without its [next] pointer *)
Module hash_order_to_symbol.

Record t : Type := {
  oi : order_id_t;
  symbol : string
}.

End hash_order_to_symbol.

(* - [table]: a bucket is the list of the entries chained through
     [next_entry]; the empty list is the null pointer.
   - [cache_order_to_symbol]: a bucket is the list of the nodes chained
     through [next]; the empty list is the null pointer.
   - [cache_list_sorted_symbol_names]: the symbols of the nodes of the list,
     first to last. The constructor leaves this pointer unset; the model
     starts from the null pointer, the empty list. *)
Record OrderBook : Type := {
  table : gmap Z (list OrderEntry);
  timestamp : time_t;
  cache_order_to_symbol : gmap Z (list hash_order_to_symbol.t);
  cache_list_sorted_symbol_names : list symbol_t
}.

Module OrderBook.

Definition to_unsigned (z : Z) : Z := z mod 4294967296.

(* hash(unsigned int x) *)
Definition hash (x : Z) : Z :=
  to_unsigned (1279 * x + 2203) mod NUM_TOTAL_SYMBOLS_IN_ORDER_BOOK.

Fixpoint hash_str_loop (x : string) (int_repr : Z) : Z :=
  match x with
  | EmptyString => int_repr
  | String c xi =>
      let int_repr1 := to_unsigned (int_repr * 26) in
      let int_repr2 :=
        to_unsigned (int_repr1 + (Z.of_nat (Ascii.nat_of_ascii c) - 97)) in
      hash_str_loop xi int_repr2
  end.

(* hash(char* x) *)
Definition hash_str (x : string) : Z := hash (hash_str_loop x 0).

(* the sign of strcmp(a, b) *)
Fixpoint strcmp (a b : string) : Z :=
  match a, b with
  | EmptyString, EmptyString => 0
  | EmptyString, String _ _ => -1
  | String _ _, EmptyString => 1
  | String c a', String d b' =>
      let x := Z.of_nat (Ascii.nat_of_ascii c) in
      let y := Z.of_nat (Ascii.nat_of_ascii d) in
      if x <? y then -1 else if y <? x then 1 else strcmp a' b'
  end.

(* OrderBook() *)
Definition new : OrderBook :=
  {| table := ∅; timestamp := 0; cache_order_to_symbol := ∅;
     cache_list_sorted_symbol_names := [] |}.

Definition set_table (ob : OrderBook) (tb : gmap Z (list OrderEntry)) : OrderBook :=
  {| table := tb; timestamp := timestamp ob;
     cache_order_to_symbol := cache_order_to_symbol ob;
     cache_list_sorted_symbol_names := cache_list_sorted_symbol_names ob |}.

Definition set_timestamp (ob : OrderBook) (t : time_t) : OrderBook :=
  {| table := table ob; timestamp := t;
     cache_order_to_symbol := cache_order_to_symbol ob;
     cache_list_sorted_symbol_names := cache_list_sorted_symbol_names ob |}.

Definition set_cache_order_to_symbol (ob : OrderBook)
    (c : gmap Z (list hash_order_to_symbol.t)) : OrderBook :=
  {| table := table ob; timestamp := timestamp ob;
     cache_order_to_symbol := c;
     cache_list_sorted_symbol_names := cache_list_sorted_symbol_names ob |}.

Definition set_cache_list_sorted_symbol_names (ob : OrderBook)
    (l : list symbol_t) : OrderBook :=
  {| table := table ob; timestamp := timestamp ob;
     cache_order_to_symbol := cache_order_to_symbol ob;
     cache_list_sorted_symbol_names := l |}.

(* table[h] *)
Definition bucket (ob : OrderBook) (h : Z) : list OrderEntry :=
  default [] (table ob !! h).

(* cache_order_to_symbol[h] *)
Definition cache_bucket (ob : OrderBook) (h : Z) : list hash_order_to_symbol.t :=
  default [] (cache_order_to_symbol ob !! h).

(* the else branch of insert: [snl] walks the list while it has a
   successor and its symbol is below the key; the new node goes after the
   node it stops on. [snl] is the node the walk is on, [next] the nodes
   after it. *)
Fixpoint insert_after (snl : symbol_t) (next : list symbol_t) (key : symbol_t)
    : list symbol_t :=
  match next with
  | [] => snl :: [key]
  | n :: next' =>
      if strcmp snl key <? 0 then snl :: insert_after n next' key
      else snl :: key :: next
  end.

Definition insert (ob : OrderBook) (key : symbol_t) : bool * OrderBook :=
  (* Add symbol to hash table *)
  let ob1 := set_table ob (<[hash_str key := [OrderEntry.new key]]> (table ob)) in
  (* Add symbol to list cache *)
  let l1 :=
    match cache_list_sorted_symbol_names ob1 with
    | [] => [key]
    | s0 :: next =>
        if strcmp s0 key >=? 0 then key :: s0 :: next
        else insert_after s0 next key
    end in
  (true, set_cache_list_sorted_symbol_names ob1 l1).

(* the loop of lookup over a bucket: the position it stops on *)
Fixpoint lookup_walk (chain : list OrderEntry) (sym : string) (p : nat) : nat :=
  match chain with
  | e :: ((_ :: _) as next) =>
      if negb (strcmp (OrderEntry.get_symbol e) sym =? 0)
      then lookup_walk next sym (S p)
      else p
  | _ => p
  end.

(* An OrderEntry* is the bucket and the position of the entry in the
   bucket; None is NULL. *)
Definition lookup (ob : OrderBook) (key : symbol_t) : option (Z * nat) :=
  let h_val := hash_str key in
  match bucket ob h_val with
  | [] => None
  | chain => Some (h_val, lookup_walk chain key 0)
  end.

(* *oe *)
Definition entry_at (ob : OrderBook) (oe : option (Z * nat)) : result OrderEntry :=
  match oe with
  | None => Undefined NullPointer
  | Some (h, p) =>
      match bucket ob h !! p with
      | Some e => Ok e
      | None => Undefined NullPointer
      end
  end.

(* *oe = e *)
Definition store_entry (ob : OrderBook) (oe : option (Z * nat)) (e : OrderEntry)
    : result OrderBook :=
  match oe with
  | None => Undefined NullPointer
  | Some (h, p) => Ok (set_table ob (<[h := <[p := e]> (bucket ob h)]> (table ob)))
  end.

Section Loops.

Variable fuel : nat.

(* the method is declared bool and returns the int status *)
Definition add_new_order (ob : OrderBook) (o : Command.t)
    : result (bool * OrderBook) :=
  if Command.timestamp o <? timestamp ob then
    Ok (bool_of_int INVALID_ORDER_DETAILS, ob)
  else
    let oe0 := lookup ob (Command.symbol o) in
    let '(ob1, oe) :=
      match oe0 with
      | None =>
          let ob' := snd (insert ob (Command.symbol o)) in
          (ob', lookup ob' (Command.symbol o))
      | Some _ => (ob, oe0)
      end in
    let datum := Order.new (Command.order_id o) (Command.order_type o)
                   (Command.timestamp o) (Command.price o)
                   (Command.quantity o) in
    (* Record this order in the order-to-symbol cache map *)
    let h := hash (to_unsigned (Command.order_id o)) in
    let node := {| hash_order_to_symbol.oi := Command.order_id o;
                   hash_order_to_symbol.symbol := Command.symbol o |} in
    let ob2 := set_cache_order_to_symbol ob1
                 (<[h := cache_bucket ob1 h ++ [node]]> (cache_order_to_symbol ob1)) in
    let* e := entry_at ob2 oe in
    let* (_, e1) := OrderEntry.add fuel e datum (Command.side o) in
    let* ob3 := store_entry ob2 oe e1 in
    Ok (bool_of_int ACCEPT, set_timestamp ob3 (Command.timestamp o)).

Definition ammend_order (ob : OrderBook) (o : Command.t)
    : result (Z * OrderBook) :=
  let oe := lookup ob (Command.symbol o) in
  if Command.timestamp o <? timestamp ob then
    Ok (INVALID_ORDER_DETAILS, ob)
  else
    match oe with
    | Some _ =>
        let* e := entry_at ob oe in
        let* (r, e1) := OrderEntry.ammend fuel e (Command.side o)
                          (Command.order_id o) (Command.price o)
                          (Command.quantity o) in
        let* ob1 := store_entry ob oe e1 in
        Ok (int_of_bool r, ob1)
    | None => Ok (ORDER_DOES_NOT_EXIST, ob)
    end.

Definition cancel_order (ob : OrderBook) (o : Command.t)
    : result (Z * OrderBook) :=
  if Command.timestamp o <? timestamp ob then
    Ok (INVALID_ORDER_DETAILS, ob)
  else
    let h := hash (to_unsigned (Command.order_id o)) in
    (* char* s = cache_order_to_symbol[h]->symbol *)
    let* s :=
      match cache_bucket ob h with
      | [] => Undefined NullPointer
      | node :: _ => Ok (hash_order_to_symbol.symbol node)
      end in
    let oe := lookup ob s in
    let* (status, ob1) :=
      match oe with
      | Some _ =>
          let* e := entry_at ob oe in
          let* (r, e1) := OrderEntry.cancel fuel e (Command.order_id o)
                            (Command.side o) in
          let* ob' := store_entry ob oe e1 in
          Ok (r, ob')
      | None => Ok (ORDER_DOES_NOT_EXIST, ob)
      end in
    Ok (status, set_timestamp ob1 (Command.timestamp o)).

(* for (e = *te; e != NULL; e = e->get_next_entry()) e->match(t), on the
   entries of bucket [h] from position [p] on; [k] is their number *)
Fixpoint match_chain (k : nat) (ob : OrderBook) (h : Z) (p : nat) (t : time_t)
    : result (list line * OrderBook) :=
  match k with
  | O => Ok ([], ob)
  | S k' =>
      let* e := entry_at ob (Some (h, p)) in
      let* (_, outs, e1) := OrderEntry.match_ fuel e t in
      let* ob1 := store_entry ob (Some (h, p)) e1 in
      let* (outs', ob2) := match_chain k' ob1 h (S p) t in
      Ok (outs ++ outs', ob2)
  end.

(* for (te = table; te < table + NUM_TOTAL_SYMBOLS_IN_ORDER_BOOK; te++),
   from bucket [h] on; [k] is the number of buckets left *)
Fixpoint match_table (k : nat) (ob : OrderBook) (h : Z) (t : time_t)
    : result (list line * OrderBook) :=
  match k with
  | O => Ok ([], ob)
  | S k' =>
      let* (outs, ob1) := match_chain (length (bucket ob h)) ob h 0 t in
      let* (outs', ob2) := match_table k' ob1 (h + 1) t in
      Ok (outs ++ outs', ob2)
  end.

Definition match_ (ob : OrderBook) (o : Command.t)
    : result (Z * list line * OrderBook) :=
  if Command.timestamp o <? timestamp ob then
    Ok (INVALID_ORDER_DETAILS, [], ob)
  else
    let* (outs, ob1) :=
      match Command.format o with
      | F_MATCH_TIMESTAMP =>
          match_table (Z.to_nat NUM_TOTAL_SYMBOLS_IN_ORDER_BOOK) ob 0
            (Command.timestamp o)
      | F_MATCH_TIMESTAMP_SYMBOL =>
          let oe := lookup ob (Command.symbol o) in
          let* e := entry_at ob oe in
          let* (_, outs, e1) := OrderEntry.match_ fuel e (Command.timestamp o) in
          let* ob' := store_entry ob oe e1 in
          Ok (outs, ob')
      | _ => Ok ([], ob)
      end in
    Ok (ACCEPT, outs, set_timestamp ob1 (Command.timestamp o)).

End Loops.

(* for (snl = cache_list_sorted_symbol_names; snl != NULL; snl = snl->next)
   lookup(snl->symbol)->query(t) *)
Fixpoint query_all (ob : OrderBook) (snl : list symbol_t) (t : time_t)
    : result (list line) :=
  match snl with
  | [] => Ok []
  | s :: next =>
      let* entry := entry_at ob (lookup ob s) in
      let* (_, rows) := OrderEntry.query entry t in
      let* rows' := query_all ob next t in
      Ok (rows ++ rows')
  end.

Definition query (ob : OrderBook) (o : Command.t)
    : result (Z * list line * OrderBook) :=
  let* outs :=
    match Command.format o with
    | F_QUERY => query_all ob (cache_list_sorted_symbol_names ob) (-1)
    | F_QUERY_SYMBOL =>
        let* entry := entry_at ob (lookup ob (Command.symbol o)) in
        let* (_, rows) := OrderEntry.query entry (-1) in
        Ok rows
    | F_QUERY_TIMESTAMP =>
        query_all ob (cache_list_sorted_symbol_names ob) (Command.timestamp o)
    | F_QUERY_SYMBOL_TIMESTAMP
    | F_QUERY_TIMESTAMP_SYMBOL =>
        let* entry := entry_at ob (lookup ob (Command.symbol o)) in
        let* (_, rows) := OrderEntry.query entry (Command.timestamp o) in
        Ok rows
    | _ => Ok []
    end in
  Ok (ACCEPT, outs, ob).

End OrderBook.

(** ** interpret_order, from the interpreter that feeds the order book *)

Module OrderInterpreter.

Section Loops.

Variable fuel : nat.

(* the lines written and the order book after the command *)
Definition interpret_order (ob : OrderBook) (o : Command.t)
    : result (bool * list line * OrderBook) :=
  match Command.order_action o with
  | NEW =>
      let* (r, ob1) := OrderBook.add_new_order fuel ob o in
      let history := int_of_bool r in
      let outs :=
        if history =? ACCEPT then
          [Report (Command.order_id o) "Accept" None]
        else if history =? INVALID_ORDER_DETAILS then
          [Report (Command.order_id o) "Reject"
             (Some (INVALID_ORDER_DETAILS, "Invalid order details"))]
        else [] in
      Ok (true, outs, ob1)
  | AMEND =>
      let* (history, ob1) := OrderBook.ammend_order fuel ob o in
      let outs :=
        if history =? ACCEPT then
          [Report (Command.order_id o) "AmmendAccept" None]
        else if history =? INVALID_AMMENDMENT_DETAILS then
          [Report (Command.order_id o) "AmmendReject"
             (Some (INVALID_AMMENDMENT_DETAILS, "Invalid amendment details"))]
        else if history =? ORDER_DOES_NOT_EXIST then
          [Report (Command.order_id o) "AmmendReject"
             (Some (ORDER_DOES_NOT_EXIST, "Order does not exist"))]
        else [] in
      Ok (true, outs, ob1)
  | CANCEL =>
      let* (history, ob1) := OrderBook.cancel_order fuel ob o in
      let outs :=
        if history =? ACCEPT then
          [Report (Command.order_id o) "CancelAccept" None]
        else if history =? ORDER_DOES_NOT_EXIST then
          [Report (Command.order_id o) "CancelReject"
             (Some (ORDER_DOES_NOT_EXIST, "Order does not exist"))]
        else [] in
      Ok (true, outs, ob1)
  | MATCH =>
      let* (_, outs, ob1) := OrderBook.match_ fuel ob o in
      Ok (true, outs, ob1)
  | QUERY =>
      let* (_, outs, ob1) := OrderBook.query ob o in
      Ok (true, outs, ob1)
  end.

(* a run of commands from the order book [ob] *)
Fixpoint interpret_all (ob : OrderBook) (os : list Command.t)
    : result (list line * OrderBook) :=
  match os with
  | [] => Ok ([], ob)
  | o :: os' =>
      let* (_, outs, ob1) := interpret_order ob o in
      let* (outs', ob2) := interpret_all ob1 os' in
      Ok (outs ++ outs', ob2)
  end.

End Loops.

End OrderInterpreter.

(** ** The field parsers of the interpreter *)

(* A [char*&] that walks the NUL-terminated input is the string of the
   characters from the pointer up to the terminator; [*c] on the empty
   string is the terminator, which is no letter, no digit and no comma. A
   parser returns [produced], the pointer it leaves and the value it
   stored. *)
Module Parser.

(* case 'A': ... case 'Z': *)
Definition is_upper (a : Ascii.ascii) : bool :=
  (65 <=? Z.of_nat (Ascii.nat_of_ascii a)) && (Z.of_nat (Ascii.nat_of_ascii a) <=? 90).

(* case '0': ... case '9': *)
Definition is_digit (a : Ascii.ascii) : bool :=
  (48 <=? Z.of_nat (Ascii.nat_of_ascii a)) && (Z.of_nat (Ascii.nat_of_ascii a) <=? 57).

(* case ',': *)
Definition is_comma (a : Ascii.ascii) : bool :=
  Z.of_nat (Ascii.nat_of_ascii a) =? 44.

(* arithmetic on uint64_t *)
Definition to_uint64 (z : Z) : Z := z mod 18446744073709551616.

(* the default branch of match_symbol. [sym] holds the characters written
   to the buffer [char sym[4]] so far: [s - sym] is its length, and
   [*s = NULL] is a write at that index. The value is None where [st] is
   not assigned. *)
Definition match_symbol_default (c : string) (sym : list Ascii.ascii)
    : result (bool * string * option symbol_t) :=
  match sym with
  | [] => Ok (false, c, None)
  | _ :: _ =>
      if (length sym <? 4)%nat
      then Ok (true, c, Some (String.string_of_list_ascii sym))
      else Undefined OutOfBounds
  end.

(* the while (true) of match_symbol *)
Fixpoint match_symbol_loop (c : string) (sym : list Ascii.ascii)
    : result (bool * string * option symbol_t) :=
  match c with
  | String a c' =>
      if is_upper a then
        (* *s++ = *c++ *)
        if (length sym <? 4)%nat then match_symbol_loop c' (sym ++ [a])
        else Undefined OutOfBounds
      else match_symbol_default c sym
  | EmptyString => match_symbol_default c sym
  end.

Definition match_symbol (c : string)
    : result (bool * string * option symbol_t) :=
  match_symbol_loop c [].

(* the while (true) of match_order_id; [moved] is c != backtrack_ptr *)
Fixpoint match_order_id_loop (c : string) (o_id : order_id_t) (moved : bool)
    : bool * string * order_id_t :=
  match c with
  | String a c' =>
      if is_digit a then
        match_order_id_loop c'
          (to_uint64 (to_uint64 (o_id * 10)
                      + (Z.of_nat (Ascii.nat_of_ascii a) - 48)))
          true
      else if is_comma a then (true, c, o_id)
      else (moved, c, o_id)
  | EmptyString => (moved, c, o_id)
  end.

Definition match_order_id (c : string) : bool * string * order_id_t :=
  match_order_id_loop c 0 false.

End Parser.

(** ** Commands as the parser builds them *)

(* N,id,t,symbol,type,side,price,quantity *)
Definition cmd_new (id : order_id_t) (t : time_t) (s : symbol_t)
    (ot : order_type_t) (sd : side_t) (p : price_t) (q : quantity_t) : Command.t :=
  {| Command.format := F_NEW; Command.order_action := NEW;
     Command.order_id := id; Command.timestamp := t; Command.symbol := s;
     Command.side := sd; Command.order_type := ot; Command.price := p;
     Command.quantity := q |}.

(* A,id,t,symbol,type,side,price,quantity *)
Definition cmd_amend (id : order_id_t) (t : time_t) (s : symbol_t)
    (ot : order_type_t) (sd : side_t) (p : price_t) (q : quantity_t) : Command.t :=
  {| Command.format := F_AMMEND; Command.order_action := AMEND;
     Command.order_id := id; Command.timestamp := t; Command.symbol := s;
     Command.side := sd; Command.order_type := ot; Command.price := p;
     Command.quantity := q |}.

(* X,id,t *)
Definition cmd_cancel (id : order_id_t) (t : time_t) : Command.t :=
  {| Command.format := F_NEW; Command.order_action := CANCEL;
     Command.order_id := id; Command.timestamp := t; Command.symbol := "";
     Command.side := BUY; Command.order_type := LIMIT; Command.price := 0;
     Command.quantity := 0 |}.

(* M,t and M,t,symbol *)
Definition cmd_match (f : command_format_t) (t : time_t) (s : symbol_t) : Command.t :=
  {| Command.format := f; Command.order_action := MATCH;
     Command.order_id := 0; Command.timestamp := t; Command.symbol := s;
     Command.side := BUY; Command.order_type := LIMIT; Command.price := 0;
     Command.quantity := 0 |}.

(* Q and its forms with a symbol, a timestamp or both *)
Definition cmd_query (f : command_format_t) (t : time_t) (s : symbol_t) : Command.t :=
  {| Command.format := f; Command.order_action := QUERY;
     Command.order_id := 0; Command.timestamp := t; Command.symbol := s;
     Command.side := BUY; Command.order_type := LIMIT; Command.price := 0;
     Command.quantity := 0 |}.

(** * Properties *)

(** ** Predicates used by the statements *)

(* An order as the order book can hold it: built by the constructor for a
   NEW command, whose timestamp is not below the clock of the book and so
   not negative, and changed by Order's methods only, all of which go
   through add_execution_history_entry. *)
Inductive admitted : Order -> Prop :=
  | admitted_new oid ot t p q :
      0 <= t -> admitted (Order.new oid ot t p q)
  | admitted_add o h d p q :
      admitted o -> admitted (Order.add_execution_history_entry o h d p q).

(* [r] is a record of [o] with the largest timestamp not above [t] *)
Definition latest_as_of (o : Order) (t : time_t) (r : alteration_history_t) : Prop :=
  In r (Order.chain o) /\ date r <= t /\
  forall r', In r' (Order.chain o) -> date r' <= t -> date r' <= date r.

(* [r] is the last record of [o], in the order the records were added,
   whose timestamp is not above [t] *)
Definition last_added_as_of (o : Order) (t : time_t) (r : alteration_history_t) : Prop :=
  exists before after,
    Order.chain o = before ++ r :: after /\ date r <= t /\
    Forall (fun r' => t < date r') after.

(* the order of two records by timestamp *)
Definition date_le (a b : alteration_history_t) : Prop := date a <= date b.

(* the test of the loop of get_history_entry *)
Definition in_force (t : time_t) (e : alteration_history_t) : bool :=
  (t =? -1) || (date e <=? t).

(* the status an OrderBook method hands back for a command, as the int
   interpret_order stores it, and the order book the method leaves *)
Definition status_of (fuel : nat) (ob : OrderBook) (o : Command.t)
    : result (Z * OrderBook) :=
  match Command.order_action o with
  | NEW =>
      let* (r, ob1) := OrderBook.add_new_order fuel ob o in Ok (int_of_bool r, ob1)
  | AMEND => OrderBook.ammend_order fuel ob o
  | CANCEL => OrderBook.cancel_order fuel ob o
  | MATCH =>
      let* (r, _, ob1) := OrderBook.match_ fuel ob o in Ok (r, ob1)
  | QUERY =>
      let* (r, _, ob1) := OrderBook.query ob o in Ok (r, ob1)
  end.

(* the heap of one side of an entry *)
Definition side_heap (e : OrderEntry) (s : side_t) : OrderMinMaxHeap :=
  match s with BUY => buys e | SELL => sells e end.

(* the shape of a heap: the two cursors are in the array, in order, and the
   slots marked allocated are the ones below active_ptr *)
Definition heap_wf (h : OrderMinMaxHeap) : Prop :=
  0 <= active_ptr h /\ active_ptr h <= matched_ptr h /\
  matched_ptr h <= MAX_NUM_ORDERS_IN_HEAP /\
  forall i, allocated h !! i = Some true -> 0 <= i < active_ptr h.

(* the order book after a run of commands from the empty one *)
Definition book_after (fuel : nat) (os : list Command.t) : result OrderBook :=
  let* (_, ob) := OrderInterpreter.interpret_all fuel OrderBook.new os in Ok ob.

(* the lines a run of commands from the empty order book writes *)
Definition lines_of (fuel : nat) (os : list Command.t) : result (list line) :=
  let* (outs, _) := OrderInterpreter.interpret_all fuel OrderBook.new os in Ok outs.

(* the entry of a symbol after a run of commands *)
Definition entry_after (fuel : nat) (os : list Command.t) (s : symbol_t)
    : result OrderEntry :=
  let* ob := book_after fuel os in
  OrderBook.entry_at ob (OrderBook.lookup ob s).

(* the order in slot [i] of a heap *)
Definition slot (h : OrderMinMaxHeap) (i : Z) : result Order :=
  OrderMinMaxHeap.get_data h i.

(* the quantity that remains, now, on the order [id] of a side *)
Definition remaining (e : OrderEntry) (s : side_t) (id : order_id_t)
    : result quantity_t :=
  let* i := OrderMinMaxHeap.search (side_heap e s) id in
  let* o := OrderMinMaxHeap.get_data (side_heap e s) i in
  Ok (Order.get_quantity o (-1)).

(* the symbols of the rows of a query, in the order of the rows *)
Definition row_symbols (ls : list line) : list string :=
  flat_map (fun l => match l with SnapshotRow s _ _ => [s] | _ => [] end) ls.

(** ** Inputs of the examples *)

(* an order created at time 1 and amended once *)
Definition amended_once : Order :=
  Order.ammend (Order.new 1 LIMIT 1 1000 5) 1100 5.

(* N,1,1,AB,L,B,10.00,100 and N,2,2,AB,L,S,10.00,100 *)
Definition crossing_orders : list Command.t :=
  [cmd_new 1 1 "AB" LIMIT BUY 1000 100; cmd_new 2 2 "AB" LIMIT SELL 1000 100].

(* N,1,1,AB,L,B,10.00,1 and N,2,2,AB,L,B,20.00,1 *)
Definition two_buys : list Command.t :=
  [cmd_new 1 1 "AB" LIMIT BUY 1000 1; cmd_new 2 2 "AB" LIMIT BUY 2000 1].

(* N,1,1,AB,L,S,20.00,1 and N,2,2,AB,L,S,10.00,1 *)
Definition two_sells : list Command.t :=
  [cmd_new 1 1 "AB" LIMIT SELL 2000 1; cmd_new 2 2 "AB" LIMIT SELL 1000 1].

(* N,1,1,AB,L,B,0.00,5 and N,2,2,AB,L,S,0.00,5 *)
Definition zero_price_orders : list Command.t :=
  [cmd_new 1 1 "AB" LIMIT BUY 0 5; cmd_new 2 2 "AB" LIMIT SELL 0 5].

(* N,1,1,A,L,B,10.00,1 then N,2,2,C,L,B,10.00,1 then N,3,3,B,L,B,10.00,1 *)
Definition three_symbols : list Command.t :=
  [cmd_new 1 1 "A" LIMIT BUY 1000 1; cmd_new 2 2 "C" LIMIT BUY 1000 1;
   cmd_new 3 3 "B" LIMIT BUY 1000 1].

(* N,1,5,AB,L,B,10.00,1 *)
Definition one_order_at_5 : list Command.t :=
  [cmd_new 1 5 "AB" LIMIT BUY 1000 1].

(* a heap that holds the single active order [o] *)
Definition single (type : order_heap_type_t) (o : Order) : OrderMinMaxHeap :=
  {| data := {[ 0 := o ]}; active_ptr := 1; matched_ptr := 1;
     allocated := {[ 0 := true ]}; heap_type := type |}.

(* the state of an order of quantity 5 at price 0.00, created at time [t0],
   after [n] turns of the loop of match at time 3 *)
Definition zero_price_order (id : order_id_t) (t0 : time_t) (n : nat) : Order :=
  {| order_id := id; order_type := LIMIT;
     history_node := {| history := NOT_EXECUTED; date := t0; price := 0;
                        quantity_remaining := 5 |};
     history_next :=
       replicate n {| history := PARTIALLY_EXECUTED; date := 3; price := 0;
                      quantity_remaining := 5 |} |}.

(* the entry of AB with those two orders, after [n] turns *)
Definition zero_price_entry (n : nat) : OrderEntry :=
  {| symbol := "AB";
     buys := single BUY_HEAP (zero_price_order 1 1 n);
     sells := single SELL_HEAP (zero_price_order 2 2 n) |}.

(* the entry of AB after [crossing_orders] *)
Definition crossing_entry : OrderEntry :=
  {| symbol := "AB";
     buys := single BUY_HEAP (Order.new 1 LIMIT 1 1000 100);
     sells := single SELL_HEAP (Order.new 2 LIMIT 2 1000 100) |}.

(* the same entry with a record of partial execution at time 3, price 10.00
   and quantity 90 added to each of the two orders *)
Definition crossing_entry_after_one_turn : OrderEntry :=
  {| symbol := "AB";
     buys := single BUY_HEAP
               (Order.add_execution_history_entry (Order.new 1 LIMIT 1 1000 100)
                  PARTIALLY_EXECUTED 3 1000 90);
     sells := single SELL_HEAP
                (Order.add_execution_history_entry (Order.new 2 LIMIT 2 1000 100)
                   PARTIALLY_EXECUTED 3 1000 90) |}.

(* a heap that holds the active orders [o1] and [o2], in this order *)
Definition pair_heap (type : order_heap_type_t) (o1 o2 : Order) : OrderMinMaxHeap :=
  {| data := <[ 1 := o2 ]> {[ 0 := o1 ]}; active_ptr := 2; matched_ptr := 2;
     allocated := <[ 1 := true ]> {[ 0 := true ]}; heap_type := type |}.

(* the entry of AB after [two_buys] *)
Definition two_buys_entry : OrderEntry :=
  {| symbol := "AB";
     buys := pair_heap BUY_HEAP (Order.new 1 LIMIT 1 1000 1) (Order.new 2 LIMIT 2 2000 1);
     sells := OrderMinMaxHeap.new SELL_HEAP |}.

(* the entry of AB after [two_sells] *)
Definition two_sells_entry : OrderEntry :=
  {| symbol := "AB";
     buys := OrderMinMaxHeap.new BUY_HEAP;
     sells := pair_heap SELL_HEAP (Order.new 1 LIMIT 1 2000 1) (Order.new 2 LIMIT 2 1000 1) |}.

(* the order book after [one_order_at_5]; its clock reads 5 *)
Definition book_at_5 : OrderBook :=
  match book_after 1 one_order_at_5 with
  | Ok ob => ob
  | _ => OrderBook.new
  end.

(* Q,3: the query of all symbols as of time 3 *)
Definition query_as_of_3 : Command.t := cmd_query F_QUERY_TIMESTAMP 3 "".


(* the entry of AB in [book_at_5] *)
Definition entry_at_5 : OrderEntry :=
  {| symbol := "AB";
     buys := single BUY_HEAP (Order.new 1 LIMIT 5 1000 1);
     sells := OrderMinMaxHeap.new SELL_HEAP |}.

(* X,65537,10: the cancel of an id that was never admitted and that falls
   in the bucket of order 1 *)
Definition cancel_65537 : Command.t := cmd_cancel 65537 10.

(* the order book after [zero_price_orders] *)
Definition zero_price_book : OrderBook :=
  match book_after 1 zero_price_orders with
  | Ok ob => ob
  | _ => OrderBook.new
  end.

(* M,3,AB *)
Definition match_AB_at_3 : Command.t := cmd_match F_MATCH_TIMESTAMP_SYMBOL 3 "AB".

(* every order held in the array of a heap is an admitted one *)
Definition data_ok (h : OrderMinMaxHeap) : Prop :=
  forall i o, data h !! i = Some o -> admitted o.

(* a heap of the right shape with admitted orders *)
Definition heap_ok (h : OrderMinMaxHeap) : Prop := heap_wf h /\ data_ok h.

(* [h'] has the cursors and the allocation marks of [h], and admitted
   orders if [h] has *)
Definition keeps (h h' : OrderMinMaxHeap) : Prop :=
  active_ptr h' = active_ptr h /\ matched_ptr h' = matched_ptr h /\
  allocated h' = allocated h /\ (data_ok h -> data_ok h').

Definition entry_ok (e : OrderEntry) : Prop :=
  heap_ok (buys e) /\ heap_ok (sells e).

(* the clock is not negative and every entry of the table is well formed *)
Definition book_ok (ob : OrderBook) : Prop :=
  0 <= timestamp ob /\
  forall h chain (p : nat) e,
    table ob !! h = Some chain -> chain !! p = Some e -> entry_ok e.

(* the order books the interpreter can reach from the empty one *)
Inductive reachable (fuel : nat) : OrderBook -> Prop :=
  | reachable_new : reachable fuel OrderBook.new
  | reachable_step ob o b outs ob' :
      reachable fuel ob ->
      OrderInterpreter.interpret_order fuel ob o = Ok (b, outs, ob') ->
      reachable fuel ob'.

(* N,1,1,AB,L,B,10.00,5 and A,1,2,AB,L,B,11.00,5 *)
Definition new_then_amend : list Command.t :=
  [cmd_new 1 1 "AB" LIMIT BUY 1000 5; cmd_amend 1 2 "AB" LIMIT BUY 1100 5].

(* slot [j] of the heap is marked allocated and holds an order with id [id] *)
Definition holds_id (h : OrderMinMaxHeap) (j : Z) (id : order_id_t) : Prop :=
  allocated h !! j = Some true /\
  Order.get_order_id (default Order.new_default (data h !! j)) = id.

(* the record Order::transact builds *)
Definition transact_record (d : time_t) (p : price_t) (q : quantity_t)
    : alteration_history_t :=
  {| history := if q =? 0 then EXECUTED else PARTIALLY_EXECUTED;
     date := d; price := p; quantity_remaining := q |}.

(* an order created at time 1 and filled in part at time 3 *)
Definition filled_once : Order :=
  Order.transact (Order.new 1 LIMIT 1 1000 5) 3 1000 2.

(* the order Order::ammend followed by the second add_execution_history_entry
   of OrderMinMaxHeap::ammend leaves *)
Definition ammended_twice (o : Order) (p : price_t) (q : quantity_t) : Order :=
  let o1 := Order.ammend o p q in
  Order.add_execution_history_entry o1
    (history (Order.get_history_entry o1 (-1)))
    (Order.get_timestamp o1 (-1)) p q.

(* the order OrderMinMaxHeap::cancel leaves *)
Definition cancelled (o : Order) : Order :=
  Order.add_execution_history_entry o CANCELLED
    (Order.get_timestamp o (-1)) (Order.get_price o (-1))
    (Order.get_quantity o (-1)).

(* a heap of the right shape with 16384 active orders marked, nothing else *)
Definition quarter_full : OrderMinMaxHeap :=
  {| data := ∅; active_ptr := 16384; matched_ptr := 16384; allocated := ∅;
     heap_type := BUY_HEAP |}.

(* the heap after the first three statements of OrderMinMaxHeap::insert: the
   slots at active_ptr and matched_ptr swapped, the new order written at
   active_ptr and that slot marked *)
Definition placed (h : OrderMinMaxHeap) (datum : Order) : OrderMinMaxHeap :=
  {| data :=
       <[active_ptr h := datum]>
         (<[matched_ptr h := default Order.new_default (data h !! active_ptr h)]>
            (<[active_ptr h := default Order.new_default (data h !! matched_ptr h)]>
               (data h)));
     active_ptr := active_ptr h;
     matched_ptr := matched_ptr h;
     allocated := <[active_ptr h := true]> (allocated h);
     heap_type := heap_type h |}.

(* the current price of the order in slot [i] *)
Definition price_at (h : OrderMinMaxHeap) (i : Z) : price_t :=
  Order.get_price (default Order.new_default (data h !! i)) (-1).

(* an entry with one buy order and no sell order *)
Definition one_buy_entry : OrderEntry :=
  {| symbol := "AB";
     buys := single BUY_HEAP (Order.new 1 LIMIT 1 1000 100);
     sells := OrderMinMaxHeap.new SELL_HEAP |}.

(* the symbols of the entries of bucket [h] of the table *)
Definition symbols_of (ob : OrderBook) (h : Z) : list string :=
  symbol <$> OrderBook.bucket ob h.

(* [ob'] differs from [ob] in the heaps of its entries at most: the clock,
   the two caches and the symbols of every bucket are the same *)
Definition entries_changed (ob ob' : OrderBook) : Prop :=
  timestamp ob' = timestamp ob /\
  cache_order_to_symbol ob' = cache_order_to_symbol ob /\
  cache_list_sorted_symbol_names ob' = cache_list_sorted_symbol_names ob /\
  forall h, symbols_of ob' h = symbols_of ob h.

(* the same, the clock apart *)
Definition same_directory (ob ob' : OrderBook) : Prop :=
  cache_order_to_symbol ob' = cache_order_to_symbol ob /\
  cache_list_sorted_symbol_names ob' = cache_list_sorted_symbol_names ob /\
  forall h, symbols_of ob' h = symbols_of ob h.

(* N,1,1,DTAA,L,B,10.00,1 and N,2,2,AABK,L,S,10.00,1: two symbols with the
   same hash *)
Definition colliding_symbols : list Command.t :=
  [cmd_new 1 1 "DTAA" LIMIT BUY 1000 1; cmd_new 2 2 "AABK" LIMIT SELL 1000 1].

Definition colliding_book : OrderBook :=
  match book_after 1 colliding_symbols with
  | Ok ob => ob
  | _ => OrderBook.new
  end.

(* the directory of the order book is consistent: no bucket of the table
   chains two entries, an entry sits in the bucket of its symbol, and every
   symbol named in the order-to-symbol cache or in the list of symbol names
   has a bucket that is not empty *)
Definition directory_ok (ob : OrderBook) : Prop :=
  (forall h, (length (symbols_of ob h) <= 1)%nat) /\
  (forall h s, In s (symbols_of ob h) -> OrderBook.hash_str s = h) /\
  (forall h node, In node (OrderBook.cache_bucket ob h) ->
     symbols_of ob (OrderBook.hash_str (hash_order_to_symbol.symbol node)) <> []) /\
  (forall s, In s (cache_list_sorted_symbol_names ob) ->
     symbols_of ob (OrderBook.hash_str s) <> []).

(* the node add_new_order files in the order-to-symbol cache *)
Definition node_of (o : Command.t) : hash_order_to_symbol.t :=
  {| hash_order_to_symbol.oi := Command.order_id o;
     hash_order_to_symbol.symbol := Command.symbol o |}.

(* the orders in [k] slots of the array from slot [d] on *)
Fixpoint slots_from (h : OrderMinMaxHeap) (d : Z) (k : nat) : list Order :=
  match k with
  | O => []
  | S k' => default Order.new_default (data h !! d) :: slots_from h (d + 1) k'
  end.

(* the orders in the slots below matched_ptr that are active at [t], in the
   order of the slots *)
Definition active_slots (h : OrderMinMaxHeap) (t : time_t) : list Order :=
  List.filter (fun o => Order.active_at o t)
    (slots_from h 0 (Z.to_nat (matched_ptr h))).

(* the price of [a] at [t] is not above that of [b] *)
Definition cheaper_first (t : time_t) (a b : Order) : Prop :=
  Order.get_price a t <= Order.get_price b t.

(* [d] put before the first order of [l] over which it has precedence *)
Fixpoint insert_by_price (t : time_t) (d : Order) (l : list Order) : list Order :=
  match l with
  | [] => [d]
  | x :: l' =>
      if OrderMinMaxHeap.has_precedence d x t then d :: x :: l'
      else x :: insert_by_price t d l'
  end.

(* a heap with three active buy orders at 10.00, 30.00 and 20.00 *)
Definition three_buys_heap : OrderMinMaxHeap :=
  {| data := <[2 := Order.new 3 LIMIT 3 2000 1]>
               (<[1 := Order.new 2 LIMIT 2 3000 1]>
                  {[ 0 := Order.new 1 LIMIT 1 1000 1 ]});
     active_ptr := 3; matched_ptr := 3;
     allocated := <[2 := true]> (<[1 := true]> {[ 0 := true ]});
     heap_type := BUY_HEAP |}.

(* the characters [l] followed by the input [rest] *)
Definition prepend (l : list Ascii.ascii) (rest : string) : string :=
  fold_right String rest l.

(* the first character of the input *)
Definition first_char (c : string) : Ascii.ascii :=
  match c with
  | String a _ => a
  | EmptyString => Ascii.zero
  end.

(* the number a run of digits writes in base ten *)
Definition decimal (ds : list Ascii.ascii) : Z :=
  fold_left (fun v a => v * 10 + (Z.of_nat (Ascii.nat_of_ascii a) - 48)) ds 0.

(* the value hash(char* x) computes, without the wrap-around of unsigned int *)
Fixpoint base26 (x : string) (r : Z) : Z :=
  match x with
  | EmptyString => r
  | String c xi => base26 xi (r * 26 + (Z.of_nat (Ascii.nat_of_ascii c) - 97))
  end.

(* a symbol as match_symbol stores it: one to three capital letters *)
Fixpoint all_upper (s : string) : bool :=
  match s with
  | EmptyString => true
  | String a s' => Parser.is_upper a && all_upper s'
  end.

Definition capital_symbol (s : string) : Prop :=
  all_upper s = true /\ (1 <= String.length s <= 3)%nat.

(** ** Order *)

Section OrderFacts.

Implicit Types (o : Order) (e m : alteration_history_t)
               (l : list alteration_history_t) (t : time_t).

Lemma last_cons x l m : List.last (x :: l) m = List.last l x.
Proof.
  revert x m; induction l as [|y l IH]; intros x m; [reflexivity|].
  change (List.last (x :: y :: l) m) with (List.last (y :: l) m).
  now rewrite !IH.
Qed.

Lemma walk_now m l : Order.walk (-1) m l = List.last l m.
Proof.
  revert m; induction l as [|e l IH]; intros m; [reflexivity|].
  cbn [Order.walk]. rewrite Z.eqb_refl. cbn [orb].
  now rewrite IH, last_cons.
Qed.

Lemma walk_app t m l e :
  Order.walk t m (l ++ [e]) =
    if forallb (in_force t) l && in_force t e then e else Order.walk t m l.
Proof.
  revert m; induction l as [|x l IH]; intros m; cbn [app Order.walk forallb].
  - unfold in_force. destruct ((t =? -1) || (date e <=? t)); reflexivity.
  - fold (in_force t x). destruct (in_force t x); cbn [andb]; [apply IH|reflexivity].
Qed.

Lemma walk_all t m l :
  forallb (in_force t) l = true -> Order.walk t m l = List.last l m.
Proof.
  revert m; induction l as [|x l IH]; intros m H; [reflexivity|].
  cbn [forallb] in H. apply andb_true_iff in H as [Hx Hl].
  cbn [Order.walk]. fold (in_force t x).
  now rewrite Hx, (IH _ Hl), last_cons.
Qed.

Lemma get_history_entry_now o :
  Order.get_history_entry o (-1) = List.last (history_next o) (history_node o).
Proof.
  unfold Order.get_history_entry, Order.chain.
  now rewrite walk_now, last_cons.
Qed.

Lemma chain_add o h d p q :
  Order.chain (Order.add_execution_history_entry o h d p q) =
    if d <? date (Order.get_history_entry o (-1)) then Order.chain o
    else Order.chain o ++
           [{| history := h; date := d; price := p; quantity_remaining := q |}].
Proof.
  unfold Order.add_execution_history_entry.
  destruct (d <? date (Order.get_history_entry o (-1))); reflexivity.
Qed.

Lemma last_chain o :
  List.last (Order.chain o) (history_node o) = Order.get_history_entry o (-1).
Proof. unfold Order.get_history_entry. now rewrite walk_now. Qed.

Lemma sorted_snoc l x m :
  Sorted date_le l -> date (List.last l m) <= date x -> l <> [] ->
  Sorted date_le (l ++ [x]).
Proof.
  revert m; induction l as [|y l IH]; intros m Hs Hx Hne; [contradiction|].
  inversion Hs as [|? ? Hs' Hh]; subst. rewrite last_cons in Hx.
  destruct l as [|z l].
  - cbn. repeat constructor. exact Hx.
  - cbn [app]. constructor.
    + apply (IH y Hs' Hx). discriminate.
    + inversion Hh; subst. constructor. assumption.
Qed.

(* the records of an admitted order are in timestamp order and none is
   stamped before the clock started *)
Lemma admitted_sorted o :
  admitted o ->
  Sorted date_le (Order.chain o) /\ 0 <= date (history_node o).
Proof.
  induction 1 as [oid ot t p q Ht | o h d p q Ho [IHs IH0]].
  - split; [repeat constructor | exact Ht].
  - split.
    + rewrite chain_add.
      destruct (Z.ltb_spec d (date (Order.get_history_entry o (-1))))
        as [Hlt|Hge]; [exact IHs|].
      rewrite <- last_chain in Hge.
      apply (sorted_snoc _ _ (history_node o)); [exact IHs|exact Hge|discriminate].
    + unfold Order.add_execution_history_entry.
      destruct (d <? date (Order.get_history_entry o (-1))); exact IH0.
Qed.

Lemma admitted_strongly_sorted o :
  admitted o -> StronglySorted date_le (Order.chain o).
Proof.
  intros H. apply Sorted_StronglySorted; [|apply (admitted_sorted o H)].
  intros x y z; unfold date_le; lia.
Qed.

(* where the walk of get_history_entry stops, for a timestamp that is
   not the "now" mark: after the longest run of records in force *)
Lemma walk_spec t m l :
  t <> -1 ->
  exists pre post,
    l = pre ++ post /\ Forall (fun e => date e <= t) pre /\
    match post with [] => True | x :: _ => t < date x end /\
    Order.walk t m l = List.last pre m.
Proof.
  intros Ht. revert m; induction l as [|e l IH]; intros m.
  - exists [], []. repeat split; constructor.
  - cbn [Order.walk]. destruct (Z.eqb_spec t (-1)) as [|_]; [contradiction|].
    cbn [orb]. destruct (Z.leb_spec (date e) t) as [Hle|Hgt].
    + destruct (IH e) as (pre & post & -> & Hpre & Hpost & Hw).
      exists (e :: pre), post. repeat split; [constructor; assumption|assumption|].
      now rewrite Hw, last_cons.
    + exists [], (e :: l). repeat split; [constructor|assumption].
Qed.

End OrderFacts.

(** ** Amendment of an order and the as-of query *)

(* Order::ammend, taken alone, adds one record at the end of the history of
   the order. The record carries the status and the timestamp of the
   record that was current and the new price and quantity. The records
   that were there, the first of them with the arrival time included, the
   order id and the order type stay as they were, and the timestamp the
   order shows at any time of query is the same before and after. *)
Lemma ammend_appends_one_record (o : Order) (p : price_t) (q : quantity_t) :
  let cur := Order.get_history_entry o (-1) in
  let o' := Order.ammend o p q in
  Order.chain o' =
    Order.chain o ++
      [{| history := history cur; date := date cur; price := p;
          quantity_remaining := q |}]
  /\ Order.get_history_entry o' (-1) =
       {| history := history cur; date := date cur; price := p;
          quantity_remaining := q |}
  /\ Order.get_order_id o' = Order.get_order_id o
  /\ Order.get_order_type o' = Order.get_order_type o
  /\ history_node o' = history_node o
  /\ forall t, Order.get_timestamp o' t = Order.get_timestamp o t.
Proof.
  intros cur o'.
  assert (Hc : Order.chain o' =
    Order.chain o ++
      [{| history := history cur; date := date cur; price := p;
          quantity_remaining := q |}]).
  { unfold o', Order.ammend. rewrite chain_add. fold cur.
    now rewrite Z.ltb_irrefl. }
  assert (Hn : history_node o' = history_node o).
  { unfold o', Order.ammend, Order.add_execution_history_entry. fold cur.
    now rewrite Z.ltb_irrefl. }
  split; [exact Hc|]. split.
  { rewrite <- last_chain, Hc. now rewrite List.last_last. }
  split.
  { unfold o', Order.ammend, Order.add_execution_history_entry. fold cur.
    now rewrite Z.ltb_irrefl. }
  split.
  { unfold o', Order.ammend, Order.add_execution_history_entry. fold cur.
    now rewrite Z.ltb_irrefl. }
  split; [exact Hn|].
  intros t. unfold Order.get_timestamp, Order.get_history_entry.
  rewrite Hc, Hn, walk_app.
  destruct (forallb (in_force t) (Order.chain o)) eqn:Hall; cbn [andb]; [|reflexivity].
  rewrite (walk_all _ _ _ Hall), last_chain. fold cur.
  destruct (in_force t _); reflexivity.
Qed.

(* An AMEND command reaches Order::ammend through OrderMinMaxHeap::ammend,
   which calls it and then calls add_execution_history_entry once more with
   the same values: the order of the book gets the record twice. *)
Lemma ammend_command_adds_the_record_twice :
  (let* e := entry_after 1 new_then_amend "AB" in
   let* o := slot (buys e) 0 in
   Ok (Order.chain o)) =
  Ok [ {| history := NOT_EXECUTED; date := 1; price := 1000; quantity_remaining := 5 |};
       {| history := NOT_EXECUTED; date := 1; price := 1100; quantity_remaining := 5 |};
       {| history := NOT_EXECUTED; date := 1; price := 1100; quantity_remaining := 5 |} ].
Proof. vm_compute. reflexivity. Qed.

(** C7, as the code has it. For an admitted order and a time [t] not
    before its creation, get_history_entry returns the record added last
    among those whose timestamp is not above [t]; every record added after
    it is stamped later than [t], and no record stamped at or before [t]
    has a larger timestamp. *)
Theorem get_history_entry_last_added (o : Order) (t : time_t) :
  admitted o ->
  date (history_node o) <= t ->
  last_added_as_of o t (Order.get_history_entry o t)
  /\ latest_as_of o t (Order.get_history_entry o t).
Proof.
  intros Hadm Hcr.
  pose proof (admitted_strongly_sorted o Hadm) as Hss.
  destruct (admitted_sorted o Hadm) as [_ H0].
  assert (Ht : t <> -1) by lia.
  destruct (walk_spec t (history_node o) (history_next o) Ht)
    as (pre & post & Hsplit & Hpre & Hpost & Hwalk).
  set (r := List.last pre (history_node o)) in *.
  assert (Hget : Order.get_history_entry o t = r).
  { unfold Order.get_history_entry, Order.chain. cbn [Order.walk].
    destruct (Z.eqb_spec t (-1)) as [|_]; [contradiction|]. cbn [orb].
    destruct (Z.leb_spec (date (history_node o)) t) as [_|]; [exact Hwalk|lia]. }
  rewrite Hget.
  assert (Hchain : Order.chain o = removelast (history_node o :: pre) ++ r :: post).
  { unfold Order.chain. rewrite Hsplit.
    change (history_node o :: pre ++ post) with ((history_node o :: pre) ++ post).
    pose proof (app_removelast_last (l := history_node o :: pre) (history_node o)
                  ltac:(discriminate)) as E.
    rewrite last_cons in E. fold r in E.
    transitivity ((removelast (history_node o :: pre) ++ [r]) ++ post);
      [f_equal; exact E | now rewrite <- app_assoc]. }
  assert (Hr : date r <= t).
  { unfold r. destruct pre as [|x pre] using rev_ind; [exact Hcr|].
    rewrite List.last_last. apply Forall_app in Hpre as [_ Hx].
    now inversion Hx. }
  assert (Hafter : Forall (fun r' => t < date r') post).
  { rewrite Hchain in Hss. apply StronglySorted_app_1_r in Hss.
    apply StronglySorted_cons in Hss as [_ Hss].
    destruct post as [|x post]; [constructor|].
    apply StronglySorted_cons in Hss as [Hx _].
    constructor; [exact Hpost|].
    eapply Forall_impl; [exact Hx|]. unfold date_le. intros; cbn in *; lia. }
  split.
  - exists (removelast (history_node o :: pre)), post. auto.
  - split; [rewrite Hchain; apply in_elt|]. split; [exact Hr|].
    intros r' Hin Hle. rewrite Hchain in Hin, Hss.
    apply in_app_or in Hin as [Hin|[<-|Hin]]; [| lia |].
    + apply (StronglySorted_app_1_elem_of _ _ _ r' r Hss).
      * now apply list_elem_of_In.
      * left.
    + rewrite Forall_forall in Hafter. apply list_elem_of_In in Hin.
      specialize (Hafter _ Hin). cbn in Hafter. lia.
Qed.

(** C7 as stated, with "the unique record", fails where two records carry
    the same timestamp: after one amendment of an order created at time 1 both of
    its records are stamped 1, both are records with the largest timestamp
    not above 1, and get_history_entry returns the second. *)
Lemma latest_record_not_unique :
  admitted amended_once /\ date (history_node amended_once) <= 1 /\
  (exists r, latest_as_of amended_once 1 r /\
             r <> Order.get_history_entry amended_once 1) /\
  ~ (exists! r, latest_as_of amended_once 1 r).
Proof.
  assert (Hfirst : latest_as_of amended_once 1 (history_node amended_once)).
  { split; [left; reflexivity|]. split; [vm_compute; discriminate|].
    intros r' [<-|[<-|[]]] _; vm_compute; discriminate. }
  assert (Hsecond : latest_as_of amended_once 1
                      (Order.get_history_entry amended_once 1)).
  { split; [right; left; reflexivity|]. split; [vm_compute; discriminate|].
    intros r' [<-|[<-|[]]] _; vm_compute; discriminate. }
  assert (Hne : history_node amended_once <> Order.get_history_entry amended_once 1)
    by (vm_compute; discriminate).
  split; [apply admitted_add, admitted_new; lia|].
  split; [vm_compute; discriminate|]. split.
  - exists (history_node amended_once). split; [exact Hfirst|exact Hne].
  - intros (r & _ & Huniq). apply Hne.
    now rewrite <- (Huniq _ Hfirst), <- (Huniq _ Hsecond).
Qed.

Lemma get_history_entry_last_added_witness :
  admitted amended_once /\ date (history_node amended_once) <= 1 /\
  last_added_as_of amended_once 1 (Order.get_history_entry amended_once 1) /\
  latest_as_of amended_once 1 (Order.get_history_entry amended_once 1).
Proof.
  assert (Ha : admitted amended_once) by (apply admitted_add, admitted_new; lia).
  assert (Hc : date (history_node amended_once) <= 1) by (vm_compute; discriminate).
  split; [exact Ha|]. split; [exact Hc|].
  apply (get_history_entry_last_added amended_once 1 Ha Hc).
Defined.

(** ** Three facts behind the concrete runs *)

(* Of two active orders the top is the one with the lower price, on either
   side of the book; with equal prices it is the second. *)
Lemma pair_get_max_order (type : order_heap_type_t) (o1 o2 : Order) :
  OrderMinMaxHeap.get_max_order (pair_heap type o1 o2) =
    Ok (Some (if Order.get_price o1 (-1) <? Order.get_price o2 (-1) then 0 else 1)).
Proof.
  assert (H0 : OrderMinMaxHeap.get_allocated (pair_heap type o1 o2) 0 = Ok true).
  { unfold OrderMinMaxHeap.get_allocated, pair_heap. cbn [allocated].
    change (OrderMinMaxHeap.in_array 0) with true. cbn iota.
    rewrite lookup_insert_ne by lia. now rewrite lookup_singleton_eq. }
  assert (H1 : OrderMinMaxHeap.get_allocated (pair_heap type o1 o2) 1 = Ok true).
  { unfold OrderMinMaxHeap.get_allocated, pair_heap. cbn [allocated].
    change (OrderMinMaxHeap.in_array 1) with true. cbn iota.
    now rewrite lookup_insert_eq. }
  assert (H2 : OrderMinMaxHeap.get_allocated (pair_heap type o1 o2) 2 = Ok false).
  { unfold OrderMinMaxHeap.get_allocated, pair_heap. cbn [allocated].
    change (OrderMinMaxHeap.in_array 2) with true. cbn iota.
    rewrite lookup_insert_ne by lia. now rewrite lookup_singleton_ne by lia. }
  assert (D0 : OrderMinMaxHeap.get_data (pair_heap type o1 o2) 0 = Ok o1).
  { unfold OrderMinMaxHeap.get_data, pair_heap. cbn [data].
    change (OrderMinMaxHeap.in_array 0) with true. cbn iota.
    rewrite lookup_insert_ne by lia. now rewrite lookup_singleton_eq. }
  assert (D1 : OrderMinMaxHeap.get_data (pair_heap type o1 o2) 1 = Ok o2).
  { unfold OrderMinMaxHeap.get_data, pair_heap. cbn [data].
    change (OrderMinMaxHeap.in_array 1) with true. cbn iota.
    now rewrite lookup_insert_eq. }
  unfold OrderMinMaxHeap.get_max_order, OrderMinMaxHeap.has_precedence_at.
  rewrite H0, H1, H2, D0, D1. cbn [bind negb].
  unfold OrderMinMaxHeap.has_precedence.
  destruct (Order.get_price o1 (-1) <? Order.get_price o2 (-1)); reflexivity.
Qed.

(* A key above the first of two symbols goes to the end of the list,
   whatever the second symbol is. *)
Lemma insert_after_the_second (ob : OrderBook) (a c key : symbol_t) :
  cache_list_sorted_symbol_names ob = [a; c] ->
  OrderBook.strcmp a key < 0 ->
  cache_list_sorted_symbol_names (OrderBook.insert ob key).2 = [a; c; key].
Proof.
  intros Hl Hlt. unfold OrderBook.insert.
  cbn [snd cache_list_sorted_symbol_names OrderBook.set_table
       OrderBook.set_cache_list_sorted_symbol_names].
  rewrite Hl. destruct (Z.geb_spec (OrderBook.strcmp a key) 0) as [|_]; [lia|].
  cbn [OrderBook.insert_after].
  destruct (Z.ltb_spec (OrderBook.strcmp a key) 0) as [_|]; [reflexivity|lia].
Qed.

(* A cancel that passes the test of the clock and whose order id falls in
   an empty bucket of the cache reads through the null pointer. *)
Lemma cancel_null_bucket (fuel : nat) (ob : OrderBook) (o : Command.t) :
  timestamp ob <= Command.timestamp o ->
  OrderBook.cache_bucket ob
    (OrderBook.hash (OrderBook.to_unsigned (Command.order_id o))) = [] ->
  OrderBook.cancel_order fuel ob o = Undefined NullPointer.
Proof.
  intros Ht Hb. unfold OrderBook.cancel_order.
  destruct (Z.ltb_spec (Command.timestamp o) (timestamp ob)) as [|_]; [lia|].
  now rewrite Hb.
Qed.

(** ** The order book on concrete runs *)

(** C1, on the code. With a buy of 100 at 10.00 and a sell of 100 at 10.00
    the prices cross, and the claim has 100 units trade, which fills both
    orders. In the code one turn of the loop of match hands the buy price
    to transact as the amount to take off: both orders go from 100 to 90,
    and match writes ten trade rows before both are filled. *)
Theorem match_turn_deducts_price :
  entry_after 1 crossing_orders "AB" = Ok crossing_entry
  /\ remaining crossing_entry BUY 1 = Ok 100
  /\ remaining crossing_entry SELL 2 = Ok 100
  /\ OrderEntry.match_body 1 crossing_entry 3 =
       Ok (OrderEntry.Continue (TradeRow "AB" 1 "L" 100 1000 1000 100 "L" 2)
             crossing_entry_after_one_turn)
  /\ remaining crossing_entry_after_one_turn BUY 1 = Ok 90
  /\ remaining crossing_entry_after_one_turn SELL 2 = Ok 90
  /\ lines_of 10 (crossing_orders ++ [cmd_match F_MATCH_TIMESTAMP_SYMBOL 3 "AB"]) =
       Ok ([Report 1 "Accept" None; Report 2 "Accept" None] ++
           map (fun q => TradeRow "AB" 1 "L" q 1000 1000 q "L" 2)
             [100; 90; 80; 70; 60; 50; 40; 30; 20; 10]).
Proof. repeat split; vm_compute; reflexivity. Qed.

(** C2, on the code. After two buys, order 1 at 10.00 and order 2 at 20.00,
    both active, get_max_order returns slot 0, which holds order 1, the
    lower price. After two sells, order 1 at 20.00 and order 2 at 10.00,
    get_min_order, from which match takes the best sell, returns slot 0,
    which holds order 1, the higher price. Of any two active orders
    get_max_order returns the one with the lower price, and the second
    when the prices are equal, on either side of the book. *)
Theorem top_is_not_the_best_price :
  entry_after 1 two_buys "AB" = Ok two_buys_entry
  /\ OrderMinMaxHeap.get_max_order (buys two_buys_entry) = Ok (Some 0)
  /\ slot (buys two_buys_entry) 0 = Ok (Order.new 1 LIMIT 1 1000 1)
  /\ slot (buys two_buys_entry) 1 = Ok (Order.new 2 LIMIT 2 2000 1)
  /\ OrderMinMaxHeap.search (buys two_buys_entry) 2 = Ok 1
  /\ Order.active_at (Order.new 2 LIMIT 2 2000 1) (-1) = true
  /\ entry_after 1 two_sells "AB" = Ok two_sells_entry
  /\ OrderMinMaxHeap.get_min_order (sells two_sells_entry) = Ok (Some 0)
  /\ slot (sells two_sells_entry) 0 = Ok (Order.new 1 LIMIT 1 2000 1)
  /\ slot (sells two_sells_entry) 1 = Ok (Order.new 2 LIMIT 2 1000 1)
  /\ OrderMinMaxHeap.search (sells two_sells_entry) 2 = Ok 1
  /\ Order.active_at (Order.new 2 LIMIT 2 1000 1) (-1) = true
  /\ (forall type o1 o2,
        OrderMinMaxHeap.get_max_order (pair_heap type o1 o2) =
          Ok (Some (if Order.get_price o1 (-1) <? Order.get_price o2 (-1)
                    then 0 else 1))).
Proof.
  repeat (split; [vm_compute; reflexivity|]).
  intros type o1 o2. apply pair_get_max_order.
Qed.

(** C4, on the code. On the empty order book the cancel of the unknown id
    999 reads the symbol through the null pointer of an empty bucket of the
    order-to-symbol cache: no status comes back and no line is written.
    Where the bucket of the unknown id holds another order (65537 falls in
    the bucket of 1), the cancel is accepted, and the clock moves to the
    timestamp of the command. *)
Theorem cancel_of_unknown_id :
  (forall fuel,
     OrderBook.cancel_order fuel OrderBook.new (cmd_cancel 999 10)
       = Undefined NullPointer
     /\ OrderInterpreter.interpret_order fuel OrderBook.new (cmd_cancel 999 10)
       = Undefined NullPointer)
  /\ lines_of 1 [cmd_new 1 1 "AB" LIMIT BUY 1000 1; cmd_cancel 65537 10] =
       Ok [Report 1 "Accept" None; Report 65537 "CancelAccept" None]
  /\ (let* ob := book_after 1 [cmd_new 1 1 "AB" LIMIT BUY 1000 1; cmd_cancel 65537 10] in
      Ok (timestamp ob)) = Ok 10.
Proof.
  split; [intros fuel; split; reflexivity|].
  split; vm_compute; reflexivity.
Qed.

(** C8, on the code. After NEW commands for the symbols A, C and B, in this
    order, the list of symbol names is A, C, B, and the global query writes
    the rows of A, then those of C, then those of B. *)
Theorem symbol_list_out_of_order :
  (let* ob := book_after 1 three_symbols in
   Ok (cache_list_sorted_symbol_names ob)) = Ok ["A"; "C"; "B"]
  /\ lines_of 1 (three_symbols ++ [cmd_query F_QUERY 0 ""]) =
       Ok [Report 1 "Accept" None; Report 2 "Accept" None; Report 3 "Accept" None;
           SnapshotRow "A" (Some (1, "L", 1, 1000)) None;
           SnapshotRow "C" (Some (2, "L", 1, 1000)) None;
           SnapshotRow "B" (Some (3, "L", 1, 1000)) None]
  /\ OrderBook.strcmp "C" "B" = 1.
Proof. repeat split; vm_compute; reflexivity. Qed.

(** ** The clock of the order book *)

(** C3, on the code. A NEW, an AMEND, a CANCEL or a MATCH whose timestamp
    is below the clock of the order book leaves the order book as it is,
    the clock included, but it is not rejected. add_new_order sets its
    status to INVALID_ORDER_DETAILS (303) and, declared bool, returns true:
    interpret_order receives 1, which is neither ACCEPT nor 303, and writes
    nothing. ammend_order, cancel_order and match do return 303, for which
    interpret_order has no case: it writes nothing for them either. No
    Reject line is written for any such command. *)
Theorem regressed_command_gets_no_reject (fuel : nat) (ob : OrderBook)
    (o : Command.t) :
  Command.timestamp o < timestamp ob ->
  OrderBook.add_new_order fuel ob o = Ok (true, ob)
  /\ int_of_bool true = 1
  /\ int_of_bool true <> INVALID_ORDER_DETAILS
  /\ OrderBook.ammend_order fuel ob o = Ok (INVALID_ORDER_DETAILS, ob)
  /\ OrderBook.cancel_order fuel ob o = Ok (INVALID_ORDER_DETAILS, ob)
  /\ OrderBook.match_ fuel ob o = Ok (INVALID_ORDER_DETAILS, [], ob)
  /\ (Command.order_action o <> QUERY ->
      OrderInterpreter.interpret_order fuel ob o = Ok (true, [], ob)).
Proof.
  intros Hlt. apply Z.ltb_lt in Hlt.
  assert (Hn : OrderBook.add_new_order fuel ob o = Ok (true, ob)).
  { unfold OrderBook.add_new_order. rewrite Hlt. reflexivity. }
  assert (Ha : OrderBook.ammend_order fuel ob o = Ok (INVALID_ORDER_DETAILS, ob)).
  { unfold OrderBook.ammend_order. rewrite Hlt. reflexivity. }
  assert (Hc : OrderBook.cancel_order fuel ob o = Ok (INVALID_ORDER_DETAILS, ob)).
  { unfold OrderBook.cancel_order. rewrite Hlt. reflexivity. }
  assert (Hm : OrderBook.match_ fuel ob o = Ok (INVALID_ORDER_DETAILS, [], ob)).
  { unfold OrderBook.match_. rewrite Hlt. reflexivity. }
  split; [exact Hn|]. split; [reflexivity|].
  split; [unfold INVALID_ORDER_DETAILS; cbn; discriminate|].
  split; [exact Ha|]. split; [exact Hc|]. split; [exact Hm|].
  intros Hq. unfold OrderInterpreter.interpret_order.
  destruct (Command.order_action o); [| | | |contradiction].
  - rewrite Hn. reflexivity.
  - rewrite Ha. reflexivity.
  - rewrite Hc. reflexivity.
  - rewrite Hm. reflexivity.
Qed.

Lemma regressed_command_gets_no_reject_witness :
  Command.timestamp (cmd_new 2 3 "AB" LIMIT SELL 1000 1) < timestamp book_at_5
  /\ OrderBook.add_new_order 1 book_at_5 (cmd_new 2 3 "AB" LIMIT SELL 1000 1)
       = Ok (true, book_at_5)
  /\ int_of_bool true = 1
  /\ int_of_bool true <> INVALID_ORDER_DETAILS
  /\ OrderBook.ammend_order 1 book_at_5 (cmd_new 2 3 "AB" LIMIT SELL 1000 1)
       = Ok (INVALID_ORDER_DETAILS, book_at_5)
  /\ OrderBook.cancel_order 1 book_at_5 (cmd_new 2 3 "AB" LIMIT SELL 1000 1)
       = Ok (INVALID_ORDER_DETAILS, book_at_5)
  /\ OrderBook.match_ 1 book_at_5 (cmd_new 2 3 "AB" LIMIT SELL 1000 1)
       = Ok (INVALID_ORDER_DETAILS, [], book_at_5)
  /\ (Command.order_action (cmd_new 2 3 "AB" LIMIT SELL 1000 1) <> QUERY ->
      OrderInterpreter.interpret_order 1 book_at_5
        (cmd_new 2 3 "AB" LIMIT SELL 1000 1) = Ok (true, [], book_at_5)).
Proof.
  assert (H : Command.timestamp (cmd_new 2 3 "AB" LIMIT SELL 1000 1)
              < timestamp book_at_5) by (vm_compute; reflexivity).
  split; [exact H|].
  exact (regressed_command_gets_no_reject 1 book_at_5
           (cmd_new 2 3 "AB" LIMIT SELL 1000 1) H).
Defined.

(** ** Queries *)



(** ** The heap *)

Section HeapFacts.

Implicit Types (h : OrderMinMaxHeap) (o : Order) (i d : Z).

Lemma in_array_true i :
  0 <= i < MAX_NUM_ORDERS_IN_HEAP -> OrderMinMaxHeap.in_array i = true.
Proof.
  intros [H1 H2]. unfold OrderMinMaxHeap.in_array.
  apply andb_true_iff. split; [now apply Z.leb_le | now apply Z.ltb_lt].
Qed.

Lemma get_data_ok h i :
  0 <= i < MAX_NUM_ORDERS_IN_HEAP ->
  OrderMinMaxHeap.get_data h i = Ok (default Order.new_default (data h !! i)).
Proof.
  intros H. unfold OrderMinMaxHeap.get_data. now rewrite (in_array_true i H).
Qed.

Lemma set_data_ok h i o :
  0 <= i < MAX_NUM_ORDERS_IN_HEAP ->
  OrderMinMaxHeap.set_data h i o =
    Ok {| data := <[i := o]> (data h); active_ptr := active_ptr h;
          matched_ptr := matched_ptr h; allocated := allocated h;
          heap_type := heap_type h |}.
Proof.
  intros H. unfold OrderMinMaxHeap.set_data. now rewrite (in_array_true i H).
Qed.

Lemma get_allocated_ok h i :
  0 <= i < MAX_NUM_ORDERS_IN_HEAP ->
  OrderMinMaxHeap.get_allocated h i = Ok (default false (allocated h !! i)).
Proof.
  intros H. unfold OrderMinMaxHeap.get_allocated. now rewrite (in_array_true i H).
Qed.

Lemma set_allocated_ok h i (b : bool) :
  0 <= i < MAX_NUM_ORDERS_IN_HEAP ->
  OrderMinMaxHeap.set_allocated h i b =
    Ok {| data := data h; active_ptr := active_ptr h;
          matched_ptr := matched_ptr h; allocated := <[i := b]> (allocated h);
          heap_type := heap_type h |}.
Proof.
  intros H. unfold OrderMinMaxHeap.set_allocated. now rewrite (in_array_true i H).
Qed.

Lemma zero_in_array : 0 <= 0 < MAX_NUM_ORDERS_IN_HEAP.
Proof. unfold MAX_NUM_ORDERS_IN_HEAP. lia. Qed.

Lemma has_children_root h :
  OrderMinMaxHeap.has_children h 0 = Ok (default false (allocated h !! 0)).
Proof.
  unfold OrderMinMaxHeap.has_children.
  change (shl 0 1) with 0. change (shl 0 (1 + 1)) with 0.
  rewrite (get_allocated_ok h 0 zero_in_array). cbn [bind].
  destruct (default false (allocated h !! 0)); reflexivity.
Qed.

Lemma has_precedence_irrefl o t : OrderMinMaxHeap.has_precedence o o t = false.
Proof. unfold OrderMinMaxHeap.has_precedence. apply Z.ltb_irrefl. Qed.

(* push_down(0) leaves the heap as it is: on the first turn of either loop
   the slot is compared with itself *)
Lemma push_down_root fuel h :
  (1 <= fuel)%nat -> OrderMinMaxHeap.push_down fuel h 0 = Ok h.
Proof.
  intros Hf. unfold OrderMinMaxHeap.push_down. rewrite has_children_root.
  cbn [bind]. destruct (default false (allocated h !! 0)) eqn:E.
  - unfold OrderMinMaxHeap.push_down_min. destruct fuel as [|k]; [lia|].
    cbn [OrderMinMaxHeap.push_down_loop]. rewrite has_children_root, E.
    cbn [bind]. unfold OrderMinMaxHeap.push_down_body,
      OrderMinMaxHeap.has_precedence_at.
    rewrite (get_data_ok h 0 zero_in_array). cbn [bind].
    rewrite has_precedence_irrefl. reflexivity.
  - unfold OrderMinMaxHeap.push_down_max.
    destruct fuel as [|k]; cbn [OrderMinMaxHeap.push_down_loop];
      rewrite has_children_root, E; reflexivity.
Qed.

(* search returns -1 or the index of a slot that is marked allocated *)
Lemma search_loop_spec (k : nat) h d (id : order_id_t) :
  0 <= d -> d + Z.of_nat k <= MAX_NUM_ORDERS_IN_HEAP ->
  exists i, OrderMinMaxHeap.search_loop k h d id = Ok i /\
            (i = -1 \/ (d <= i < d + Z.of_nat k /\ allocated h !! i = Some true)).
Proof.
  revert d; induction k as [|k IH]; intros d Hd Hk.
  - exists (-1). split; [reflexivity | now left].
  - cbn [OrderMinMaxHeap.search_loop].
    rewrite (get_allocated_ok h d) by lia. cbn [bind].
    destruct (allocated h !! d) as [[|]|] eqn:Ea; cbn [default bind].
    + rewrite (get_data_ok h d) by lia. cbn [bind].
      destruct (Order.get_order_id _ =? id).
      * exists d. split; [reflexivity|]. right. split; [lia|exact Ea].
      * destruct (IH (d + 1)) as (i & -> & Hi); [lia|lia|].
        exists i. split; [reflexivity|]. destruct Hi as [->|[Hr Hal]]; [now left|].
        right. split; [lia|exact Hal].
    + destruct (IH (d + 1)) as (i & -> & Hi); [lia|lia|].
      exists i. split; [reflexivity|]. destruct Hi as [->|[Hr Hal]]; [now left|].
      right. split; [lia|exact Hal].
    + destruct (IH (d + 1)) as (i & -> & Hi); [lia|lia|].
      exists i. split; [reflexivity|]. destruct Hi as [->|[Hr Hal]]; [now left|].
      right. split; [lia|exact Hal].
Qed.

Lemma search_spec h (id : order_id_t) :
  heap_wf h ->
  exists i, OrderMinMaxHeap.search h id = Ok i /\
            (i = -1 \/ 0 <= i < active_ptr h).
Proof.
  intros (Ha & Ham & Hm & Hal). unfold OrderMinMaxHeap.search.
  destruct (search_loop_spec (Z.to_nat (matched_ptr h)) h 0 id) as (i & Hs & Hi);
    [lia|lia|].
  exists i. split; [exact Hs|]. destruct Hi as [->|[_ Hi]]; [now left|].
  right. apply Hal, Hi.
Qed.

(* on a heap of the right shape cancel returns, with ORDER_DOES_NOT_EXIST
   and the heap untouched when search finds no order, with ACCEPT when it
   finds one *)
Lemma heap_cancel_returns fuel h (id : order_id_t) :
  (1 <= fuel)%nat -> heap_wf h ->
  exists s h', OrderMinMaxHeap.cancel fuel h id = Ok (s, h') /\
    (OrderMinMaxHeap.search h id = Ok (-1) ->
       s = ORDER_DOES_NOT_EXIST /\ h' = h).
Proof.
  intros Hf Hwf. destruct (search_spec h id Hwf) as (i & Hs & Hi).
  destruct Hwf as (Ha & Ham & Hm & Hal).
  unfold OrderMinMaxHeap.cancel. rewrite Hs. cbn [bind].
  destruct Hi as [->|Hi].
  - cbn. eexists _, _. split; [reflexivity|]. auto.
  - destruct (Z.eqb_spec i (-1)) as [->|Hne]; [lia|]. cbn [negb].
    rewrite (get_data_ok h i) by lia. cbn [bind].
    rewrite set_data_ok by lia. cbn [bind].
    unfold OrderMinMaxHeap.make_inactive, OrderMinMaxHeap.swap.
    cbn [active_ptr].
    rewrite !get_data_ok by (cbn [active_ptr]; lia). cbn [bind].
    rewrite set_data_ok by lia. cbn [bind].
    rewrite set_data_ok by (cbn [active_ptr]; lia). cbn [bind active_ptr].
    rewrite set_allocated_ok by (cbn [active_ptr]; lia). cbn [bind].
    rewrite (push_down_root fuel _ Hf). cbn [bind].
    rewrite (push_down_root fuel _ Hf). cbn [bind].
    eexists _, _. split; [reflexivity|]. intros E. inversion E. lia.
Qed.

End HeapFacts.

(** ** Cancellation *)

Lemma single_wf (type : order_heap_type_t) (o : Order) : heap_wf (single type o).
Proof.
  unfold heap_wf, single, MAX_NUM_ORDERS_IN_HEAP.
  cbn [active_ptr matched_ptr allocated].
  split; [lia|]. split; [lia|]. split; [lia|].
  intros i Hi. apply lookup_singleton_Some in Hi. lia.
Qed.

Lemma new_heap_wf (type : order_heap_type_t) : heap_wf (OrderMinMaxHeap.new type).
Proof.
  unfold heap_wf, OrderMinMaxHeap.new, MAX_NUM_ORDERS_IN_HEAP.
  cbn [active_ptr matched_ptr allocated].
  split; [lia|]. split; [lia|]. split; [lia|].
  intros i Hi. rewrite lookup_empty in Hi. discriminate.
Qed.

(* A cancel command that gets as far as the lookup, on an entry whose side
   book has the shape of a heap, is accepted; where the side book has no
   active order with the id, the heap reports ORDER_DOES_NOT_EXIST, changes
   nothing, and OrderEntry::cancel drops the report. *)
Lemma cancel_order_accepts (fuel : nat) (ob : OrderBook)
    (o : Command.t) (node : hash_order_to_symbol.t)
    (rest : list hash_order_to_symbol.t) (ptr : Z * nat) (e : OrderEntry) :
  (1 <= fuel)%nat ->
  Command.order_action o = CANCEL ->
  timestamp ob <= Command.timestamp o ->
  OrderBook.cache_bucket ob
    (OrderBook.hash (OrderBook.to_unsigned (Command.order_id o))) = node :: rest ->
  OrderBook.lookup ob (hash_order_to_symbol.symbol node) = Some ptr ->
  OrderBook.entry_at ob (Some ptr) = Ok e ->
  heap_wf (side_heap e (Command.side o)) ->
  exists e' ob',
    OrderEntry.cancel fuel e (Command.order_id o) (Command.side o) = Ok (ACCEPT, e')
    /\ OrderBook.cancel_order fuel ob o = Ok (ACCEPT, ob')
    /\ OrderInterpreter.interpret_order fuel ob o =
         Ok (true, [Report (Command.order_id o) "CancelAccept" None], ob')
    /\ (OrderMinMaxHeap.search (side_heap e (Command.side o)) (Command.order_id o)
           = Ok (-1) ->
         OrderMinMaxHeap.cancel fuel (side_heap e (Command.side o))
           (Command.order_id o)
           = Ok (ORDER_DOES_NOT_EXIST, side_heap e (Command.side o))
         /\ e' = e).
Proof.
  intros Hf Hact Hts Hbucket Hlook Hentry Hwf.
  destruct (heap_cancel_returns fuel _ (Command.order_id o) Hf Hwf)
    as (s & h' & Hcancel & Hmiss).
  assert (He : exists e', OrderEntry.cancel fuel e (Command.order_id o)
                            (Command.side o) = Ok (ACCEPT, e')
                          /\ (h' = side_heap e (Command.side o) -> e' = e)).
  { unfold OrderEntry.cancel. destruct (Command.side o); cbn [side_heap] in *;
      rewrite Hcancel; cbn [bind]; eexists; (split; [reflexivity|]);
      intros ->; destruct e; reflexivity. }
  destruct He as (e' & He & Hsame).
  assert (Hco : OrderBook.cancel_order fuel ob o =
            Ok (ACCEPT,
                OrderBook.set_timestamp
                  (OrderBook.set_table ob
                     (<[ptr.1 := <[ptr.2 := e']> (OrderBook.bucket ob ptr.1)]> (table ob)))
                  (Command.timestamp o))).
  { unfold OrderBook.cancel_order.
    destruct (Z.ltb_spec (Command.timestamp o) (timestamp ob)) as [|_]; [lia|].
    rewrite Hbucket. cbn [bind]. rewrite Hlook, Hentry. cbn [bind].
    rewrite He. cbn [bind]. destruct ptr as [hb p]. reflexivity. }
  eexists e', _. split; [exact He|]. split; [exact Hco|]. split.
  - unfold OrderInterpreter.interpret_order. rewrite Hact, Hco. reflexivity.
  - intros Hs. destruct (Hmiss Hs) as [-> ->]. split; [exact Hcancel|].
    now apply Hsame.
Qed.

(** ** The loop of match *)

Section MatchFacts.

Lemma single_slot (type : order_heap_type_t) (o : Order) :
  OrderMinMaxHeap.get_data (single type o) 0 = Ok o.
Proof.
  rewrite (get_data_ok _ 0 zero_in_array). unfold single. cbn [data].
  now rewrite lookup_singleton_eq.
Qed.

Lemma single_allocated_0 (type : order_heap_type_t) (o : Order) :
  OrderMinMaxHeap.get_allocated (single type o) 0 = Ok true.
Proof.
  rewrite (get_allocated_ok _ 0 zero_in_array). unfold single. cbn [allocated].
  now rewrite lookup_singleton_eq.
Qed.

Lemma single_allocated_1 (type : order_heap_type_t) (o : Order) :
  OrderMinMaxHeap.get_allocated (single type o) 1 = Ok false.
Proof.
  rewrite (get_allocated_ok _ 1) by (unfold MAX_NUM_ORDERS_IN_HEAP; lia).
  unfold single. cbn [allocated]. now rewrite lookup_singleton_ne by lia.
Qed.

Lemma single_search (type : order_heap_type_t) (o : Order) :
  OrderMinMaxHeap.search (single type o) (Order.get_order_id o) = Ok 0.
Proof.
  unfold OrderMinMaxHeap.search.
  change (Z.to_nat (matched_ptr (single type o))) with 1%nat.
  cbn [OrderMinMaxHeap.search_loop].
  rewrite single_allocated_0. cbn [bind].
  rewrite single_slot. cbn [bind]. now rewrite Z.eqb_refl.
Qed.

Lemma single_get_max_order (type : order_heap_type_t) (o : Order) :
  OrderMinMaxHeap.get_max_order (single type o) = Ok (Some 0).
Proof.
  unfold OrderMinMaxHeap.get_max_order.
  rewrite single_allocated_0. cbn [bind negb].
  rewrite single_allocated_1. reflexivity.
Qed.

(* transact on a heap with one order, when more than the deduction is left
   on the order: the order gets one more record and stays where it is *)
Lemma single_transact_partial (fuel : nat) (type : order_heap_type_t) (o : Order)
    (deduction : price_t) (t : time_t) (z : Z) :
  int_of_float (float_of_int (Order.get_quantity o t) - deduction) = Ok z ->
  0 < z ->
  OrderMinMaxHeap.transact fuel (single type o) (Order.get_order_id o) deduction t =
    Ok (true,
        single type
          (Order.transact o t (Order.get_price o t)
             (quantity_of_float (float_of_int (Order.get_quantity o t) - deduction)))).
Proof.
  intros Hz Hpos. unfold OrderMinMaxHeap.transact.
  rewrite single_search. cbn [bind]. rewrite single_slot. cbn [bind].
  rewrite Hz. cbn [bind]. destruct (Z.leb_spec z 0) as [|_]; [lia|].
  rewrite (set_data_ok _ 0 _ zero_in_array). cbn [bind].
  unfold single. cbn [data active_ptr matched_ptr allocated heap_type].
  now rewrite insert_singleton_eq.
Qed.

Lemma last_replicate {A : Type} (n : nat) (x d : A) :
  List.last (replicate (S n) x) d = x.
Proof.
  induction n as [|n IH]; [reflexivity|].
  change (List.last (replicate (S (S n)) x) d)
    with (List.last (replicate (S n) x) d).
  exact IH.
Qed.

(* the order of price 0.00 after [n] turns, as it stands now and as of
   time 3: the record in force has price 0.00 and quantity 5, is not one of
   execution in full and is not stamped after 3 *)
Lemma zero_price_order_in_force (id : order_id_t) (t0 : time_t) (n : nat) (t : time_t) :
  0 <= t0 <= 3 -> t = -1 \/ t = 3 ->
  let r := Order.get_history_entry (zero_price_order id t0 n) t in
  price r = 0 /\ quantity_remaining r = 5 /\ history r <> EXECUTED /\ date r <= 3.
Proof.
  intros Ht0 Ht r.
  assert (Hall : forallb (in_force t) (Order.chain (zero_price_order id t0 n)) = true).
  { unfold Order.chain, zero_price_order. cbn [history_node history_next forallb].
    apply andb_true_iff. split.
    - unfold in_force. cbn [date]. destruct Ht as [->| ->]; [reflexivity|].
      apply orb_true_iff. right. apply Z.leb_le. lia.
    - induction n as [|n IH]; [reflexivity|].
      cbn [replicate forallb]. rewrite IH.
      unfold in_force. cbn [date]. destruct Ht as [->| ->]; reflexivity. }
  assert (Hr : r = List.last (history_next (zero_price_order id t0 n))
                    (history_node (zero_price_order id t0 n))).
  { unfold r, Order.get_history_entry. rewrite (walk_all _ _ _ Hall).
    unfold Order.chain. now rewrite last_cons. }
  rewrite Hr. unfold zero_price_order. cbn [history_node history_next].
  destruct n as [|n].
  - cbn. repeat split; [discriminate|lia].
  - rewrite last_replicate. cbn. repeat split; [discriminate|lia].
Qed.

Lemma zero_price_order_transact (id : order_id_t) (t0 : time_t) (n : nat) :
  0 <= t0 <= 3 ->
  Order.transact (zero_price_order id t0 n) 3 0 5 = zero_price_order id t0 (S n).
Proof.
  intros Ht0. unfold Order.transact. cbn [Z.eqb].
  unfold Order.add_execution_history_entry.
  destruct (zero_price_order_in_force id t0 n (-1) Ht0 (or_introl eq_refl))
    as (_ & _ & _ & Hd).
  destruct (Z.ltb_spec 3 (date (Order.get_history_entry (zero_price_order id t0 n) (-1))))
    as [|_]; [lia|].
  unfold zero_price_order. cbn [order_id order_type history_node history_next].
  f_equal. symmetry. apply replicate_S_end.
Qed.

(* a turn of the loop on the two orders of price 0.00 writes a trade row
   and leaves them with quantity 5, as they were, one record longer *)
Lemma zero_price_turn (fuel n : nat) :
  OrderEntry.match_body fuel (zero_price_entry n) 3 =
    Ok (OrderEntry.Continue (TradeRow "AB" 1 "L" 5 0 0 5 "L" 2)
          (zero_price_entry (S n))).
Proof.
  unfold OrderEntry.match_body, OrderMinMaxHeap.get_min_order, zero_price_entry.
  cbn [buys sells symbol]. rewrite single_get_max_order. cbn [bind].
  rewrite !single_slot. cbn [bind].
  destruct (zero_price_order_in_force 1 1 n (-1) ltac:(lia) (or_introl eq_refl))
    as (Hbp & Hbq & Hbh & _).
  destruct (zero_price_order_in_force 2 2 n (-1) ltac:(lia) (or_introl eq_refl))
    as (Hsp & Hsq & Hsh & _).
  destruct (zero_price_order_in_force 1 1 n 3 ltac:(lia) (or_intror eq_refl))
    as (Hbp3 & Hbq3 & _ & _).
  destruct (zero_price_order_in_force 2 2 n 3 ltac:(lia) (or_intror eq_refl))
    as (Hsp3 & Hsq3 & _ & _).
  cbn zeta in *.
  unfold Order.get_price, Order.get_quantity.
  rewrite Hbp, Hbq, Hsp, Hsq.
  rewrite (bool_decide_eq_false_2 _ Hbh), (bool_decide_eq_false_2 _ Hsh).
  cbn [negb andb Z.geb Z.compare].
  unfold OrderEntry.set_buys, OrderEntry.set_sells. cbn [buys sells symbol].
  rewrite (single_transact_partial fuel BUY_HEAP (zero_price_order 1 1 n) 0 3 5);
    [|unfold Order.get_quantity; rewrite Hbq3; reflexivity|lia].
  cbn [bind].
  rewrite (single_transact_partial fuel SELL_HEAP (zero_price_order 2 2 n) 0 3 5);
    [|unfold Order.get_quantity; rewrite Hsq3; reflexivity|lia].
  cbn [bind].
  unfold Order.get_price, Order.get_quantity. rewrite Hbp3, Hbq3, Hsp3, Hsq3.
  change (quantity_of_float (float_of_int 5 - 0)) with 5.
  rewrite !zero_price_order_transact by lia.
  reflexivity.
Qed.

End MatchFacts.

Lemma zero_price_loop (fuel k n : nat) :
  OrderEntry.match_loop fuel k (zero_price_entry n) 3 = OutOfFuel.
Proof.
  revert n; induction k as [|k IH]; intros n;
    cbn [OrderEntry.match_loop]; rewrite zero_price_turn; cbn [bind];
    [reflexivity|].
  now rewrite IH.
Qed.

(** C5, on the code. A buy and a sell of quantity 5 at price 0.00 cross.
    Each turn of the loop of match takes the buy price, 0.00, off both
    quantities: the turn writes a trade row, fills neither order and
    leaves both with quantity 5. The loop therefore asks for one more turn
    whatever the number of turns it is given, and match, the match command
    of the order book and interpret_order do not return. *)
Theorem match_loops_forever_at_price_zero :
  book_after 1 zero_price_orders = Ok zero_price_book
  /\ OrderBook.entry_at zero_price_book (OrderBook.lookup zero_price_book "AB")
       = Ok (zero_price_entry 0)
  /\ (forall fuel n,
        OrderEntry.match_body fuel (zero_price_entry n) 3 =
          Ok (OrderEntry.Continue (TradeRow "AB" 1 "L" 5 0 0 5 "L" 2)
                (zero_price_entry (S n)))
        /\ remaining (zero_price_entry n) BUY 1 = Ok 5
        /\ remaining (zero_price_entry n) SELL 2 = Ok 5)
  /\ (forall fuel k n,
        OrderEntry.match_loop fuel k (zero_price_entry n) 3 = OutOfFuel)
  /\ (forall fuel, OrderEntry.match_ fuel (zero_price_entry 0) 3 = OutOfFuel)
  /\ (forall fuel, OrderBook.match_ fuel zero_price_book match_AB_at_3 = OutOfFuel)
  /\ (forall fuel,
        OrderInterpreter.interpret_order fuel zero_price_book match_AB_at_3
          = OutOfFuel).
Proof.
  assert (Hentry : OrderBook.entry_at zero_price_book
                     (OrderBook.lookup zero_price_book "AB")
                   = Ok (zero_price_entry 0)) by (vm_compute; reflexivity).
  assert (Hm : forall fuel, OrderEntry.match_ fuel (zero_price_entry 0) 3 = OutOfFuel).
  { intros fuel. unfold OrderEntry.match_. now rewrite zero_price_loop. }
  assert (Hb : forall fuel,
             OrderBook.match_ fuel zero_price_book match_AB_at_3 = OutOfFuel).
  { intros fuel. unfold OrderBook.match_.
    replace (Command.timestamp match_AB_at_3 <? timestamp zero_price_book)
      with false by (vm_compute; reflexivity).
    cbn [match_AB_at_3 cmd_match Command.format Command.symbol Command.timestamp].
    rewrite Hentry. cbn [bind]. now rewrite Hm. }
  split; [vm_compute; reflexivity|]. split; [exact Hentry|]. split.
  { intros fuel n. split; [apply zero_price_turn|].
    unfold remaining, zero_price_entry, side_heap. cbn [buys sells].
    change 1 with (Order.get_order_id (zero_price_order 1 1 n)) at 1.
    change 2 with (Order.get_order_id (zero_price_order 2 2 n)) at 1.
    rewrite !single_search. cbn [bind]. rewrite !single_slot. cbn [bind].
    unfold Order.get_quantity.
    destruct (zero_price_order_in_force 1 1 n (-1) ltac:(lia) (or_introl eq_refl))
      as (_ & -> & _).
    destruct (zero_price_order_in_force 2 2 n (-1) ltac:(lia) (or_introl eq_refl))
      as (_ & -> & _).
    split; reflexivity. }
  split; [intros; apply zero_price_loop|]. split; [exact Hm|]. split; [exact Hb|].
  intros fuel. unfold OrderInterpreter.interpret_order.
  cbn [match_AB_at_3 cmd_match Command.order_action].
  fold match_AB_at_3. now rewrite Hb.
Qed.

(** ** What every reachable order book satisfies *)

Section Invariant.

Implicit Types (h : OrderMinMaxHeap) (o : Order) (i : Z).

Lemma bind_Ok_inv {A B : Type} (m : result A) (k : A -> result B) (r : B) :
  bind m k = Ok r -> exists a, m = Ok a /\ k a = Ok r.
Proof. destruct m as [a| |]; cbn; intros H; [eauto|discriminate|discriminate]. Qed.

Lemma admitted_default : admitted Order.new_default.
Proof. apply admitted_new. lia. Qed.

Lemma get_data_admitted h i o :
  data_ok h -> OrderMinMaxHeap.get_data h i = Ok o -> admitted o.
Proof.
  intros Hd. unfold OrderMinMaxHeap.get_data.
  destruct (OrderMinMaxHeap.in_array i); [|discriminate].
  intros H; inversion H; subst; clear H.
  destruct (data h !! i) as [x|] eqn:E; cbn; [apply (Hd i x E)|apply admitted_default].
Qed.

Lemma keeps_refl h : keeps h h.
Proof. unfold keeps; auto. Qed.

Lemma keeps_trans h1 h2 h3 : keeps h1 h2 -> keeps h2 h3 -> keeps h1 h3.
Proof.
  intros (A1 & M1 & L1 & D1) (A2 & M2 & L2 & D2).
  unfold keeps. repeat split; try congruence. auto.
Qed.

Lemma set_data_keeps h i o h' :
  admitted o -> OrderMinMaxHeap.set_data h i o = Ok h' -> keeps h h'.
Proof.
  intros Ho. unfold OrderMinMaxHeap.set_data.
  destruct (OrderMinMaxHeap.in_array i); [|discriminate].
  intros H; inversion H; subst; clear H. unfold keeps, data_ok.
  cbn [data active_ptr matched_ptr allocated].
  repeat split. intros Hd j x Hj.
  destruct (decide (i = j)) as [->|Hne].
  - rewrite lookup_insert_eq in Hj. now inversion Hj; subst.
  - rewrite lookup_insert_ne in Hj by exact Hne. eauto.
Qed.

Lemma swap_keeps h a b h' :
  data_ok h -> OrderMinMaxHeap.swap h a b = Ok h' -> keeps h h'.
Proof.
  intros Hd H. unfold OrderMinMaxHeap.swap in H.
  apply bind_Ok_inv in H as (oa & Ea & H).
  apply bind_Ok_inv in H as (ob & Eb & H).
  apply bind_Ok_inv in H as (h1 & E1 & H).
  pose proof (set_data_keeps _ _ _ _ (get_data_admitted _ _ _ Hd Eb) E1) as K1.
  pose proof (set_data_keeps _ _ _ _ (get_data_admitted _ _ _ Hd Ea) H) as K2.
  exact (keeps_trans _ _ _ K1 K2).
Qed.

Lemma keeps_data_ok h h' : keeps h h' -> data_ok h -> data_ok h'.
Proof. intros (_ & _ & _ & K). exact K. Qed.

Lemma push_up_loop_keeps (flip : bool) (k : nat) h i h' :
  data_ok h -> OrderMinMaxHeap.push_up_loop flip k h i = Ok h' -> keeps h h'.
Proof.
  revert h i; induction k as [|k IH]; intros h i Hd H;
    cbn [OrderMinMaxHeap.push_up_loop] in H;
    apply bind_Ok_inv in H as (c & Ec & H); destruct c.
  - discriminate.
  - inversion H; subst. apply keeps_refl.
  - apply bind_Ok_inv in H as (h1 & E1 & H).
    pose proof (swap_keeps _ _ _ _ Hd E1) as K1.
    exact (keeps_trans _ _ _ K1 (IH _ _ (keeps_data_ok _ _ K1 Hd) H)).
  - inversion H; subst. apply keeps_refl.
Qed.

Lemma push_up_keeps (fuel : nat) h i h' :
  data_ok h -> OrderMinMaxHeap.push_up fuel h i = Ok h' -> keeps h h'.
Proof.
  intros Hd H. unfold OrderMinMaxHeap.push_up in H.
  destruct (i =? 0); [inversion H; subst; apply keeps_refl|].
  apply bind_Ok_inv in H as (c & Ec & H).
  destruct c; cbn [negb] in H;
    apply bind_Ok_inv in H as (p & Ep & H); destruct p;
    try (apply bind_Ok_inv in H as (h1 & E1 & H);
         pose proof (swap_keeps _ _ _ _ Hd E1) as K1;
         refine (keeps_trans _ _ _ K1 _);
         eapply push_up_loop_keeps; [exact (keeps_data_ok _ _ K1 Hd)|exact H]);
    (eapply push_up_loop_keeps; [exact Hd|exact H]).
Qed.

Lemma push_down_body_keeps (fuel : nat) (flip : bool) h m i mi r :
  data_ok h -> OrderMinMaxHeap.push_down_body fuel flip h m i mi = Ok r ->
  match r with Some h' => keeps h h' | None => True end.
Proof.
  intros Hd H. unfold OrderMinMaxHeap.push_down_body in H.
  apply bind_Ok_inv in H as (p & Ep & H).
  destruct (xorb flip p); [|inversion H; subst; exact I].
  apply bind_Ok_inv in H as (g & Eg & H). destruct g.
  - apply bind_Ok_inv in H as (h1 & E1 & H).
    pose proof (swap_keeps _ _ _ _ Hd E1) as K1.
    apply bind_Ok_inv in H as (p2 & Ep2 & H).
    destruct (xorb flip p2).
    + apply bind_Ok_inv in H as (h2 & E2 & H). inversion H; subst.
      exact (keeps_trans _ _ _ K1
               (swap_keeps _ _ _ _ (keeps_data_ok _ _ K1 Hd) E2)).
    + inversion H; subst. exact K1.
  - apply bind_Ok_inv in H as (h1 & E1 & H). inversion H; subst.
    exact (swap_keeps _ _ _ _ Hd E1).
Qed.

Lemma push_down_loop_keeps (fuel : nat) (flip : bool) (k : nat) h m i mi h' :
  data_ok h -> OrderMinMaxHeap.push_down_loop fuel flip k h m i mi = Ok h' ->
  keeps h h'.
Proof.
  revert h i mi; induction k as [|k IH]; intros h i mi Hd H;
    cbn [OrderMinMaxHeap.push_down_loop] in H;
    apply bind_Ok_inv in H as (c & Ec & H); destruct c.
  - discriminate.
  - inversion H; subst. apply keeps_refl.
  - apply bind_Ok_inv in H as (r & Er & H).
    pose proof (push_down_body_keeps _ _ _ _ _ _ _ Hd Er) as K1.
    destruct r as [h1|]; [|inversion H; subst; apply keeps_refl].
    apply bind_Ok_inv in H as (mi1 & Em & H).
    exact (keeps_trans _ _ _ K1 (IH _ _ _ (keeps_data_ok _ _ K1 Hd) H)).
  - inversion H; subst. apply keeps_refl.
Qed.

Lemma push_down_keeps (fuel : nat) h m h' :
  data_ok h -> OrderMinMaxHeap.push_down fuel h m = Ok h' -> keeps h h'.
Proof.
  intros Hd H. unfold OrderMinMaxHeap.push_down in H.
  apply bind_Ok_inv in H as (c & Ec & H).
  destruct c; eapply push_down_loop_keeps; [exact Hd|exact H|exact Hd|exact H].
Qed.

Lemma keeps_heap_ok h h' : keeps h h' -> heap_ok h -> heap_ok h'.
Proof.
  intros (A & M & L & D) [(W1 & W2 & W3 & W4) Hd]. split; [|auto].
  unfold heap_wf. rewrite A, M, L. auto.
Qed.

Lemma in_array_inv i :
  OrderMinMaxHeap.in_array i = true -> 0 <= i < MAX_NUM_ORDERS_IN_HEAP.
Proof.
  unfold OrderMinMaxHeap.in_array. intros H.
  apply andb_true_iff in H as [H1 H2].
  apply Z.leb_le in H1. apply Z.ltb_lt in H2. lia.
Qed.

Lemma get_data_inv h i o :
  OrderMinMaxHeap.get_data h i = Ok o -> 0 <= i < MAX_NUM_ORDERS_IN_HEAP.
Proof.
  unfold OrderMinMaxHeap.get_data.
  destruct (OrderMinMaxHeap.in_array i) eqn:E; [|discriminate].
  intros _. now apply in_array_inv.
Qed.

Lemma set_allocated_inv h i (b : bool) h' :
  OrderMinMaxHeap.set_allocated h i b = Ok h' ->
  0 <= i < MAX_NUM_ORDERS_IN_HEAP /\
  h' = {| data := data h; active_ptr := active_ptr h;
          matched_ptr := matched_ptr h; allocated := <[i := b]> (allocated h);
          heap_type := heap_type h |}.
Proof.
  unfold OrderMinMaxHeap.set_allocated.
  destruct (OrderMinMaxHeap.in_array i) eqn:E; [|discriminate].
  intros H; inversion H; subst. split; [now apply in_array_inv|reflexivity].
Qed.

Lemma swap_inv h a b h' :
  OrderMinMaxHeap.swap h a b = Ok h' ->
  0 <= a < MAX_NUM_ORDERS_IN_HEAP /\ 0 <= b < MAX_NUM_ORDERS_IN_HEAP.
Proof.
  unfold OrderMinMaxHeap.swap. intros H.
  apply bind_Ok_inv in H as (oa & Ea & H).
  apply bind_Ok_inv in H as (ob & Eb & H).
  split; [exact (get_data_inv _ _ _ Ea)|exact (get_data_inv _ _ _ Eb)].
Qed.

Lemma make_inactive_ok (fuel : nat) h i h' :
  heap_ok h -> OrderMinMaxHeap.make_inactive fuel h i = Ok h' -> heap_ok h'.
Proof.
  intros [(W1 & W2 & W3 & W4) Hd] H. unfold OrderMinMaxHeap.make_inactive in H.
  apply bind_Ok_inv in H as (h1 & E1 & H).
  destruct (swap_inv _ _ _ _ E1) as [_ Hb].
  destruct (swap_keeps _ _ _ _ Hd E1) as (A1 & M1 & L1 & D1).
  apply bind_Ok_inv in H as (h2 & E2 & H).
  apply set_allocated_inv in E2 as [_ ->].
  refine (keeps_heap_ok _ _ (push_down_keeps _ _ _ _ _ H) _).
  - unfold data_ok. cbn [data OrderMinMaxHeap.set_active_ptr]. exact (D1 Hd).
  - split; [|unfold data_ok; cbn [data OrderMinMaxHeap.set_active_ptr]; exact (D1 Hd)].
    unfold heap_wf.
    cbn [active_ptr matched_ptr allocated OrderMinMaxHeap.set_active_ptr].
    rewrite A1, M1, L1. split; [lia|]. split; [lia|]. split; [lia|].
    intros j Hj. destruct (decide (active_ptr h - 1 = j)) as [<-|Hne].
    + rewrite lookup_insert_eq in Hj. discriminate.
    + rewrite lookup_insert_ne in Hj by exact Hne. specialize (W4 j Hj). lia.
Qed.

Lemma heap_insert_ok (fuel : nat) h o (b : bool) h' :
  admitted o -> heap_ok h ->
  OrderMinMaxHeap.insert fuel h o = Ok (b, h') -> heap_ok h'.
Proof.
  intros Ho [(W1 & W2 & W3 & W4) Hd] H. unfold OrderMinMaxHeap.insert in H.
  apply bind_Ok_inv in H as (h1 & E1 & H).
  destruct (swap_inv _ _ _ _ E1) as [Ha Hm].
  destruct (swap_keeps _ _ _ _ Hd E1) as (A1 & M1 & L1 & D1).
  apply bind_Ok_inv in H as (h2 & E2 & H).
  destruct (set_data_keeps _ _ _ _ Ho E2) as (A2 & M2 & L2 & D2).
  apply bind_Ok_inv in H as (h3 & E3 & H).
  apply set_allocated_inv in E3 as [_ ->].
  apply bind_Ok_inv in H as (h4 & E4 & H).
  inversion H; subst; clear H.
  assert (Hd3 : data_ok {| data := data h2; active_ptr := active_ptr h2;
                           matched_ptr := matched_ptr h2;
                           allocated := <[active_ptr h2 := true]> (allocated h2);
                           heap_type := heap_type h2 |})
    by (unfold data_ok; cbn [data]; exact (D2 (D1 Hd))).
  destruct (push_up_keeps _ _ _ _ Hd3 E4) as (A4 & M4 & L4 & D4).
  cbn [active_ptr matched_ptr allocated] in A4, M4, L4.
  split.
  - unfold heap_wf.
    cbn [active_ptr matched_ptr allocated OrderMinMaxHeap.set_active_ptr
         OrderMinMaxHeap.set_matched_ptr].
    rewrite A4, M4, L4, A2, M2, L2, A1, M1, L1.
    split; [lia|]. split; [lia|]. split; [lia|].
    intros j Hj. destruct (decide (active_ptr h = j)) as [<-|Hne]; [lia|].
    rewrite lookup_insert_ne in Hj by exact Hne. specialize (W4 j Hj). lia.
  - unfold data_ok.
    cbn [data OrderMinMaxHeap.set_active_ptr OrderMinMaxHeap.set_matched_ptr].
    exact (D4 Hd3).
Qed.

Lemma heap_ammend_ok (fuel : nat) h (id : order_id_t) (p : price_t)
    (q : quantity_t) (b : bool) h' :
  heap_ok h -> OrderMinMaxHeap.ammend fuel h id p q = Ok (b, h') -> heap_ok h'.
Proof.
  intros Hok H. pose proof Hok as [Hw Hd]. unfold OrderMinMaxHeap.ammend in H.
  apply bind_Ok_inv in H as (i & Ei & H).
  destruct (negb (i =? -1)); [|inversion H; subst; exact Hok].
  apply bind_Ok_inv in H as (o & Eo & H).
  apply bind_Ok_inv in H as (h1 & E1 & H).
  apply bind_Ok_inv in H as (h2 & E2 & H).
  inversion H; subst; clear H.
  assert (K1 : keeps h h1).
  { eapply set_data_keeps; [|exact E1].
    apply admitted_add. unfold Order.ammend. apply admitted_add.
    exact (get_data_admitted _ _ _ Hd Eo). }
  pose proof (keeps_heap_ok _ _ K1 Hok) as Hok1.
  exact (keeps_heap_ok _ _ (push_down_keeps _ _ _ _ (proj2 Hok1) E2) Hok1).
Qed.

Lemma heap_cancel_ok (fuel : nat) h (id : order_id_t) (s : Z) h' :
  heap_ok h -> OrderMinMaxHeap.cancel fuel h id = Ok (s, h') -> heap_ok h'.
Proof.
  intros Hok H. pose proof Hok as [Hw Hd]. unfold OrderMinMaxHeap.cancel in H.
  apply bind_Ok_inv in H as (i & Ei & H).
  destruct (negb (i =? -1)); [|inversion H; subst; exact Hok].
  apply bind_Ok_inv in H as (o & Eo & H).
  apply bind_Ok_inv in H as (h1 & E1 & H).
  apply bind_Ok_inv in H as (h2 & E2 & H).
  apply bind_Ok_inv in H as (h3 & E3 & H).
  inversion H; subst; clear H.
  assert (K1 : keeps h h1).
  { eapply set_data_keeps; [|exact E1].
    apply admitted_add. exact (get_data_admitted _ _ _ Hd Eo). }
  pose proof (keeps_heap_ok _ _ K1 Hok) as Hok1.
  pose proof (make_inactive_ok _ _ _ _ Hok1 E2) as Hok2.
  exact (keeps_heap_ok _ _ (push_down_keeps _ _ _ _ (proj2 Hok2) E3) Hok2).
Qed.

Lemma heap_transact_ok (fuel : nat) h (id : order_id_t) (d : price_t)
    (t : time_t) (b : bool) h' :
  heap_ok h -> OrderMinMaxHeap.transact fuel h id d t = Ok (b, h') -> heap_ok h'.
Proof.
  intros Hok H. pose proof Hok as [Hw Hd]. unfold OrderMinMaxHeap.transact in H.
  apply bind_Ok_inv in H as (i & Ei & H).
  apply bind_Ok_inv in H as (o & Eo & H).
  apply bind_Ok_inv in H as (z & Ez & H).
  pose proof (get_data_admitted _ _ _ Hd Eo) as Ho.
  destruct (z <=? 0).
  - apply bind_Ok_inv in H as (h1 & E1 & H).
    apply bind_Ok_inv in H as (h2 & E2 & H).
    inversion H; subst; clear H.
    assert (K1 : keeps h h1).
    { eapply set_data_keeps; [|exact E1]. unfold Order.transact.
      apply admitted_add. exact Ho. }
    exact (make_inactive_ok _ _ _ _ (keeps_heap_ok _ _ K1 Hok) E2).
  - apply bind_Ok_inv in H as (h1 & E1 & H).
    assert (K1 : keeps h h1).
    { eapply set_data_keeps; [|exact E1]. unfold Order.transact.
      apply admitted_add. exact Ho. }
    inversion H; subst; clear H.
    exact (keeps_heap_ok _ _ K1 Hok).
Qed.

Lemma new_heap_ok (type : order_heap_type_t) : heap_ok (OrderMinMaxHeap.new type).
Proof.
  split; [apply new_heap_wf|]. intros i o Hi.
  unfold OrderMinMaxHeap.new in Hi. cbn [data] in Hi.
  rewrite lookup_empty in Hi. discriminate.
Qed.

Lemma new_entry_ok (s : string) : entry_ok (OrderEntry.new s).
Proof. split; apply new_heap_ok. Qed.

Lemma entry_add_ok (fuel : nat) (e : OrderEntry) o (s : side_t) (b : bool)
    (e' : OrderEntry) :
  admitted o -> entry_ok e -> OrderEntry.add fuel e o s = Ok (b, e') -> entry_ok e'.
Proof.
  intros Ho [Hb Hs] H. unfold OrderEntry.add in H.
  destruct s; apply bind_Ok_inv in H as ([b1 h1] & E & H);
    inversion H; subst; clear H; split; cbn [buys sells OrderEntry.set_buys
      OrderEntry.set_sells]; try assumption;
    refine (heap_insert_ok _ _ _ _ _ Ho _ E); assumption.
Qed.

Lemma entry_ammend_ok (fuel : nat) (e : OrderEntry) (s : side_t)
    (oid : order_id_t) (p : price_t) (q : quantity_t) (b : bool) (e' : OrderEntry) :
  entry_ok e -> OrderEntry.ammend fuel e s oid p q = Ok (b, e') -> entry_ok e'.
Proof.
  intros [Hb Hs] H. unfold OrderEntry.ammend in H.
  destruct s; apply bind_Ok_inv in H as ([b1 h1] & E & H);
    inversion H; subst; clear H; split; cbn [buys sells OrderEntry.set_buys
      OrderEntry.set_sells]; try assumption;
    refine (heap_ammend_ok _ _ _ _ _ _ _ _ E); assumption.
Qed.

Lemma entry_cancel_ok (fuel : nat) (e : OrderEntry) (oid : order_id_t)
    (s : side_t) (r : Z) (e' : OrderEntry) :
  entry_ok e -> OrderEntry.cancel fuel e oid s = Ok (r, e') -> entry_ok e'.
Proof.
  intros [Hb Hs] H. unfold OrderEntry.cancel in H.
  destruct s; apply bind_Ok_inv in H as ([b1 h1] & E & H);
    inversion H; subst; clear H; split; cbn [buys sells OrderEntry.set_buys
      OrderEntry.set_sells]; try assumption;
    refine (heap_cancel_ok _ _ _ _ _ _ E); assumption.
Qed.

Lemma match_body_ok (fuel : nat) (e : OrderEntry) (t : time_t) (out : line)
    (e' : OrderEntry) :
  entry_ok e -> OrderEntry.match_body fuel e t = Ok (OrderEntry.Continue out e') ->
  entry_ok e'.
Proof.
  intros [Hb Hs] H. unfold OrderEntry.match_body in H.
  apply bind_Ok_inv in H as (bb & Eb & H).
  apply bind_Ok_inv in H as (bs & Es & H).
  destruct bb as [bi|]; [|discriminate]. destruct bs as [si|]; [|discriminate].
  apply bind_Ok_inv in H as (bo & Ebo & H).
  apply bind_Ok_inv in H as (so & Eso & H).
  match type of H with (if ?c then _ else _) = _ => destruct c end;
    [|discriminate].
  apply bind_Ok_inv in H as ([b1 hb] & E1 & H).
  apply bind_Ok_inv in H as ([b2 hs] & E2 & H).
  cbn [sells OrderEntry.set_buys] in E2.
  inversion H; subst; clear H. split;
    cbn [buys sells OrderEntry.set_buys OrderEntry.set_sells].
  - exact (heap_transact_ok _ _ _ _ _ _ _ Hb E1).
  - exact (heap_transact_ok _ _ _ _ _ _ _ Hs E2).
Qed.

Lemma match_loop_ok (fuel k : nat) (e : OrderEntry) (t : time_t)
    (outs : list line) (e' : OrderEntry) :
  entry_ok e -> OrderEntry.match_loop fuel k e t = Ok (outs, e') -> entry_ok e'.
Proof.
  revert e outs; induction k as [|k IH]; intros e outs He H;
    cbn [OrderEntry.match_loop] in H;
    apply bind_Ok_inv in H as (r & Er & H);
    destruct r as [|out e1]; try (inversion H; subst; exact He);
    try discriminate.
  apply bind_Ok_inv in H as ([outs1 e2] & E2 & H). inversion H; subst; clear H.
  exact (IH _ _ (match_body_ok _ _ _ _ _ He Er) E2).
Qed.

Lemma entry_match_ok (fuel : nat) (e : OrderEntry) (t : time_t) (r : Z)
    (outs : list line) (e' : OrderEntry) :
  entry_ok e -> OrderEntry.match_ fuel e t = Ok (r, outs, e') -> entry_ok e'.
Proof.
  intros He H. unfold OrderEntry.match_ in H.
  apply bind_Ok_inv in H as ([outs1 e1] & E & H). inversion H; subst; clear H.
  exact (match_loop_ok _ _ _ _ _ _ He E).
Qed.

Lemma entry_at_ok (ob : OrderBook) (ptr : option (Z * nat)) (e : OrderEntry) :
  book_ok ob -> OrderBook.entry_at ob ptr = Ok e -> entry_ok e.
Proof.
  intros [_ Hb] H. unfold OrderBook.entry_at in H.
  destruct ptr as [[hb p]|]; [|discriminate].
  destruct (OrderBook.bucket ob hb !! p) as [x|] eqn:E; [|discriminate].
  inversion H; subst; clear H. unfold OrderBook.bucket in E.
  destruct (table ob !! hb) as [chain|] eqn:Et; cbn [default] in E.
  - exact (Hb hb chain p e Et E).
  - rewrite lookup_nil in E. discriminate.
Qed.

Lemma store_entry_ok (ob : OrderBook) (ptr : option (Z * nat)) (e : OrderEntry)
    (ob' : OrderBook) :
  book_ok ob -> entry_ok e -> OrderBook.store_entry ob ptr e = Ok ob' ->
  book_ok ob' /\ timestamp ob' = timestamp ob.
Proof.
  intros [Ht Hb] He H. unfold OrderBook.store_entry in H.
  destruct ptr as [[hb p]|]; [|discriminate].
  inversion H; subst; clear H. split; [|reflexivity]. split; [exact Ht|].
  cbn [table OrderBook.set_table]. intros h0 chain0 p0 e0 Hl Hc.
  destruct (decide (hb = h0)) as [->|Hne].
  - rewrite lookup_insert_eq in Hl. inversion Hl; subst; clear Hl.
    apply list_lookup_insert_Some in Hc as [(_ & <- & _)|(_ & Hc)]; [exact He|].
    unfold OrderBook.bucket in Hc.
    destruct (table ob !! h0) as [chain|] eqn:Et; cbn [default] in Hc.
    + exact (Hb h0 chain p0 e0 Et Hc).
    + rewrite lookup_nil in Hc. discriminate.
  - rewrite lookup_insert_ne in Hl by exact Hne. exact (Hb h0 chain0 p0 e0 Hl Hc).
Qed.

Lemma book_insert_ok (ob : OrderBook) (key : symbol_t) :
  book_ok ob ->
  book_ok (OrderBook.insert ob key).2 /\
  timestamp (OrderBook.insert ob key).2 = timestamp ob.
Proof.
  intros [Ht Hb].
  unfold OrderBook.insert, OrderBook.set_cache_list_sorted_symbol_names,
    OrderBook.set_table, book_ok.
  cbn [snd timestamp table].
  split; [|reflexivity]. split; [exact Ht|].
  intros h0 chain0 p0 e0 Hl Hc.
  destruct (decide (OrderBook.hash_str key = h0)) as [<-|Hne].
  - rewrite lookup_insert_eq in Hl. inversion Hl; subst; clear Hl.
    destruct p0 as [|p0]; cbn in Hc; [|discriminate].
    inversion Hc; subst. apply new_entry_ok.
  - rewrite lookup_insert_ne in Hl by exact Hne. exact (Hb h0 chain0 p0 e0 Hl Hc).
Qed.

Lemma set_cache_ok (ob : OrderBook) (c : gmap Z (list hash_order_to_symbol.t)) :
  book_ok ob -> book_ok (OrderBook.set_cache_order_to_symbol ob c).
Proof. intros [Ht Hb]. split; assumption. Qed.

Lemma set_timestamp_ok (ob : OrderBook) (t : time_t) :
  0 <= t -> book_ok ob -> book_ok (OrderBook.set_timestamp ob t).
Proof. intros H0 [Ht Hb]. split; assumption. Qed.

Lemma add_new_order_ok (fuel : nat) (ob : OrderBook) (o : Command.t) (b : bool)
    (ob' : OrderBook) :
  book_ok ob -> OrderBook.add_new_order fuel ob o = Ok (b, ob') -> book_ok ob'.
Proof.
  intros Hok H. pose proof Hok as [Ht _]. unfold OrderBook.add_new_order in H.
  destruct (Z.ltb_spec (Command.timestamp o) (timestamp ob)) as [|Hge];
    [inversion H; subst; exact Hok|].
  set (ob1 := match OrderBook.lookup ob (Command.symbol o) with
              | None => (OrderBook.insert ob (Command.symbol o)).2
              | Some _ => ob
              end).
  assert (Hok1 : book_ok ob1).
  { unfold ob1. destruct (OrderBook.lookup ob (Command.symbol o));
      [exact Hok|apply (book_insert_ok _ _ Hok)]. }
  destruct (OrderBook.lookup ob (Command.symbol o)) as [ptr|] eqn:El;
    cbn beta iota zeta in H;
    apply bind_Ok_inv in H as (e & Ee & H);
    apply bind_Ok_inv in H as ([b1 e1] & Ea & H);
    apply bind_Ok_inv in H as (ob3 & Es & H);
    inversion H; subst; clear H;
    pose proof (entry_at_ok _ _ _ (set_cache_ok _ _ Hok1) Ee) as He;
    assert (Hadm : admitted (Order.new (Command.order_id o) (Command.order_type o)
                     (Command.timestamp o) (Command.price o) (Command.quantity o)))
      by (apply admitted_new; lia);
    pose proof (entry_add_ok _ _ _ _ _ _ Hadm He Ea) as He1;
    destruct (store_entry_ok _ _ _ _ (set_cache_ok _ _ Hok1) He1 Es) as [Hok3 _];
    (apply set_timestamp_ok; [lia|exact Hok3]).
Qed.

Lemma ammend_order_ok (fuel : nat) (ob : OrderBook) (o : Command.t) (r : Z)
    (ob' : OrderBook) :
  book_ok ob -> OrderBook.ammend_order fuel ob o = Ok (r, ob') -> book_ok ob'.
Proof.
  intros Hok H. unfold OrderBook.ammend_order in H.
  destruct (Command.timestamp o <? timestamp ob);
    [inversion H; subst; exact Hok|].
  destruct (OrderBook.lookup ob (Command.symbol o)) as [ptr|];
    [|inversion H; subst; exact Hok].
  apply bind_Ok_inv in H as (e & Ee & H).
  apply bind_Ok_inv in H as ([b1 e1] & Ea & H).
  apply bind_Ok_inv in H as (ob1 & Es & H).
  inversion H; subst; clear H.
  pose proof (entry_ammend_ok _ _ _ _ _ _ _ _ (entry_at_ok _ _ _ Hok Ee) Ea) as He1.
  exact (proj1 (store_entry_ok _ _ _ _ Hok He1 Es)).
Qed.

Lemma cancel_order_ok (fuel : nat) (ob : OrderBook) (o : Command.t) (r : Z)
    (ob' : OrderBook) :
  book_ok ob -> OrderBook.cancel_order fuel ob o = Ok (r, ob') -> book_ok ob'.
Proof.
  intros Hok H. pose proof Hok as [Ht _]. unfold OrderBook.cancel_order in H.
  destruct (Z.ltb_spec (Command.timestamp o) (timestamp ob)) as [|Hge];
    [inversion H; subst; exact Hok|].
  apply bind_Ok_inv in H as (s & Esym & H).
  apply bind_Ok_inv in H as ([st ob1] & E1 & H).
  inversion H; subst; clear H. apply set_timestamp_ok; [lia|].
  destruct (OrderBook.lookup ob s) as [ptr|];
    [|inversion E1; subst; exact Hok].
  apply bind_Ok_inv in E1 as (e & Ee & E1).
  apply bind_Ok_inv in E1 as ([r1 e1] & Ec & E1).
  apply bind_Ok_inv in E1 as (ob2 & Es & E1).
  inversion E1; subst; clear E1.
  pose proof (entry_cancel_ok _ _ _ _ _ _ (entry_at_ok _ _ _ Hok Ee) Ec) as He1.
  exact (proj1 (store_entry_ok _ _ _ _ Hok He1 Es)).
Qed.

Lemma match_chain_ok (fuel k : nat) (ob : OrderBook) (h : Z) (p : nat)
    (t : time_t) (outs : list line) (ob' : OrderBook) :
  book_ok ob -> OrderBook.match_chain fuel k ob h p t = Ok (outs, ob') ->
  book_ok ob' /\ timestamp ob' = timestamp ob.
Proof.
  revert ob p outs; induction k as [|k IH]; intros ob p outs Hok H;
    cbn [OrderBook.match_chain] in H.
  - inversion H; subst. auto.
  - apply bind_Ok_inv in H as (e & Ee & H).
    apply bind_Ok_inv in H as ([[r outs1] e1] & Em & H).
    apply bind_Ok_inv in H as (ob1 & Es & H).
    apply bind_Ok_inv in H as ([outs2 ob2] & Er & H).
    inversion H; subst; clear H.
    pose proof (entry_match_ok _ _ _ _ _ _ (entry_at_ok _ _ _ Hok Ee) Em) as He1.
    destruct (store_entry_ok _ _ _ _ Hok He1 Es) as [Hok1 Ht1].
    destruct (IH _ _ _ Hok1 Er) as [Hok2 Ht2]. split; [exact Hok2|congruence].
Qed.

Lemma match_table_ok (fuel k : nat) (ob : OrderBook) (h : Z) (t : time_t)
    (outs : list line) (ob' : OrderBook) :
  book_ok ob -> OrderBook.match_table fuel k ob h t = Ok (outs, ob') ->
  book_ok ob' /\ timestamp ob' = timestamp ob.
Proof.
  revert ob h outs; induction k as [|k IH]; intros ob h outs Hok H;
    cbn [OrderBook.match_table] in H.
  - inversion H; subst. auto.
  - apply bind_Ok_inv in H as ([outs1 ob1] & E1 & H).
    apply bind_Ok_inv in H as ([outs2 ob2] & E2 & H).
    inversion H; subst; clear H.
    destruct (match_chain_ok _ _ _ _ _ _ _ _ Hok E1) as [Hok1 Ht1].
    destruct (IH _ _ _ Hok1 E2) as [Hok2 Ht2]. split; [exact Hok2|congruence].
Qed.

Lemma book_match_ok (fuel : nat) (ob : OrderBook) (o : Command.t) (r : Z)
    (outs : list line) (ob' : OrderBook) :
  book_ok ob -> OrderBook.match_ fuel ob o = Ok (r, outs, ob') -> book_ok ob'.
Proof.
  intros Hok H. pose proof Hok as [Ht _]. unfold OrderBook.match_ in H.
  destruct (Z.ltb_spec (Command.timestamp o) (timestamp ob)) as [|Hge];
    [inversion H; subst; exact Hok|].
  apply bind_Ok_inv in H as ([outs1 ob1] & E1 & H).
  inversion H; subst; clear H. apply set_timestamp_ok; [lia|].
  destruct (Command.format o);
    [inversion E1; subst; exact Hok | inversion E1; subst; exact Hok | |
    | inversion E1; subst; exact Hok | inversion E1; subst; exact Hok
    | inversion E1; subst; exact Hok | inversion E1; subst; exact Hok
    | inversion E1; subst; exact Hok ].
  - exact (proj1 (match_table_ok _ _ _ _ _ _ _ Hok E1)).
  - apply bind_Ok_inv in E1 as (e & Ee & E1).
    apply bind_Ok_inv in E1 as ([[r1 outs2] e1] & Em & E1).
    apply bind_Ok_inv in E1 as (ob2 & Es & E1).
    inversion E1; subst; clear E1.
    pose proof (entry_match_ok _ _ _ _ _ _ (entry_at_ok _ _ _ Hok Ee) Em) as He1.
    exact (proj1 (store_entry_ok _ _ _ _ Hok He1 Es)).
Qed.

Lemma interpret_order_ok (fuel : nat) (ob : OrderBook) (o : Command.t) (b : bool)
    (outs : list line) (ob' : OrderBook) :
  book_ok ob -> OrderInterpreter.interpret_order fuel ob o = Ok (b, outs, ob') ->
  book_ok ob'.
Proof.
  intros Hok H. unfold OrderInterpreter.interpret_order in H.
  destruct (Command.order_action o).
  - apply bind_Ok_inv in H as ([r ob1] & E & H). inversion H; subst.
    exact (add_new_order_ok _ _ _ _ _ Hok E).
  - apply bind_Ok_inv in H as ([r ob1] & E & H). inversion H; subst.
    exact (ammend_order_ok _ _ _ _ _ Hok E).
  - apply bind_Ok_inv in H as ([r ob1] & E & H). inversion H; subst.
    exact (cancel_order_ok _ _ _ _ _ Hok E).
  - apply bind_Ok_inv in H as ([[r outs1] ob1] & E & H). inversion H; subst.
    exact (book_match_ok _ _ _ _ _ _ Hok E).
  - apply bind_Ok_inv in H as ([[r outs1] ob1] & E & H). inversion H; subst.
    unfold OrderBook.query in E.
    apply bind_Ok_inv in E as (rows & _ & E). inversion E; subst. exact Hok.
Qed.

(* In every order book the interpreter reaches, the clock is not negative,
   every heap has its cursors in order with the allocated slots below
   active_ptr, and every order is an admitted one. *)
Lemma reachable_ok (fuel : nat) (ob : OrderBook) : reachable fuel ob -> book_ok ob.
Proof.
  induction 1 as [|ob o b outs ob' _ IH H].
  - split; [cbn; lia|]. intros h chain p e Hl. cbn in Hl.
    rewrite lookup_empty in Hl. discriminate.
  - exact (interpret_order_ok _ _ _ _ _ _ IH H).
Qed.

End Invariant.

(** ** Cancellation in a reachable order book *)

Lemma lookup_walk_lt (chain : list OrderEntry) (sym : string) (p : nat) :
  chain <> [] ->
  (p <= OrderBook.lookup_walk chain sym p < p + length chain)%nat.
Proof.
  revert p; induction chain as [|e chain IH]; intros p Hne; [contradiction|].
  cbn [OrderBook.lookup_walk length]. destruct chain as [|e2 chain]; [lia|].
  destruct (negb (OrderBook.strcmp (OrderEntry.get_symbol e) sym =? 0)); [|lia].
  specialize (IH (S p) ltac:(discriminate)). cbn [length] in *. lia.
Qed.

(* the pointer lookup returns points to an entry *)
Lemma lookup_entry (ob : OrderBook) (key : symbol_t) (ptr : Z * nat) :
  OrderBook.lookup ob key = Some ptr ->
  exists e, OrderBook.entry_at ob (Some ptr) = Ok e.
Proof.
  unfold OrderBook.lookup, OrderBook.entry_at.
  destruct (OrderBook.bucket ob (OrderBook.hash_str key)) as [|e0 chain] eqn:E;
    [discriminate|].
  intros H.
  assert (Hp : ptr = (OrderBook.hash_str key,
                      OrderBook.lookup_walk (e0 :: chain) key 0)) by congruence.
  rewrite Hp, E. clear H Hp.
  pose proof (lookup_walk_lt (e0 :: chain) key 0 ltac:(discriminate)) as Hlt.
  destruct ((e0 :: chain) !! OrderBook.lookup_walk (e0 :: chain) key 0)
    as [e|] eqn:El; [eauto|].
  apply lookup_ge_None in El. lia.
Qed.

(** C9, as the code has it. In an order book the interpreter has reached, take a cancel command
    that gets as far as the lookup and finds an entry: its timestamp is not
    below the clock, the bucket of its order id in the order-to-symbol
    cache has a first node, and the lookup of the symbol of that node
    returns a pointer. Then OrderEntry::cancel returns ACCEPT, cancel_order
    returns ACCEPT and interpret_order writes CancelAccept. This holds
    also when the side book has no active order with that id: there
    OrderMinMaxHeap::cancel leaves the heap as it is and returns
    ORDER_DOES_NOT_EXIST, and OrderEntry::cancel drops that status. *)
Theorem cancel_accepted_without_active_order (fuel : nat) (ob : OrderBook)
    (o : Command.t) (node : hash_order_to_symbol.t)
    (rest : list hash_order_to_symbol.t) (ptr : Z * nat) :
  (1 <= fuel)%nat ->
  reachable fuel ob ->
  Command.order_action o = CANCEL ->
  timestamp ob <= Command.timestamp o ->
  OrderBook.cache_bucket ob
    (OrderBook.hash (OrderBook.to_unsigned (Command.order_id o))) = node :: rest ->
  OrderBook.lookup ob (hash_order_to_symbol.symbol node) = Some ptr ->
  exists e e' ob',
    OrderBook.entry_at ob (Some ptr) = Ok e
    /\ OrderEntry.cancel fuel e (Command.order_id o) (Command.side o) = Ok (ACCEPT, e')
    /\ OrderBook.cancel_order fuel ob o = Ok (ACCEPT, ob')
    /\ OrderInterpreter.interpret_order fuel ob o =
         Ok (true, [Report (Command.order_id o) "CancelAccept" None], ob')
    /\ (OrderMinMaxHeap.search (side_heap e (Command.side o)) (Command.order_id o)
           = Ok (-1) ->
         OrderMinMaxHeap.cancel fuel (side_heap e (Command.side o))
           (Command.order_id o)
           = Ok (ORDER_DOES_NOT_EXIST, side_heap e (Command.side o))
         /\ e' = e).
Proof.
  intros Hf Hreach Hact Hts Hbucket Hlook.
  destruct (lookup_entry _ _ _ Hlook) as (e & He).
  destruct (entry_at_ok _ _ _ (reachable_ok _ _ Hreach) He) as [[Hwb _] [Hws _]].
  assert (Hwf : heap_wf (side_heap e (Command.side o)))
    by (destruct (Command.side o); assumption).
  destruct (cancel_order_accepts fuel ob o node rest ptr e
              Hf Hact Hts Hbucket Hlook He Hwf) as (e' & ob' & H).
  exists e, e', ob'. split; [exact He|exact H].
Qed.

Lemma cancel_accepted_without_active_order_witness :
  reachable 1 book_at_5
  /\ OrderMinMaxHeap.search (side_heap entry_at_5 (Command.side cancel_65537))
       (Command.order_id cancel_65537) = Ok (-1)
  /\ exists e e' ob',
    OrderBook.entry_at book_at_5 (Some (OrderBook.hash_str "AB", 0%nat)) = Ok e
    /\ OrderEntry.cancel 1 e (Command.order_id cancel_65537)
         (Command.side cancel_65537) = Ok (ACCEPT, e')
    /\ OrderBook.cancel_order 1 book_at_5 cancel_65537 = Ok (ACCEPT, ob')
    /\ OrderInterpreter.interpret_order 1 book_at_5 cancel_65537 =
         Ok (true, [Report (Command.order_id cancel_65537) "CancelAccept" None], ob')
    /\ (OrderMinMaxHeap.search (side_heap e (Command.side cancel_65537))
           (Command.order_id cancel_65537) = Ok (-1) ->
         OrderMinMaxHeap.cancel 1 (side_heap e (Command.side cancel_65537))
           (Command.order_id cancel_65537)
           = Ok (ORDER_DOES_NOT_EXIST, side_heap e (Command.side cancel_65537))
         /\ e' = e).
Proof.
  assert (Hr : reachable 1 book_at_5).
  { apply (reachable_step 1 OrderBook.new (cmd_new 1 5 "AB" LIMIT BUY 1000 1)
             true [Report 1 "Accept" None] book_at_5 (reachable_new 1)).
    vm_compute. reflexivity. }
  split; [exact Hr|]. split; [vm_compute; reflexivity|].
  apply (cancel_accepted_without_active_order 1 book_at_5 cancel_65537
           {| hash_order_to_symbol.oi := 1; hash_order_to_symbol.symbol := "AB" |}
           [] (OrderBook.hash_str "AB", 0%nat)).
  - lia.
  - exact Hr.
  - reflexivity.
  - vm_compute; discriminate.
  - vm_compute; reflexivity.
  - vm_compute; reflexivity.
Defined.

(** C9 as stated, for every cancel whose order id has a node in the
    order-to-symbol cache and whose symbol lookup succeeds, fails for a
    cancel with a timestamp below the clock: with the clock at 5, X,1,3
    names the order of the book, its node is in the cache and the lookup of
    AB returns the entry, yet cancel_order returns 303 before any lookup and
    interpret_order writes nothing. *)
Lemma stale_cancel_is_not_accepted :
  Command.order_action (cmd_cancel 1 3) = CANCEL
  /\ OrderBook.cache_bucket book_at_5
       (OrderBook.hash (OrderBook.to_unsigned (Command.order_id (cmd_cancel 1 3))))
     = [ {| hash_order_to_symbol.oi := 1; hash_order_to_symbol.symbol := "AB" |} ]
  /\ OrderBook.lookup book_at_5 "AB" = Some (OrderBook.hash_str "AB", 0%nat)
  /\ Command.timestamp (cmd_cancel 1 3) < timestamp book_at_5
  /\ OrderBook.cancel_order 1 book_at_5 (cmd_cancel 1 3)
     = Ok (INVALID_ORDER_DETAILS, book_at_5)
  /\ OrderInterpreter.interpret_order 1 book_at_5 (cmd_cancel 1 3)
     = Ok (true, [], book_at_5)
  /\ ~ (exists ob',
          OrderInterpreter.interpret_order 1 book_at_5 (cmd_cancel 1 3)
          = Ok (true, [Report 1 "CancelAccept" None], ob')).
Proof.
  assert (E : OrderInterpreter.interpret_order 1 book_at_5 (cmd_cancel 1 3)
              = Ok (true, [], book_at_5)) by (vm_compute; reflexivity).
  split; [reflexivity|]. split; [vm_compute; reflexivity|].
  split; [vm_compute; reflexivity|]. split; [vm_compute; reflexivity|].
  split; [vm_compute; reflexivity|]. split; [exact E|].
  intros [ob' H]. rewrite E in H. discriminate H.
Qed.

(* the orders the as-of query is asked about: every order in a slot of a
   heap of a reachable order book is an admitted one *)
Lemma reachable_orders_admitted (fuel : nat) (ob : OrderBook) (h : Z)
    (chain : list OrderEntry) (p : nat) (e : OrderEntry) (s : side_t)
    (i : Z) (o : Order) :
  reachable fuel ob ->
  table ob !! h = Some chain -> chain !! p = Some e ->
  OrderMinMaxHeap.get_data (side_heap e s) i = Ok o ->
  admitted o.
Proof.
  intros Hr Ht Hc Ho.
  destruct (reachable_ok _ _ Hr) as [_ Hb].
  destruct (Hb h chain p e Ht Hc) as [[_ Hdb] [_ Hds]].
  destruct s; cbn [side_heap] in Ho.
  - exact (get_data_admitted _ _ _ Hdb Ho).
  - exact (get_data_admitted _ _ _ Hds Ho).
Qed.

(** * Further properties of the code *)

(* the chain and the current record after Order::ammend *)
Lemma ammend_appends_one_record_chain (o : Order) (p : price_t) (q : quantity_t) :
  Order.chain (Order.ammend o p q) =
    Order.chain o ++
      [{| history := history (Order.get_history_entry o (-1));
          date := date (Order.get_history_entry o (-1));
          price := p; quantity_remaining := q |}]
  /\ Order.get_history_entry (Order.ammend o p q) (-1) =
       {| history := history (Order.get_history_entry o (-1));
          date := date (Order.get_history_entry o (-1));
          price := p; quantity_remaining := q |}.
Proof.
  assert (Hc : Order.chain (Order.ammend o p q) =
    Order.chain o ++
      [{| history := history (Order.get_history_entry o (-1));
          date := date (Order.get_history_entry o (-1));
          price := p; quantity_remaining := q |}]).
  { unfold Order.ammend. rewrite chain_add. now rewrite Z.ltb_irrefl. }
  split; [exact Hc|]. rewrite <- last_chain, Hc. apply List.last_last.
Qed.

(** ** Order: the history *)

(** X1. The history of an admitted order is in timestamp order, first
    record to last, and the record in force now (the last one) carries the
    largest timestamp of the history. *)
Theorem history_in_timestamp_order (o : Order) :
  admitted o ->
  StronglySorted date_le (Order.chain o) /\
  forall r, In r (Order.chain o) -> date r <= Order.get_timestamp o (-1).
Proof.
  intros Hadm. pose proof (admitted_strongly_sorted o Hadm) as Hss.
  split; [exact Hss|]. intros r Hin.
  unfold Order.get_timestamp. rewrite <- last_chain.
  pose proof (app_removelast_last (l := Order.chain o) (history_node o)
                ltac:(discriminate)) as E.
  rewrite E in Hin, Hss. apply in_app_or in Hin as [Hin|[<-|[]]]; [|lia].
  apply (StronglySorted_app_1_elem_of _ _ _ _ _ Hss);
    [now apply list_elem_of_In | left].
Qed.

Lemma history_in_timestamp_order_witness :
  admitted filled_once /\
  StronglySorted date_le (Order.chain filled_once) /\
  forall r, In r (Order.chain filled_once) ->
            date r <= Order.get_timestamp filled_once (-1).
Proof.
  assert (Ha : admitted filled_once) by (apply admitted_add, admitted_new; lia).
  split; [exact Ha|]. exact (history_in_timestamp_order filled_once Ha).
Defined.

(** X2. Order::transact with a timestamp below that of the current record
    changes nothing: the fill is dropped without a report. With a timestamp
    at or above it, one record is added, it becomes the current one, and
    the order stays active now exactly when the new quantity is not 0. *)
Theorem transact_stale_or_current (o : Order) (d : time_t) (p : price_t)
    (q : quantity_t) :
  (d < Order.get_timestamp o (-1) -> Order.transact o d p q = o)
  /\ (Order.get_timestamp o (-1) <= d ->
      Order.chain (Order.transact o d p q) = Order.chain o ++ [transact_record d p q]
      /\ Order.get_history_entry (Order.transact o d p q) (-1) = transact_record d p q
      /\ Order.active_at (Order.transact o d p q) (-1) = negb (q =? 0)).
Proof.
  unfold Order.get_timestamp. split.
  - intros Hlt. unfold Order.transact, Order.add_execution_history_entry.
    destruct (Z.ltb_spec d (date (Order.get_history_entry o (-1)))); [reflexivity|lia].
  - intros Hge.
    assert (Hc : Order.chain (Order.transact o d p q) =
                 Order.chain o ++ [transact_record d p q]).
    { unfold Order.transact. rewrite chain_add.
      destruct (Z.ltb_spec d (date (Order.get_history_entry o (-1)))); [lia|].
      reflexivity. }
    assert (Hl : Order.get_history_entry (Order.transact o d p q) (-1) =
                 transact_record d p q).
    { rewrite <- last_chain, Hc. apply List.last_last. }
    split; [exact Hc|]. split; [exact Hl|].
    unfold Order.active_at. rewrite Hl. cbn [orb Z.eqb andb].
    unfold transact_record. cbn [history].
    destruct (q =? 0); reflexivity.
Qed.

Lemma transact_stale_or_current_witness :
  Order.get_timestamp filled_once (-1) = 3
  /\ Order.transact filled_once 2 1000 0 = filled_once
  /\ Order.active_at (Order.transact filled_once 4 1000 0) (-1) = false.
Proof.
  split; [reflexivity|]. split.
  - apply (proj1 (transact_stale_or_current filled_once 2 1000 0)).
    vm_compute. reflexivity.
  - apply (proj2 (proj2 (proj2 (transact_stale_or_current filled_once 4 1000 0)
                                  ltac:(vm_compute; discriminate)))).
Defined.

(** ** OrderMinMaxHeap: search, top, amendment, cancellation, capacity *)

Lemma search_loop_first (k : nat) (h : OrderMinMaxHeap) (d : Z) (id : order_id_t) :
  0 <= d -> d + Z.of_nat k <= MAX_NUM_ORDERS_IN_HEAP ->
  exists i, OrderMinMaxHeap.search_loop k h d id = Ok i /\
    ((i = -1 /\ forall j, d <= j < d + Z.of_nat k -> ~ holds_id h j id)
     \/ (d <= i < d + Z.of_nat k /\ holds_id h i id /\
         forall j, d <= j < i -> ~ holds_id h j id)).
Proof.
  revert d; induction k as [|k IH]; intros d Hd Hk.
  - exists (-1). split; [reflexivity|]. left. split; [reflexivity|]. intros j Hj. lia.
  - cbn [OrderMinMaxHeap.search_loop].
    rewrite (get_allocated_ok h d) by lia. cbn [bind].
    assert (Hstep : ~ holds_id h d id ->
      exists i, OrderMinMaxHeap.search_loop k h (d + 1) id = Ok i /\
        ((i = -1 /\ forall j, d <= j < d + Z.of_nat (S k) -> ~ holds_id h j id)
         \/ (d <= i < d + Z.of_nat (S k) /\ holds_id h i id /\
             forall j, d <= j < i -> ~ holds_id h j id))).
    { intros Hno. destruct (IH (d + 1)) as (i & Hs & Hi); [lia|lia|].
      exists i. split; [exact Hs|].
      destruct Hi as [[-> Hall]|(Hr & Hh & Hb)].
      - left. split; [reflexivity|]. intros j Hj.
        destruct (Z.eq_dec j d) as [->|]; [exact Hno|apply Hall; lia].
      - right. split; [lia|]. split; [exact Hh|]. intros j Hj.
        destruct (Z.eq_dec j d) as [->|]; [exact Hno|apply Hb; lia]. }
    destruct (allocated h !! d) as [[|]|] eqn:Ea; cbn [default bind].
    + rewrite (get_data_ok h d) by lia. cbn [bind].
      destruct (Z.eqb_spec (Order.get_order_id (default Order.new_default (data h !! d))) id)
        as [Heq|Hne].
      * exists d. split; [reflexivity|]. right. split; [lia|].
        split; [split; assumption|]. intros j Hj. lia.
      * apply Hstep. intros [_ Hid]. contradiction.
    + apply Hstep. intros [Hal _]. congruence.
    + apply Hstep. intros [Hal _]. congruence.
Qed.

(** X3. On a heap whose matched_ptr is in the array, search returns the
    first slot below matched_ptr that is marked allocated and holds an
    order with the id, and -1 exactly when there is no such slot: orders
    that were filled or cancelled, whose slots are no longer marked, are
    not found. *)
Theorem search_finds_first_allocated (h : OrderMinMaxHeap) (id : order_id_t) :
  0 <= matched_ptr h <= MAX_NUM_ORDERS_IN_HEAP ->
  exists i, OrderMinMaxHeap.search h id = Ok i /\
    ((i = -1 /\ forall j, 0 <= j < matched_ptr h -> ~ holds_id h j id)
     \/ (0 <= i < matched_ptr h /\ holds_id h i id /\
         forall j, 0 <= j < i -> ~ holds_id h j id)).
Proof.
  intros Hm. unfold OrderMinMaxHeap.search.
  destruct (search_loop_first (Z.to_nat (matched_ptr h)) h 0 id) as (i & Hs & Hi);
    [lia|lia|].
  exists i. split; [exact Hs|].
  rewrite Z2Nat.id in Hi by lia. exact Hi.
Qed.

Lemma search_finds_first_allocated_witness :
  exists i, OrderMinMaxHeap.search (buys two_buys_entry) 2 = Ok i /\
    ((i = -1 /\ forall j, 0 <= j < matched_ptr (buys two_buys_entry) ->
                 ~ holds_id (buys two_buys_entry) j 2)
     \/ (0 <= i < matched_ptr (buys two_buys_entry) /\
         holds_id (buys two_buys_entry) i 2 /\
         forall j, 0 <= j < i -> ~ holds_id (buys two_buys_entry) j 2)).
Proof.
  apply (search_finds_first_allocated (buys two_buys_entry) 2).
  vm_compute. split; discriminate.
Defined.

Lemma get_max_order_cases (h : OrderMinMaxHeap) :
  exists r, OrderMinMaxHeap.get_max_order h = Ok r /\
    (r = None <-> default false (allocated h !! 0) = false) /\
    forall i, r = Some i ->
      0 <= i <= 2 /\ default false (allocated h !! i) = true.
Proof.
  unfold OrderMinMaxHeap.get_max_order, OrderMinMaxHeap.has_precedence_at.
  assert (B1 : 0 <= 1 < MAX_NUM_ORDERS_IN_HEAP) by (unfold MAX_NUM_ORDERS_IN_HEAP; lia).
  assert (B2 : 0 <= 2 < MAX_NUM_ORDERS_IN_HEAP) by (unfold MAX_NUM_ORDERS_IN_HEAP; lia).
  rewrite (get_allocated_ok h 0 zero_in_array), (get_allocated_ok h 1 B1),
    (get_allocated_ok h 2 B2), (get_data_ok h 0 zero_in_array),
    (get_data_ok h 1 B1), (get_data_ok h 2 B2).
  cbn [bind].
  destruct (default false (allocated h !! 0)) eqn:A0; cbn [negb bind].
  2:{ eexists. split; [reflexivity|]. split; [tauto|]. intros i Hi. discriminate. }
  destruct (default false (allocated h !! 1)) eqn:A1; cbn [negb bind].
  2:{ eexists. split; [reflexivity|]. split; [split; discriminate|].
      intros i Hi. inversion Hi; subst. split; [lia|exact A0]. }
  destruct (OrderMinMaxHeap.has_precedence _ _ (-1)) eqn:P01; cbn [bind];
    destruct (default false (allocated h !! 2)) eqn:A2; cbn [negb bind];
    repeat match goal with
           | |- context [OrderMinMaxHeap.has_precedence ?a ?b ?t] =>
               destruct (OrderMinMaxHeap.has_precedence a b t); cbn [bind]
           end;
    (eexists; split; [reflexivity|]; split; [split; discriminate|];
     intros i Hi; inversion Hi; subst; split; [lia|assumption]).
Qed.

(** X4. get_max_order always returns: the null pointer exactly when slot 0
    is not marked allocated, and otherwise one of the slots 0, 1, 2, a slot
    that is marked allocated. No slot beyond the third is ever the top. *)
Theorem get_max_order_among_first_three (h : OrderMinMaxHeap) :
  exists r, OrderMinMaxHeap.get_max_order h = Ok r /\
    (r = None <-> default false (allocated h !! 0) = false) /\
    forall i, r = Some i ->
      0 <= i <= 2 /\ default false (allocated h !! i) = true.
Proof. exact (get_max_order_cases h). Qed.

(** X5. OrderMinMaxHeap::ammend on a heap of the right shape. When search
    finds the id in slot i, the order of that slot gets the amended record
    twice, every other slot, both cursors and the allocation marks stay as
    they are (the push_down from the root that follows moves nothing, so a
    new price never changes the position of the order), and the method,
    declared bool, returns false. When search finds nothing the heap is
    unchanged and the method returns true. *)
Theorem heap_ammend_in_place (fuel : nat) (h : OrderMinMaxHeap)
    (id : order_id_t) (p : price_t) (q : quantity_t) (i : Z) :
  (1 <= fuel)%nat -> heap_wf h -> OrderMinMaxHeap.search h id = Ok i ->
  (i = -1 -> OrderMinMaxHeap.ammend fuel h id p q = Ok (true, h)) /\
  (i <> -1 ->
     let o := default Order.new_default (data h !! i) in
     let r := {| history := Order.get_status o (-1);
                 date := Order.get_timestamp o (-1);
                 price := p; quantity_remaining := q |} in
     OrderMinMaxHeap.ammend fuel h id p q =
       Ok (false,
           {| data := <[i := ammended_twice o p q]> (data h);
              active_ptr := active_ptr h; matched_ptr := matched_ptr h;
              allocated := allocated h; heap_type := heap_type h |}) /\
     Order.chain (ammended_twice o p q) = Order.chain o ++ [r; r]).
Proof.
  intros Hf Hwf Hs. destruct (search_spec h id Hwf) as (i' & Hs' & Hi).
  assert (i' = i) by congruence. subst i'.
  destruct Hwf as (Ha & Ham & Hm & Hal).
  unfold OrderMinMaxHeap.ammend. rewrite Hs.
  cbn [bind]. split.
  - intros ->. reflexivity.
  - intros Hne. destruct Hi as [->|Hi]; [contradiction|].
    destruct (Z.eqb_spec i (-1)) as [|_]; [contradiction|]. cbn [negb].
    rewrite (get_data_ok h i) by lia. cbn [bind].
    set (o := default Order.new_default (data h !! i)).
    fold (ammended_twice o p q).
    rewrite set_data_ok by lia. cbn [bind].
    rewrite (push_down_root fuel _ Hf). cbn [bind].
    split; [reflexivity|].
    pose proof (ammend_appends_one_record_chain o p q) as [Hc1 Hl1].
    unfold ammended_twice. rewrite chain_add.
    unfold Order.get_timestamp. rewrite Z.ltb_irrefl, Hc1, Hl1.
    cbn [history date]. unfold Order.get_status, Order.get_timestamp.
    now rewrite <- app_assoc.
Qed.

Lemma heap_ammend_in_place_witness :
  (0 = -1 -> OrderMinMaxHeap.ammend 1 (buys crossing_entry) 1 7 3 = Ok (true, (buys crossing_entry))) /\
  (0 <> -1 ->
     let o := default Order.new_default (data (buys crossing_entry) !! 0) in
     let r := {| history := Order.get_status o (-1);
                 date := Order.get_timestamp o (-1);
                 price := 7; quantity_remaining := 3 |} in
     OrderMinMaxHeap.ammend 1 (buys crossing_entry) 1 7 3 =
       Ok (false,
           {| data := <[0 := ammended_twice o 7 3]> (data (buys crossing_entry));
              active_ptr := active_ptr (buys crossing_entry); matched_ptr := matched_ptr (buys crossing_entry);
              allocated := allocated (buys crossing_entry); heap_type := heap_type (buys crossing_entry) |}) /\
     Order.chain (ammended_twice o 7 3) = Order.chain o ++ [r; r]).
Proof.
  apply (heap_ammend_in_place 1 (buys crossing_entry) 1 7 3 0).
  - lia.
  - exact (single_wf BUY_HEAP (Order.new 1 LIMIT 1 1000 100)).
  - exact (single_search BUY_HEAP (Order.new 1 LIMIT 1 1000 100)).
Defined.

(** C6, on the code. The amendment of an order of the book goes through
    OrderMinMaxHeap::ammend, which calls Order::ammend and then
    add_execution_history_entry once more with the same values: the history
    of the order grows by two records, not one. For every order, alone in
    a heap of either side, and every new price and quantity, the heap
    after ammend holds the order with both records; the two records are
    equal and carry the status and the timestamp that were current; the
    order id and the first record, with the arrival time, are unchanged.
    After N,1,1,AB,L,B,10.00,5 and A,1,2,AB,L,B,11.00,5 the order has three
    records. *)
Theorem amend_appends_the_record_twice :
  (forall (type : order_heap_type_t) (o : Order) (p : price_t) (q : quantity_t),
     let r := {| history := Order.get_status o (-1);
                 date := Order.get_timestamp o (-1);
                 price := p; quantity_remaining := q |} in
     OrderMinMaxHeap.ammend 1 (single type o) (Order.get_order_id o) p q
       = Ok (false, single type (ammended_twice o p q))
     /\ Order.chain (Order.ammend o p q) = Order.chain o ++ [r]
     /\ Order.chain (ammended_twice o p q) = Order.chain o ++ [r; r]
     /\ Order.chain (ammended_twice o p q) <> Order.chain o ++ [r]
     /\ Order.get_order_id (ammended_twice o p q) = Order.get_order_id o
     /\ history_node (ammended_twice o p q) = history_node o)
  /\ (let* e := entry_after 1 new_then_amend "AB" in
      let* o := slot (buys e) 0 in
      Ok (Order.chain o)) =
     Ok [ {| history := NOT_EXECUTED; date := 1; price := 1000;
             quantity_remaining := 5 |};
          {| history := NOT_EXECUTED; date := 1; price := 1100;
             quantity_remaining := 5 |};
          {| history := NOT_EXECUTED; date := 1; price := 1100;
             quantity_remaining := 5 |} ].
Proof.
  split; [|vm_compute; reflexivity].
  intros type o p q r.
  pose proof (ammend_appends_one_record_chain o p q) as [Hc1 Hl1].
  assert (Hc2 : Order.chain (ammended_twice o p q) = Order.chain o ++ [r; r]).
  { unfold ammended_twice. rewrite chain_add.
    unfold Order.get_timestamp. rewrite Z.ltb_irrefl, Hc1, Hl1.
    cbn [history date]. now rewrite <- app_assoc. }
  split.
  - unfold OrderMinMaxHeap.ammend. rewrite single_search. cbn [bind].
    change (negb (0 =? -1)) with true. cbn iota.
    rewrite single_slot. cbn [bind]. fold (ammended_twice o p q).
    rewrite set_data_ok by (unfold MAX_NUM_ORDERS_IN_HEAP; lia).
    cbn [bind]. rewrite (push_down_root 1 _ (le_n 1)). cbn [bind].
    unfold single. cbn [data active_ptr matched_ptr allocated heap_type].
    now rewrite insert_singleton_eq.
  - split; [exact Hc1|]. split; [exact Hc2|]. split.
    + rewrite Hc2. intros H. apply app_inv_head in H. discriminate H.
    + split;
        unfold ammended_twice, Order.ammend, Order.add_execution_history_entry,
          Order.get_order_id;
        repeat match goal with
               | |- context [if ?c then _ else _] => destruct c
               end; reflexivity.
Qed.

(** X6. OrderMinMaxHeap::cancel on a heap of the right shape, when search
    finds the id in slot i: the status is ACCEPT, the order gets a CANCELLED
    record with its current timestamp, price and quantity and is no longer
    active, it is swapped with the last active slot, which is then unmarked,
    active_ptr goes down by one and matched_ptr stays; no other slot
    changes. *)
Theorem heap_cancel_retires_the_order (fuel : nat) (h : OrderMinMaxHeap)
    (id : order_id_t) (i : Z) :
  (1 <= fuel)%nat -> heap_wf h ->
  OrderMinMaxHeap.search h id = Ok i -> i <> -1 ->
  exists h',
    OrderMinMaxHeap.cancel fuel h id = Ok (ACCEPT, h') /\
    active_ptr h' = active_ptr h - 1 /\
    matched_ptr h' = matched_ptr h /\
    allocated h' = <[active_ptr h - 1 := false]> (allocated h) /\
    data h' !! (active_ptr h - 1) =
      Some (cancelled (default Order.new_default (data h !! i))) /\
    (i <> active_ptr h - 1 ->
       data h' !! i =
         Some (default Order.new_default (data h !! (active_ptr h - 1)))) /\
    (forall j, j <> i -> j <> active_ptr h - 1 -> data h' !! j = data h !! j) /\
    Order.active_at (cancelled (default Order.new_default (data h !! i))) (-1)
      = false.
Proof.
  intros Hf Hwf Hs Hne. destruct (search_spec h id Hwf) as (i' & Hs' & Hi).
  assert (i' = i) by congruence. subst i'.
  destruct Hwf as (Ha & Ham & Hm & Hal).
  destruct Hi as [->|Hi]; [contradiction|].
  unfold OrderMinMaxHeap.cancel. rewrite Hs. cbn [bind].
  destruct (Z.eqb_spec i (-1)) as [|_]; [contradiction|]. cbn [negb].
  rewrite (get_data_ok h i) by lia. cbn [bind].
  set (o := default Order.new_default (data h !! i)).
  fold (cancelled o).
  rewrite set_data_ok by lia. cbn [bind].
  unfold OrderMinMaxHeap.make_inactive, OrderMinMaxHeap.swap.
  cbn [active_ptr].
  rewrite !get_data_ok by (cbn [active_ptr]; lia). cbn [bind data].
  rewrite set_data_ok by lia. cbn [bind].
  rewrite set_data_ok by (cbn [active_ptr]; lia). cbn [bind active_ptr].
  rewrite set_allocated_ok by (cbn [active_ptr]; lia). cbn [bind].
  rewrite (push_down_root fuel _ Hf). cbn [bind].
  rewrite (push_down_root fuel _ Hf). cbn [bind].
  eexists. split; [reflexivity|].
  cbn [active_ptr matched_ptr allocated data OrderMinMaxHeap.set_active_ptr].
  split; [reflexivity|]. split; [reflexivity|]. split; [reflexivity|].
  rewrite lookup_insert_eq. cbn [default].
  split; [|split; [|split]].
  - rewrite lookup_insert_eq. reflexivity.
  - intros Hil. rewrite lookup_insert_ne by lia. rewrite lookup_insert_eq.
    rewrite lookup_insert_ne by lia. reflexivity.
  - intros j Hji Hjl. rewrite !lookup_insert_ne by lia. reflexivity.
  - unfold Order.active_at.
    assert (Hc : Order.get_history_entry (cancelled o) (-1) =
      {| history := CANCELLED; date := Order.get_timestamp o (-1);
         price := Order.get_price o (-1);
         quantity_remaining := Order.get_quantity o (-1) |}).
    { rewrite <- last_chain. unfold cancelled. rewrite chain_add.
      unfold Order.get_timestamp. rewrite Z.ltb_irrefl. apply List.last_last. }
    rewrite Hc. cbn [history].
    rewrite (bool_decide_eq_true_2 (CANCELLED = CANCELLED)) by reflexivity.
    now rewrite andb_false_r.
Qed.

Lemma heap_cancel_retires_the_order_witness :
  exists h',
    OrderMinMaxHeap.cancel 1 (buys two_buys_entry) 1 = Ok (ACCEPT, h') /\
    active_ptr h' = active_ptr (buys two_buys_entry) - 1 /\
    matched_ptr h' = matched_ptr (buys two_buys_entry) /\
    allocated h' =
      <[active_ptr (buys two_buys_entry) - 1 := false]>
        (allocated (buys two_buys_entry)) /\
    data h' !! (active_ptr (buys two_buys_entry) - 1) =
      Some (cancelled
              (default Order.new_default (data (buys two_buys_entry) !! 0))) /\
    (0 <> active_ptr (buys two_buys_entry) - 1 ->
       data h' !! 0 =
         Some (default Order.new_default
                 (data (buys two_buys_entry)
                    !! (active_ptr (buys two_buys_entry) - 1)))) /\
    (forall j, j <> 0 -> j <> active_ptr (buys two_buys_entry) - 1 ->
               data h' !! j = data (buys two_buys_entry) !! j) /\
    Order.active_at
      (cancelled (default Order.new_default (data (buys two_buys_entry) !! 0)))
      (-1) = false.
Proof.
  apply (heap_cancel_retires_the_order 1 (buys two_buys_entry) 1 0).
  - lia.
  - unfold heap_wf, MAX_NUM_ORDERS_IN_HEAP. cbn.
    split; [lia|]. split; [lia|]. split; [lia|].
    intros i Hi. destruct (decide (i = 1)) as [->|N1]; [lia|].
    rewrite lookup_insert_ne in Hi by congruence.
    apply lookup_singleton_Some in Hi. lia.
  - vm_compute. reflexivity.
  - lia.
Defined.

Lemma shl_small (a k : Z) :
  0 <= k -> 0 <= a -> a * 2 ^ k < 2147483648 -> shl a k = a * 2 ^ k.
Proof.
  intros Hk Ha Hb. unfold shl, wrap_int. rewrite Z.shiftl_mul_pow2 by exact Hk.
  rewrite Z.mod_small; [lia|]. split; [|lia].
  assert (0 <= a * 2 ^ k) by (apply Z.mul_nonneg_nonneg; [lia|apply Z.pow_nonneg; lia]).
  lia.
Qed.

Lemma in_array_false (i : Z) :
  MAX_NUM_ORDERS_IN_HEAP <= i -> OrderMinMaxHeap.in_array i = false.
Proof.
  intros H. unfold OrderMinMaxHeap.in_array.
  apply andb_false_iff. right. now apply Z.ltb_ge.
Qed.

(** X7. The capacity of a heap of the right shape is a quarter of its
    array: once 16384 orders are active, insert reads the allocation mark
    of slot 2 * active_ptr or 4 * active_ptr in has_children (or the slot
    at matched_ptr in swap), which is outside the array of 65536 slots, and
    no order is added. *)
Theorem heap_insert_beyond_a_quarter (fuel : nat) (h : OrderMinMaxHeap)
    (datum : Order) :
  heap_wf h -> 16384 <= active_ptr h ->
  OrderMinMaxHeap.insert fuel h datum = Undefined OutOfBounds.
Proof.
  intros (Ha & Ham & Hm & Hal) Hq. unfold MAX_NUM_ORDERS_IN_HEAP in Hm.
  unfold OrderMinMaxHeap.insert, OrderMinMaxHeap.swap.
  destruct (Z.eq_dec (active_ptr h) 65536) as [Ea|Na].
  { unfold OrderMinMaxHeap.get_data at 1.
    rewrite in_array_false by (unfold MAX_NUM_ORDERS_IN_HEAP; lia). reflexivity. }
  rewrite (get_data_ok h (active_ptr h)) by (unfold MAX_NUM_ORDERS_IN_HEAP; lia).
  cbn [bind].
  destruct (Z.eq_dec (matched_ptr h) 65536) as [Em|Nm].
  { unfold OrderMinMaxHeap.get_data.
    rewrite in_array_false by (unfold MAX_NUM_ORDERS_IN_HEAP; lia). reflexivity. }
  rewrite (get_data_ok h (matched_ptr h)) by (unfold MAX_NUM_ORDERS_IN_HEAP; lia).
  cbn [bind].
  rewrite set_data_ok by (unfold MAX_NUM_ORDERS_IN_HEAP; lia). cbn [bind].
  rewrite set_data_ok by (unfold MAX_NUM_ORDERS_IN_HEAP; lia).
  cbn [bind active_ptr].
  rewrite set_data_ok by (unfold MAX_NUM_ORDERS_IN_HEAP; lia).
  cbn [bind active_ptr].
  rewrite set_allocated_ok by (unfold MAX_NUM_ORDERS_IN_HEAP; lia).
  cbn [bind active_ptr].
  unfold OrderMinMaxHeap.push_up.
  destruct (Z.eqb_spec (active_ptr h) 0) as [E0|_]; [lia|].
  unfold OrderMinMaxHeap.has_children.
  rewrite (shl_small (active_ptr h) 1) by lia.
  rewrite (shl_small (active_ptr h) (1 + 1)) by lia.
  change (2 ^ 1) with 2. change (2 ^ (1 + 1)) with 4.
  destruct (Z_lt_le_dec (active_ptr h * 2) 65536) as [L2|G2].
  - rewrite (get_allocated_ok _ (active_ptr h * 2))
      by (unfold MAX_NUM_ORDERS_IN_HEAP; lia).
    cbn [bind allocated]. rewrite lookup_insert_ne by lia.
    destruct (allocated h !! (active_ptr h * 2)) as [[|]|] eqn:E2.
    + apply Hal in E2. lia.
    + cbn [default bind]. unfold OrderMinMaxHeap.get_allocated.
      rewrite in_array_false by (unfold MAX_NUM_ORDERS_IN_HEAP; lia). reflexivity.
    + cbn [default bind]. unfold OrderMinMaxHeap.get_allocated.
      rewrite in_array_false by (unfold MAX_NUM_ORDERS_IN_HEAP; lia). reflexivity.
  - unfold OrderMinMaxHeap.get_allocated at 1.
    rewrite in_array_false by (unfold MAX_NUM_ORDERS_IN_HEAP; lia). reflexivity.
Qed.

Lemma heap_insert_beyond_a_quarter_witness :
  OrderMinMaxHeap.insert 1 quarter_full (Order.new 1 LIMIT 1 1000 5)
    = Undefined OutOfBounds.
Proof.
  apply (heap_insert_beyond_a_quarter 1 quarter_full (Order.new 1 LIMIT 1 1000 5)).
  - unfold heap_wf, quarter_full, MAX_NUM_ORDERS_IN_HEAP.
    cbn [active_ptr matched_ptr allocated].
    split; [lia|]. split; [lia|]. split; [lia|].
    intros i Hi. rewrite lookup_empty in Hi. discriminate.
  - unfold quarter_full. cbn [active_ptr]. lia.
Defined.

(** X8. OrderMinMaxHeap::insert on a heap of the right shape with fewer
    than 16384 active orders and matched_ptr inside the array: when the
    price of the new order is not below the prices found in the slots
    2 * active_ptr and 4 * active_ptr (the slots push_up compares it with,
    which are never slots of active orders), nothing is moved: the order
    stays in slot active_ptr, in arrival order, and both cursors go up by
    one. *)
Theorem heap_insert_in_arrival_order (fuel : nat) (h : OrderMinMaxHeap)
    (datum : Order) :
  heap_wf h -> matched_ptr h < MAX_NUM_ORDERS_IN_HEAP -> active_ptr h < 16384 ->
  price_at (placed h datum) (2 * active_ptr h) <= Order.get_price datum (-1) ->
  price_at (placed h datum) (4 * active_ptr h) <= Order.get_price datum (-1) ->
  OrderMinMaxHeap.insert fuel h datum =
    Ok (true,
        OrderMinMaxHeap.set_matched_ptr
          (OrderMinMaxHeap.set_active_ptr (placed h datum) (active_ptr h + 1))
          (matched_ptr h + 1)).
Proof.
  intros (Ha & Ham & Hm & Hal) Hm' Hq H2 H4.
  unfold MAX_NUM_ORDERS_IN_HEAP in Hm, Hm'.
  unfold OrderMinMaxHeap.insert, OrderMinMaxHeap.swap.
  rewrite (get_data_ok h (active_ptr h)) by (unfold MAX_NUM_ORDERS_IN_HEAP; lia).
  rewrite (get_data_ok h (matched_ptr h)) by (unfold MAX_NUM_ORDERS_IN_HEAP; lia).
  cbn [bind].
  rewrite set_data_ok by (unfold MAX_NUM_ORDERS_IN_HEAP; lia). cbn [bind].
  rewrite set_data_ok by (unfold MAX_NUM_ORDERS_IN_HEAP; lia).
  cbn [bind active_ptr].
  rewrite set_data_ok by (unfold MAX_NUM_ORDERS_IN_HEAP; lia).
  cbn [bind active_ptr].
  rewrite set_allocated_ok by (unfold MAX_NUM_ORDERS_IN_HEAP; lia).
  cbn [bind active_ptr data matched_ptr allocated heap_type].
  fold (placed h datum).
  assert (Hup : OrderMinMaxHeap.push_up fuel (placed h datum) (active_ptr h)
                = Ok (placed h datum)).
  { unfold OrderMinMaxHeap.push_up.
    destruct (Z.eqb_spec (active_ptr h) 0) as [E0|N0]; [reflexivity|].
    assert (S1 : shl (active_ptr h) 1 = 2 * active_ptr h)
      by (rewrite shl_small by lia; lia).
    assert (S2 : shl (active_ptr h) 2 = 4 * active_ptr h)
      by (rewrite shl_small by lia; lia).
    assert (A2 : default false (allocated (placed h datum) !! (2 * active_ptr h))
                 = false).
    { unfold placed. cbn [allocated]. rewrite lookup_insert_ne by lia.
      destruct (allocated h !! (2 * active_ptr h)) as [[|]|] eqn:E;
        [apply Hal in E; lia|reflexivity|reflexivity]. }
    assert (A4 : default false (allocated (placed h datum) !! (4 * active_ptr h))
                 = false).
    { unfold placed. cbn [allocated]. rewrite lookup_insert_ne by lia.
      destruct (allocated h !! (4 * active_ptr h)) as [[|]|] eqn:E;
        [apply Hal in E; lia|reflexivity|reflexivity]. }
    assert (D0 : default Order.new_default
                   (data (placed h datum) !! active_ptr h) = datum).
    { unfold placed. cbn [data]. now rewrite lookup_insert_eq. }
    unfold OrderMinMaxHeap.has_children. change (1 + 1) with 2.
    rewrite S1, S2.
    rewrite (get_allocated_ok _ (2 * active_ptr h))
      by (unfold MAX_NUM_ORDERS_IN_HEAP; lia).
    rewrite A2. cbn [bind].
    rewrite (get_allocated_ok _ (4 * active_ptr h))
      by (unfold MAX_NUM_ORDERS_IN_HEAP; lia).
    rewrite A4. cbn [bind negb].
    unfold OrderMinMaxHeap.get_parent, OrderMinMaxHeap.has_precedence_at.
    rewrite S1.
    rewrite (get_data_ok _ (active_ptr h)) by (unfold MAX_NUM_ORDERS_IN_HEAP; lia).
    rewrite (get_data_ok _ (2 * active_ptr h))
      by (unfold MAX_NUM_ORDERS_IN_HEAP; lia).
    cbn [bind]. rewrite D0.
    unfold OrderMinMaxHeap.has_precedence at 1.
    fold (price_at (placed h datum) (2 * active_ptr h)).
    destruct (Z.ltb_spec (Order.get_price datum (-1))
                (price_at (placed h datum) (2 * active_ptr h))) as [L|_]; [lia|].
    unfold OrderMinMaxHeap.push_up_min.
    assert (Hloop : forall k,
      OrderMinMaxHeap.push_up_loop false k (placed h datum) (active_ptr h)
      = Ok (placed h datum)).
    { intros k.
      assert (Hc : (if shl (active_ptr h) 2 >=? 0
                    then let* p := OrderMinMaxHeap.has_precedence_at
                                     (placed h datum) (active_ptr h)
                                     (shl (active_ptr h) 2) (-1) in
                         Ok (xorb false p)
                    else Ok false) = Ok false).
      { rewrite S2. destruct (Z.geb_spec (4 * active_ptr h) 0) as [_|L]; [|lia].
        unfold OrderMinMaxHeap.has_precedence_at.
        rewrite (get_data_ok _ (active_ptr h))
          by (unfold MAX_NUM_ORDERS_IN_HEAP; lia).
        rewrite (get_data_ok _ (4 * active_ptr h))
          by (unfold MAX_NUM_ORDERS_IN_HEAP; lia).
        cbn [bind]. rewrite D0. unfold OrderMinMaxHeap.has_precedence.
        fold (price_at (placed h datum) (4 * active_ptr h)).
        destruct (Z.ltb_spec (Order.get_price datum (-1))
                    (price_at (placed h datum) (4 * active_ptr h))) as [L|_];
          [lia|reflexivity]. }
      destruct k; cbn [OrderMinMaxHeap.push_up_loop]; rewrite Hc; reflexivity. }
    apply Hloop. }
  rewrite Hup. reflexivity.
Qed.

Lemma heap_insert_in_arrival_order_witness :
  OrderMinMaxHeap.insert 1 (buys crossing_entry) (Order.new 3 LIMIT 3 900 7) =
    Ok (true,
        OrderMinMaxHeap.set_matched_ptr
          (OrderMinMaxHeap.set_active_ptr
             (placed (buys crossing_entry) (Order.new 3 LIMIT 3 900 7))
             (active_ptr (buys crossing_entry) + 1))
          (matched_ptr (buys crossing_entry) + 1)).
Proof.
  apply (heap_insert_in_arrival_order 1 (buys crossing_entry)
           (Order.new 3 LIMIT 3 900 7)).
  - exact (single_wf BUY_HEAP (Order.new 1 LIMIT 1 1000 100)).
  - vm_compute. reflexivity.
  - vm_compute. reflexivity.
  - vm_compute. discriminate.
  - vm_compute. discriminate.
Defined.

(** ** OrderEntry: match *)

Lemma heap_transact_returns (fuel : nat) (h : OrderMinMaxHeap)
    (id : order_id_t) (deduction : price_t) (t : time_t) (i : Z) :
  (1 <= fuel)%nat -> heap_wf h ->
  OrderMinMaxHeap.search h id = Ok i -> i <> -1 ->
  (exists h', OrderMinMaxHeap.transact fuel h id deduction t = Ok (true, h'))
  \/ OrderMinMaxHeap.transact fuel h id deduction t = Undefined IntConversion.
Proof.
  intros Hf Hwf Hs Hne. destruct (search_spec h id Hwf) as (i' & Hs' & Hi).
  assert (i' = i) by congruence. subst i'.
  destruct Hwf as (Ha & Ham & Hm & Hal).
  destruct Hi as [->|Hi]; [contradiction|].
  unfold OrderMinMaxHeap.transact. rewrite Hs. cbn [bind].
  rewrite (get_data_ok h i) by lia. cbn [bind].
  set (o := default Order.new_default (data h !! i)).
  unfold int_of_float.
  destruct ((INT_MIN <=? _) && (_ <=? INT_MAX)); cbn [bind]; [|now right].
  left. destruct (_ <=? 0).
  - rewrite set_data_ok by lia. cbn [bind].
    unfold OrderMinMaxHeap.make_inactive, OrderMinMaxHeap.swap.
    cbn [active_ptr].
    rewrite !get_data_ok by (cbn [active_ptr]; lia). cbn [bind data].
    rewrite set_data_ok by lia. cbn [bind].
    rewrite set_data_ok by (cbn [active_ptr]; lia). cbn [bind active_ptr].
    rewrite set_allocated_ok by (cbn [active_ptr]; lia). cbn [bind].
    rewrite (push_down_root fuel _ Hf). cbn [bind].
    eexists. reflexivity.
  - rewrite set_data_ok by lia. cbn [bind]. eexists. reflexivity.
Qed.

(** X9. match on an entry whose sell side never received an order
    (matched_ptr is at the start of the array) and whose buy side has a top
    order: get_min_order hands back slot 0 of the empty side all the same;
    when neither order is EXECUTED and the buy price is not below the price
    in that slot, the trade is taken, and the transact on the sell side,
    whose search finds nothing, reads data[-1]. The call has no defined
    result (out of bounds, or the int conversion of the buy side's transact
    before it). *)
Theorem match_without_sell_orders (fuel : nat) (e : OrderEntry) (t : time_t)
    (bi : Z) :
  (1 <= fuel)%nat -> heap_wf (buys e) -> matched_ptr (sells e) = 0 ->
  OrderMinMaxHeap.get_max_order (buys e) = Ok (Some bi) ->
  Order.get_status (default Order.new_default (data (buys e) !! bi)) (-1)
    <> EXECUTED ->
  Order.get_status (default Order.new_default (data (sells e) !! 0)) (-1)
    <> EXECUTED ->
  price_at (sells e) 0 <= price_at (buys e) bi ->
  OrderEntry.match_ fuel e t = Undefined OutOfBounds
  \/ OrderEntry.match_ fuel e t = Undefined IntConversion.
Proof.
  intros Hf Hwf Hm0 Hmax Hb Hs Hp.
  destruct (get_max_order_cases (buys e)) as (r & Hr & _ & Hri).
  rewrite Hmax in Hr. inversion Hr; subst r. clear Hr.
  destruct (Hri bi eq_refl) as [Hbi Hal].
  assert (Hal' : allocated (buys e) !! bi = Some true).
  { destruct (allocated (buys e) !! bi) as [[|]|]; [reflexivity|discriminate|discriminate]. }
  pose proof Hwf as (Ha & Ham & Hm & Hall).
  pose proof (Hall bi Hal') as Hlt.
  set (bo := default Order.new_default (data (buys e) !! bi)) in *.
  set (so := default Order.new_default (data (sells e) !! 0)) in *.
  assert (Hsearch : exists i, OrderMinMaxHeap.search (buys e) (Order.get_order_id bo)
                              = Ok i /\ i <> -1).
  { unfold OrderMinMaxHeap.search.
    destruct (search_loop_first (Z.to_nat (matched_ptr (buys e))) (buys e) 0
                (Order.get_order_id bo)) as (i & Hi & Hc); [lia|lia|].
    exists i. split; [exact Hi|].
    destruct Hc as [[_ Hno]|[Hr _]]; [|lia].
    exfalso. apply (Hno bi); [lia|]. split; [exact Hal'|reflexivity]. }
  destruct Hsearch as (i & Hi & Hne).
  assert (Hbody : OrderEntry.match_body fuel e t = Undefined OutOfBounds
                  \/ OrderEntry.match_body fuel e t = Undefined IntConversion).
  { unfold OrderEntry.match_body. rewrite Hmax. cbn [bind].
    unfold OrderMinMaxHeap.get_min_order. cbn [bind].
    rewrite (get_data_ok (buys e) bi) by (unfold MAX_NUM_ORDERS_IN_HEAP; lia).
    rewrite (get_data_ok (sells e) 0 zero_in_array). cbn [bind].
    fold bo so.
    rewrite (bool_decide_eq_false_2 _ Hb), (bool_decide_eq_false_2 _ Hs).
    cbn [negb andb].
    unfold price_at in Hp. fold bo so in Hp.
    destruct (Z.geb_spec (Order.get_price bo (-1)) (Order.get_price so (-1)))
      as [_|L]; [|lia].
    destruct (heap_transact_returns fuel (buys e) (Order.get_order_id bo)
                (Order.get_price bo (-1)) t i Hf Hwf Hi Hne) as [[hb Eb]|Eb];
      rewrite Eb; cbn [bind]; [|now right].
    left. unfold OrderMinMaxHeap.transact, OrderMinMaxHeap.search.
    cbn [OrderEntry.set_buys sells]. rewrite Hm0.
    change (Z.to_nat 0) with 0%nat. cbn [OrderMinMaxHeap.search_loop bind].
    unfold OrderMinMaxHeap.get_data.
    change (OrderMinMaxHeap.in_array (-1)) with false. reflexivity. }
  unfold OrderEntry.match_.
  destruct fuel as [|k]; [lia|]. cbn [OrderEntry.match_loop].
  destruct Hbody as [-> | ->]; cbn [bind]; [now left|now right].
Qed.

Lemma match_without_sell_orders_witness :
  OrderEntry.match_ 1 one_buy_entry 2 = Undefined OutOfBounds
  \/ OrderEntry.match_ 1 one_buy_entry 2 = Undefined IntConversion.
Proof.
  apply (match_without_sell_orders 1 one_buy_entry 2 0).
  - lia.
  - exact (single_wf BUY_HEAP (Order.new 1 LIMIT 1 1000 100)).
  - reflexivity.
  - exact (single_get_max_order BUY_HEAP (Order.new 1 LIMIT 1 1000 100)).
  - vm_compute. discriminate.
  - vm_compute. discriminate.
  - vm_compute. discriminate.
Defined.

Lemma match_body_break_any (fuel : nat) (e : OrderEntry) (t : time_t) :
  OrderEntry.match_body fuel e t = Ok OrderEntry.Break ->
  forall (fuel' : nat) (t' : time_t),
    OrderEntry.match_body fuel' e t' = Ok OrderEntry.Break.
Proof.
  intros H fuel' t'. revert H. unfold OrderEntry.match_body.
  destruct (OrderMinMaxHeap.get_max_order (buys e)) as [[bi|]| |];
    cbn [bind]; try discriminate; [|reflexivity].
  unfold OrderMinMaxHeap.get_min_order. cbn [bind].
  destruct (OrderMinMaxHeap.get_data (buys e) bi) as [bo| |];
    cbn [bind]; try discriminate.
  destruct (OrderMinMaxHeap.get_data (sells e) 0) as [so| |];
    cbn [bind]; try discriminate.
  destruct (_ && _ && _); [|reflexivity].
  intros H. exfalso. revert H.
  destruct (OrderMinMaxHeap.transact fuel (buys e) _ _ t) as [[? hb]| |];
    cbn [bind]; try discriminate.
  destruct (OrderMinMaxHeap.transact fuel _ _ _ t) as [[? hs]| |];
    cbn [bind]; discriminate.
Qed.

Lemma match_loop_ends_on_break (fuel : nat) (k : nat) (e : OrderEntry)
    (t : time_t) (outs : list line) (e' : OrderEntry) :
  OrderEntry.match_loop fuel k e t = Ok (outs, e') ->
  OrderEntry.match_body fuel e' t = Ok OrderEntry.Break.
Proof.
  revert e outs e'. induction k as [|k IH]; intros e outs e' H;
    cbn [OrderEntry.match_loop] in H;
    destruct (OrderEntry.match_body fuel e t) as [[|out e1]| |] eqn:Eb;
    cbn [bind] in H; try discriminate.
  - inversion H; subst. exact Eb.
  - inversion H; subst. exact Eb.
  - destruct (OrderEntry.match_loop fuel k e1 t) as [[outs1 e2]| |] eqn:El;
      cbn [bind] in H; try discriminate.
    inversion H; subst. exact (IH _ _ _ El).
Qed.

(** X10. match is idempotent: when match returns, a second match on the
    entry it leaves, at any time and with any budget of turns, prints no
    trade and leaves the entry as it is. *)
Theorem match_twice_prints_nothing (fuel : nat) (e : OrderEntry) (t : time_t)
    (s : Z) (outs : list line) (e' : OrderEntry) :
  OrderEntry.match_ fuel e t = Ok (s, outs, e') ->
  s = ACCEPT /\
  forall (fuel' : nat) (t' : time_t),
    OrderEntry.match_ fuel' e' t' = Ok (ACCEPT, [], e').
Proof.
  unfold OrderEntry.match_ at 1. intros H.
  destruct (OrderEntry.match_loop fuel fuel e t) as [[outs1 e1]| |] eqn:El;
    cbn [bind] in H; try discriminate.
  inversion H; subst. split; [reflexivity|]. intros fuel' t'.
  unfold OrderEntry.match_.
  pose proof (match_body_break_any fuel e' t
                (match_loop_ends_on_break fuel fuel e t outs e' El) fuel' t') as Hb.
  destruct fuel'; cbn [OrderEntry.match_loop]; rewrite Hb; reflexivity.
Qed.

Lemma match_twice_prints_nothing_witness :
  exists e',
    (exists outs, OrderEntry.match_ 20 crossing_entry 3 = Ok (ACCEPT, outs, e')) /\
    forall (fuel' : nat) (t' : time_t),
      OrderEntry.match_ fuel' e' t' = Ok (ACCEPT, [], e').
Proof.
  eexists. split.
  - eexists. vm_compute. reflexivity.
  - refine (proj2 (match_twice_prints_nothing 20 crossing_entry 3 ACCEPT _ _ _)).
    vm_compute. reflexivity.
Defined.

(** ** OrderBook: the hash table and the list of symbols *)

Lemma hash_mod (x : Z) : OrderBook.hash x = (1279 * x + 2203) mod 65536.
Proof.
  unfold OrderBook.hash, OrderBook.to_unsigned, NUM_TOTAL_SYMBOLS_IN_ORDER_BOOK.
  apply Z.mod_mod_divide. exists 65536. reflexivity.
Qed.

(** X11. hash(unsigned int) is a bucket index that depends on the low 16
    bits of its argument only, and it is one-to-one on them: two order ids
    share a bucket of the order-to-symbol cache exactly when they are equal
    modulo 65536. *)
Theorem hash_by_low_16_bits (x y : Z) :
  0 <= OrderBook.hash x < NUM_TOTAL_SYMBOLS_IN_ORDER_BOOK /\
  (OrderBook.hash x = OrderBook.hash y <-> x mod 65536 = y mod 65536).
Proof.
  rewrite !hash_mod. unfold NUM_TOTAL_SYMBOLS_IN_ORDER_BOOK.
  split; [apply Z.mod_pos_bound; lia|].
  split; intros H; Z.div_mod_to_equations; lia.
Qed.

(** X12. lookup after insert. The bucket of the key is overwritten by a
    fresh entry for the key: a lookup of any symbol with the hash of the key
    returns that entry, without a comparison of the symbols, and the
    entries that were in the bucket are no longer reachable; a lookup of a
    symbol with another hash is as before. *)
Theorem lookup_after_insert (ob : OrderBook) (key key' : symbol_t) :
  OrderBook.bucket (OrderBook.insert ob key).2 (OrderBook.hash_str key)
    = [OrderEntry.new key]
  /\ (OrderBook.hash_str key' = OrderBook.hash_str key ->
      OrderBook.lookup (OrderBook.insert ob key).2 key'
        = Some (OrderBook.hash_str key, 0%nat)
      /\ OrderBook.entry_at (OrderBook.insert ob key).2
           (OrderBook.lookup (OrderBook.insert ob key).2 key')
         = Ok (OrderEntry.new key))
  /\ (OrderBook.hash_str key' <> OrderBook.hash_str key ->
      OrderBook.lookup (OrderBook.insert ob key).2 key' = OrderBook.lookup ob key').
Proof.
  assert (Hb : OrderBook.bucket (OrderBook.insert ob key).2 (OrderBook.hash_str key)
               = [OrderEntry.new key]).
  { unfold OrderBook.insert, OrderBook.bucket. cbn [snd table
      OrderBook.set_cache_list_sorted_symbol_names OrderBook.set_table].
    now rewrite lookup_insert_eq. }
  split; [exact Hb|]. split.
  - intros Hh.
    assert (Hl : OrderBook.lookup (OrderBook.insert ob key).2 key'
                 = Some (OrderBook.hash_str key, 0%nat)).
    { unfold OrderBook.lookup. rewrite Hh, Hb. reflexivity. }
    split; [exact Hl|]. rewrite Hl. unfold OrderBook.entry_at. rewrite Hb.
    reflexivity.
  - intros Hne. unfold OrderBook.lookup.
    assert (Hb' : OrderBook.bucket (OrderBook.insert ob key).2
                    (OrderBook.hash_str key')
                  = OrderBook.bucket ob (OrderBook.hash_str key')).
    { unfold OrderBook.insert, OrderBook.bucket. cbn [snd table
        OrderBook.set_cache_list_sorted_symbol_names OrderBook.set_table].
      rewrite lookup_insert_ne by congruence. reflexivity. }
    rewrite Hb'. reflexivity.
Qed.

Lemma lookup_after_insert_witness :
  OrderBook.bucket (OrderBook.insert book_at_5 "DTAA").2 (OrderBook.hash_str "DTAA")
    = [OrderEntry.new "DTAA"]
  /\ (OrderBook.hash_str "AABK" = OrderBook.hash_str "DTAA" ->
      OrderBook.lookup (OrderBook.insert book_at_5 "DTAA").2 "AABK"
        = Some (OrderBook.hash_str "DTAA", 0%nat)
      /\ OrderBook.entry_at (OrderBook.insert book_at_5 "DTAA").2
           (OrderBook.lookup (OrderBook.insert book_at_5 "DTAA").2 "AABK")
         = Ok (OrderEntry.new "DTAA"))
  /\ (OrderBook.hash_str "AABK" <> OrderBook.hash_str "DTAA" ->
      OrderBook.lookup (OrderBook.insert book_at_5 "DTAA").2 "AABK"
        = OrderBook.lookup book_at_5 "AABK").
Proof.
  pose proof (lookup_after_insert book_at_5 "DTAA" "AABK") as (H1 & H2 & H3).
  split; [exact H1|]. split; [|exact H3].
  intros _. apply H2. vm_compute. reflexivity.
Defined.

Lemma insert_after_perm (snl : symbol_t) (next : list symbol_t) (key : symbol_t) :
  OrderBook.insert_after snl next key ≡ₚ key :: snl :: next.
Proof.
  revert snl. induction next as [|n next IH]; intros snl;
    cbn [OrderBook.insert_after].
  - apply Permutation_swap.
  - destruct (OrderBook.strcmp snl key <? 0).
    + rewrite IH. rewrite (Permutation_swap key snl). reflexivity.
    + apply Permutation_swap.
Qed.

(** X13. insert keeps the list of symbol names complete: after insert the
    list holds the key once more than before and every name it held, each
    as often as before (the order of the names is another matter). *)
Theorem insert_keeps_every_symbol_name (ob : OrderBook) (key : symbol_t) :
  cache_list_sorted_symbol_names (OrderBook.insert ob key).2
    ≡ₚ key :: cache_list_sorted_symbol_names ob.
Proof.
  unfold OrderBook.insert.
  cbn [snd cache_list_sorted_symbol_names
       OrderBook.set_cache_list_sorted_symbol_names OrderBook.set_table].
  destruct (cache_list_sorted_symbol_names ob) as [|s0 next]; [reflexivity|].
  destruct (OrderBook.strcmp s0 key >=? 0); [reflexivity|].
  apply insert_after_perm.
Qed.

(** ** OrderBook: what a command changes *)

Lemma entry_add_symbol (fuel : nat) (e : OrderEntry) (o : Order) (s : side_t)
    (b : bool) (e' : OrderEntry) :
  OrderEntry.add fuel e o s = Ok (b, e') -> symbol e' = symbol e.
Proof.
  unfold OrderEntry.add. intros H. destruct s;
    apply bind_Ok_inv in H as ([r h] & _ & H); inversion H; reflexivity.
Qed.

Lemma entry_ammend_symbol (fuel : nat) (e : OrderEntry) (s : side_t)
    (oid : order_id_t) (p : price_t) (q : quantity_t) (b : bool)
    (e' : OrderEntry) :
  OrderEntry.ammend fuel e s oid p q = Ok (b, e') ->
  symbol e' = symbol e /\ b = true.
Proof.
  unfold OrderEntry.ammend. intros H. destruct s;
    apply bind_Ok_inv in H as ([r h] & _ & H); inversion H; split; reflexivity.
Qed.

Lemma entry_cancel_symbol (fuel : nat) (e : OrderEntry) (oid : order_id_t)
    (s : side_t) (r : Z) (e' : OrderEntry) :
  OrderEntry.cancel fuel e oid s = Ok (r, e') ->
  symbol e' = symbol e /\ r = ACCEPT.
Proof.
  unfold OrderEntry.cancel. intros H. destruct s;
    apply bind_Ok_inv in H as ([r1 h] & _ & H); inversion H; split; reflexivity.
Qed.

Lemma match_body_symbol (fuel : nat) (e : OrderEntry) (t : time_t) (out : line)
    (e' : OrderEntry) :
  OrderEntry.match_body fuel e t = Ok (OrderEntry.Continue out e') ->
  symbol e' = symbol e.
Proof.
  unfold OrderEntry.match_body. intros H.
  apply bind_Ok_inv in H as (bb & _ & H).
  apply bind_Ok_inv in H as (bs & _ & H).
  destruct bb as [bi|]; [|discriminate]. destruct bs as [si|]; [|discriminate].
  apply bind_Ok_inv in H as (bo & _ & H).
  apply bind_Ok_inv in H as (so & _ & H).
  destruct (_ && _ && _); [|discriminate].
  apply bind_Ok_inv in H as ([r1 hb] & _ & H).
  apply bind_Ok_inv in H as ([r2 hs] & _ & H).
  inversion H; reflexivity.
Qed.

Lemma match_loop_symbol (fuel k : nat) (e : OrderEntry) (t : time_t)
    (outs : list line) (e' : OrderEntry) :
  OrderEntry.match_loop fuel k e t = Ok (outs, e') -> symbol e' = symbol e.
Proof.
  revert e outs e'. induction k as [|k IH]; intros e outs e' H;
    cbn [OrderEntry.match_loop] in H;
    apply bind_Ok_inv in H as ([|out e1] & Eb & H); try discriminate.
  - inversion H; reflexivity.
  - inversion H; reflexivity.
  - apply bind_Ok_inv in H as ([outs1 e2] & El & H). inversion H; subst.
    rewrite (IH _ _ _ El). exact (match_body_symbol _ _ _ _ _ Eb).
Qed.

Lemma entry_match_symbol (fuel : nat) (e : OrderEntry) (t : time_t) (r : Z)
    (outs : list line) (e' : OrderEntry) :
  OrderEntry.match_ fuel e t = Ok (r, outs, e') -> symbol e' = symbol e.
Proof.
  unfold OrderEntry.match_. intros H.
  apply bind_Ok_inv in H as ([outs1 e1] & El & H). inversion H; subst.
  exact (match_loop_symbol _ _ _ _ _ _ El).
Qed.

Lemma entries_changed_refl (ob : OrderBook) : entries_changed ob ob.
Proof. repeat split. Qed.

Lemma entries_changed_trans (ob1 ob2 ob3 : OrderBook) :
  entries_changed ob1 ob2 -> entries_changed ob2 ob3 -> entries_changed ob1 ob3.
Proof.
  intros (T1 & C1 & L1 & S1) (T2 & C2 & L2 & S2).
  split; [congruence|]. split; [congruence|]. split; [congruence|].
  intros h. rewrite S2. apply S1.
Qed.

Lemma store_entry_changed (ob : OrderBook) (ptr : option (Z * nat))
    (e e1 : OrderEntry) (ob' : OrderBook) :
  OrderBook.entry_at ob ptr = Ok e -> symbol e1 = symbol e ->
  OrderBook.store_entry ob ptr e1 = Ok ob' -> entries_changed ob ob'.
Proof.
  unfold OrderBook.entry_at, OrderBook.store_entry.
  destruct ptr as [[h p]|]; [|discriminate].
  destruct (OrderBook.bucket ob h !! p) as [x|] eqn:E; [|discriminate].
  intros He Hs H. inversion He; subst x. inversion H; subst ob'. clear He H.
  split; [reflexivity|]. split; [reflexivity|]. split; [reflexivity|].
  intros h0. unfold symbols_of, OrderBook.bucket at 1.
  cbn [table OrderBook.set_table].
  destruct (decide (h = h0)) as [->|Hne].
  - rewrite lookup_insert_eq. cbn [default]. unfold id.
    rewrite list_fmap_insert. apply list_insert_id.
    rewrite list_lookup_fmap, E. cbn. now rewrite Hs.
  - rewrite lookup_insert_ne by exact Hne. reflexivity.
Qed.

Lemma match_chain_changed (fuel k : nat) (ob : OrderBook) (h : Z) (p : nat)
    (t : time_t) (outs : list line) (ob' : OrderBook) :
  OrderBook.match_chain fuel k ob h p t = Ok (outs, ob') -> entries_changed ob ob'.
Proof.
  revert ob p outs; induction k as [|k IH]; intros ob p outs H;
    cbn [OrderBook.match_chain] in H.
  - inversion H; subst. apply entries_changed_refl.
  - apply bind_Ok_inv in H as (e & Ee & H).
    apply bind_Ok_inv in H as ([[r outs1] e1] & Em & H).
    apply bind_Ok_inv in H as (ob1 & Es & H).
    apply bind_Ok_inv in H as ([outs2 ob2] & Er & H).
    inversion H; subst; clear H.
    refine (entries_changed_trans _ _ _ _ (IH _ _ _ Er)).
    exact (store_entry_changed _ _ _ _ _ Ee (entry_match_symbol _ _ _ _ _ _ Em) Es).
Qed.

Lemma match_table_changed (fuel k : nat) (ob : OrderBook) (h : Z) (t : time_t)
    (outs : list line) (ob' : OrderBook) :
  OrderBook.match_table fuel k ob h t = Ok (outs, ob') -> entries_changed ob ob'.
Proof.
  revert ob h outs; induction k as [|k IH]; intros ob h outs H;
    cbn [OrderBook.match_table] in H.
  - inversion H; subst. apply entries_changed_refl.
  - apply bind_Ok_inv in H as ([outs1 ob1] & E1 & H).
    apply bind_Ok_inv in H as ([outs2 ob2] & E2 & H).
    inversion H; subst; clear H.
    exact (entries_changed_trans _ _ _ (match_chain_changed _ _ _ _ _ _ _ _ E1)
             (IH _ _ _ E2)).
Qed.

Lemma ammend_order_changed (fuel : nat) (ob : OrderBook) (o : Command.t) (r : Z)
    (ob' : OrderBook) :
  OrderBook.ammend_order fuel ob o = Ok (r, ob') ->
  entries_changed ob ob' /\
  r = (if Command.timestamp o <? timestamp ob then INVALID_ORDER_DETAILS
       else match OrderBook.lookup ob (Command.symbol o) with
            | Some _ => 1
            | None => ORDER_DOES_NOT_EXIST
            end).
Proof.
  intros H. unfold OrderBook.ammend_order in H.
  destruct (Command.timestamp o <? timestamp ob);
    [inversion H; subst; split; [apply entries_changed_refl|reflexivity]|].
  destruct (OrderBook.lookup ob (Command.symbol o)) as [ptr|];
    [|inversion H; subst; split; [apply entries_changed_refl|reflexivity]].
  apply bind_Ok_inv in H as (e & Ee & H).
  apply bind_Ok_inv in H as ([b1 e1] & Ea & H).
  apply bind_Ok_inv in H as (ob1 & Es & H).
  inversion H; subst; clear H.
  destruct (entry_ammend_symbol _ _ _ _ _ _ _ _ Ea) as [Hs ->].
  split; [exact (store_entry_changed _ _ _ _ _ Ee Hs Es)|reflexivity].
Qed.

Lemma set_timestamp_directory (ob ob1 : OrderBook) (t : time_t) :
  entries_changed ob ob1 -> same_directory ob (OrderBook.set_timestamp ob1 t).
Proof. intros (_ & C & L & S). split; [exact C|]. split; [exact L|exact S]. Qed.

Lemma entries_changed_directory (ob ob' : OrderBook) :
  entries_changed ob ob' -> same_directory ob ob'.
Proof. intros (_ & C & L & S). split; [exact C|]. split; [exact L|exact S]. Qed.

Lemma cancel_order_changed (fuel : nat) (ob : OrderBook) (o : Command.t) (r : Z)
    (ob' : OrderBook) :
  OrderBook.cancel_order fuel ob o = Ok (r, ob') ->
  (Command.timestamp o < timestamp ob /\ ob' = ob /\ r = INVALID_ORDER_DETAILS)
  \/ (timestamp ob <= Command.timestamp o /\
      timestamp ob' = Command.timestamp o /\ same_directory ob ob' /\
      exists node rest,
        OrderBook.cache_bucket ob
          (OrderBook.hash (OrderBook.to_unsigned (Command.order_id o)))
          = node :: rest /\
        r = match OrderBook.lookup ob (hash_order_to_symbol.symbol node) with
            | Some _ => ACCEPT
            | None => ORDER_DOES_NOT_EXIST
            end).
Proof.
  intros H. unfold OrderBook.cancel_order in H.
  destruct (Z.ltb_spec (Command.timestamp o) (timestamp ob)) as [Hlt|Hge];
    [inversion H; subst; left; auto|].
  right. split; [exact Hge|].
  apply bind_Ok_inv in H as (s & Esym & H).
  apply bind_Ok_inv in H as ([st ob1] & E1 & H).
  inversion H; subst; clear H. split; [reflexivity|].
  destruct (OrderBook.cache_bucket ob _) as [|node rest]; [discriminate|].
  inversion Esym; subst s; clear Esym.
  destruct (OrderBook.lookup ob (hash_order_to_symbol.symbol node)) as [ptr|]
    eqn:El.
  - apply bind_Ok_inv in E1 as (e & Ee & E1).
    apply bind_Ok_inv in E1 as ([r1 e1] & Ec & E1).
    apply bind_Ok_inv in E1 as (ob2 & Es & E1).
    inversion E1; subst; clear E1.
    destruct (entry_cancel_symbol _ _ _ _ _ _ Ec) as [Hs ->].
    split; [|exists node, rest; rewrite El; split; reflexivity].
    apply set_timestamp_directory.
    exact (store_entry_changed _ _ _ _ _ Ee Hs Es).
  - inversion E1; subst; clear E1.
    split; [|exists node, rest; rewrite El; split; reflexivity].
    apply set_timestamp_directory, entries_changed_refl.
Qed.

Lemma book_match_changed (fuel : nat) (ob : OrderBook) (o : Command.t) (r : Z)
    (outs : list line) (ob' : OrderBook) :
  OrderBook.match_ fuel ob o = Ok (r, outs, ob') ->
  (Command.timestamp o < timestamp ob /\ ob' = ob)
  \/ (timestamp ob <= Command.timestamp o /\
      timestamp ob' = Command.timestamp o /\ same_directory ob ob').
Proof.
  intros H. unfold OrderBook.match_ in H.
  destruct (Z.ltb_spec (Command.timestamp o) (timestamp ob)) as [Hlt|Hge];
    [inversion H; subst; left; auto|].
  right. split; [exact Hge|].
  apply bind_Ok_inv in H as ([outs1 ob1] & E1 & H).
  inversion H; subst; clear H. split; [reflexivity|].
  apply set_timestamp_directory.
  destruct (Command.format o);
    [inversion E1; subst; apply entries_changed_refl
    |inversion E1; subst; apply entries_changed_refl | |
    |inversion E1; subst; apply entries_changed_refl
    |inversion E1; subst; apply entries_changed_refl
    |inversion E1; subst; apply entries_changed_refl
    |inversion E1; subst; apply entries_changed_refl
    |inversion E1; subst; apply entries_changed_refl ].
  - exact (match_table_changed _ _ _ _ _ _ _ E1).
  - apply bind_Ok_inv in E1 as (e & Ee & E1).
    apply bind_Ok_inv in E1 as ([[r1 outs2] e1] & Em & E1).
    apply bind_Ok_inv in E1 as (ob2 & Es & E1).
    inversion E1; subst; clear E1.
    exact (store_entry_changed _ _ _ _ _ Ee (entry_match_symbol _ _ _ _ _ _ Em) Es).
Qed.

Lemma book_query_same (ob : OrderBook) (o : Command.t) (r : Z)
    (outs : list line) (ob' : OrderBook) :
  OrderBook.query ob o = Ok (r, outs, ob') -> ob' = ob.
Proof.
  unfold OrderBook.query. intros H.
  apply bind_Ok_inv in H as (rows & _ & H). now inversion H.
Qed.

Lemma add_new_order_clock (fuel : nat) (ob : OrderBook) (o : Command.t)
    (b : bool) (ob' : OrderBook) :
  OrderBook.add_new_order fuel ob o = Ok (b, ob') ->
  (Command.timestamp o < timestamp ob /\ ob' = ob /\ b = true)
  \/ (timestamp ob <= Command.timestamp o /\
      timestamp ob' = Command.timestamp o /\ b = false).
Proof.
  intros H. unfold OrderBook.add_new_order in H.
  destruct (Z.ltb_spec (Command.timestamp o) (timestamp ob)) as [Hlt|Hge];
    [inversion H; subst; left; auto|].
  right. split; [exact Hge|].
  destruct (OrderBook.lookup ob (Command.symbol o)) as [ptr|];
    cbn beta iota zeta in H;
    apply bind_Ok_inv in H as (e & Ee & H);
    apply bind_Ok_inv in H as ([b1 e1] & Ea & H);
    apply bind_Ok_inv in H as (ob3 & Es & H);
    inversion H; subst; split; reflexivity.
Qed.

Lemma book_at_5_reachable : reachable 1 book_at_5.
Proof.
  apply (reachable_step 1 OrderBook.new (cmd_new 1 5 "AB" LIMIT BUY 1000 1)
           true [Report 1 "Accept" None] book_at_5 (reachable_new 1)).
  vm_compute. reflexivity.
Qed.

(** X14. The clock of the order book never goes back. When interpret_order
    returns, the clock is the old one or the timestamp of the command, and
    not below the old one. An AMEND and a QUERY never move the clock,
    whatever their timestamp; a NEW, a CANCEL and a MATCH whose timestamp
    is not below the clock set the clock to it. *)
Theorem clock_never_goes_back (fuel : nat) (ob : OrderBook) (o : Command.t)
    (b : bool) (outs : list line) (ob' : OrderBook) :
  OrderInterpreter.interpret_order fuel ob o = Ok (b, outs, ob') ->
  timestamp ob <= timestamp ob'
  /\ (Command.order_action o = AMEND \/ Command.order_action o = QUERY ->
      timestamp ob' = timestamp ob)
  /\ (Command.order_action o <> AMEND -> Command.order_action o <> QUERY ->
      timestamp ob' = Z.max (timestamp ob) (Command.timestamp o)).
Proof.
  intros H. unfold OrderInterpreter.interpret_order in H.
  destruct (Command.order_action o) eqn:Ea.
  - apply bind_Ok_inv in H as ([r ob1] & E & H). inversion H; subst.
    destruct (add_new_order_clock _ _ _ _ _ E) as [(Hlt & -> & _)|(Hge & Ht & _)].
    + split; [lia|]. split; [intros [?|?]; discriminate|]. intros _ _. lia.
    + split; [lia|]. split; [intros [?|?]; discriminate|]. intros _ _. lia.
  - apply bind_Ok_inv in H as ([r ob1] & E & H). inversion H; subst.
    destruct (ammend_order_changed _ _ _ _ _ E) as [(Ht & _) _].
    split; [lia|]. split; [intros _; exact Ht|]. intros N; contradiction.
  - apply bind_Ok_inv in H as ([r ob1] & E & H). inversion H; subst.
    destruct (cancel_order_changed _ _ _ _ _ E) as [(Hlt & -> & _)|(Hge & Ht & _)].
    + split; [lia|]. split; [intros [?|?]; discriminate|]. intros _ _. lia.
    + split; [lia|]. split; [intros [?|?]; discriminate|]. intros _ _. lia.
  - apply bind_Ok_inv in H as ([[r outs1] ob1] & E & H). inversion H; subst.
    destruct (book_match_changed _ _ _ _ _ _ E) as [(Hlt & ->)|(Hge & Ht & _)].
    + split; [lia|]. split; [intros [?|?]; discriminate|]. intros _ _. lia.
    + split; [lia|]. split; [intros [?|?]; discriminate|]. intros _ _. lia.
  - apply bind_Ok_inv in H as ([[r outs1] ob1] & E & H). inversion H; subst.
    rewrite (book_query_same _ _ _ _ _ E).
    split; [lia|]. split; [intros _; reflexivity|]. intros _ N; contradiction.
Qed.

Lemma clock_never_goes_back_witness :
  exists ob',
    OrderInterpreter.interpret_order 1 book_at_5
      (cmd_amend 1 9 "AB" LIMIT BUY 1100 1) = Ok (true, [], ob')
    /\ timestamp book_at_5 <= timestamp ob'
    /\ (AMEND = AMEND \/ AMEND = QUERY -> timestamp ob' = timestamp book_at_5)
    /\ (AMEND <> AMEND -> AMEND <> QUERY ->
        timestamp ob' = Z.max (timestamp book_at_5) 9).
Proof.
  eexists. split.
  - vm_compute. reflexivity.
  - refine (clock_never_goes_back 1 book_at_5
              (cmd_amend 1 9 "AB" LIMIT BUY 1100 1) true [] _ _).
    vm_compute. reflexivity.
Defined.

(** X15. Only a NEW changes the directory of the order book. When
    interpret_order returns on an AMEND, a CANCEL, a MATCH or a QUERY, the
    order-to-symbol cache, the list of symbol names and the symbols of the
    entries of every bucket of the table are as before: no such command adds
    or removes a symbol, and a cancelled or filled order stays in the
    order-to-symbol cache. *)
Theorem only_new_changes_the_directory (fuel : nat) (ob : OrderBook)
    (o : Command.t) (b : bool) (outs : list line) (ob' : OrderBook) :
  Command.order_action o <> NEW ->
  OrderInterpreter.interpret_order fuel ob o = Ok (b, outs, ob') ->
  same_directory ob ob'.
Proof.
  intros Hn H. unfold OrderInterpreter.interpret_order in H.
  destruct (Command.order_action o) eqn:Ea; [contradiction| | | |].
  - apply bind_Ok_inv in H as ([r ob1] & E & H). inversion H; subst.
    exact (entries_changed_directory _ _ (proj1 (ammend_order_changed _ _ _ _ _ E))).
  - apply bind_Ok_inv in H as ([r ob1] & E & H). inversion H; subst.
    destruct (cancel_order_changed _ _ _ _ _ E) as [(_ & -> & _)|(_ & _ & Hs & _)];
      [apply entries_changed_directory, entries_changed_refl|exact Hs].
  - apply bind_Ok_inv in H as ([[r outs1] ob1] & E & H). inversion H; subst.
    destruct (book_match_changed _ _ _ _ _ _ E) as [(_ & ->)|(_ & _ & Hs)];
      [apply entries_changed_directory, entries_changed_refl|exact Hs].
  - apply bind_Ok_inv in H as ([[r outs1] ob1] & E & H). inversion H; subst.
    rewrite (book_query_same _ _ _ _ _ E).
    apply entries_changed_directory, entries_changed_refl.
Qed.

Lemma only_new_changes_the_directory_witness :
  exists ob',
    OrderInterpreter.interpret_order 1 book_at_5 (cmd_cancel 1 9)
      = Ok (true, [Report 1 "CancelAccept" None], ob')
    /\ same_directory book_at_5 ob'.
Proof.
  eexists. split.
  - vm_compute. reflexivity.
  - refine (only_new_changes_the_directory 1 book_at_5 (cmd_cancel 1 9) true
              [Report 1 "CancelAccept" None] _ _ _).
    + discriminate.
    + vm_compute. reflexivity.
Defined.

Lemma same_directory_ok (ob ob' : OrderBook) :
  same_directory ob ob' -> directory_ok ob -> directory_ok ob'.
Proof.
  intros (C & L & S) (D1 & D2 & D3 & D4).
  assert (Cb : forall h, OrderBook.cache_bucket ob' h = OrderBook.cache_bucket ob h)
    by (intros h; unfold OrderBook.cache_bucket; now rewrite C).
  split; [intros h; rewrite S; apply D1|].
  split; [intros h s; rewrite S; apply D2|].
  split; [intros h node; rewrite Cb, S; apply D3|].
  intros s. rewrite L, S. apply D4.
Qed.

Lemma symbols_of_nil (ob : OrderBook) (h : Z) :
  symbols_of ob h = [] <-> OrderBook.bucket ob h = [].
Proof.
  unfold symbols_of. destruct (OrderBook.bucket ob h); split; intros H;
    [reflexivity|reflexivity|discriminate|discriminate].
Qed.

(* what an accepted NEW does to the directory *)
Lemma add_new_order_directory (fuel : nat) (ob : OrderBook) (o : Command.t)
    (b : bool) (ob' : OrderBook) :
  timestamp ob <= Command.timestamp o ->
  OrderBook.add_new_order fuel ob o = Ok (b, ob') ->
  cache_order_to_symbol ob' =
    <[OrderBook.hash (OrderBook.to_unsigned (Command.order_id o)) :=
        OrderBook.cache_bucket ob
          (OrderBook.hash (OrderBook.to_unsigned (Command.order_id o)))
        ++ [node_of o]]> (cache_order_to_symbol ob)
  /\ (forall h, h <> OrderBook.hash_str (Command.symbol o) ->
        symbols_of ob' h = symbols_of ob h)
  /\ (symbols_of ob (OrderBook.hash_str (Command.symbol o)) = [] ->
        symbols_of ob' (OrderBook.hash_str (Command.symbol o))
          = [Command.symbol o]
        /\ cache_list_sorted_symbol_names ob'
             ≡ₚ Command.symbol o :: cache_list_sorted_symbol_names ob)
  /\ (symbols_of ob (OrderBook.hash_str (Command.symbol o)) <> [] ->
        symbols_of ob' (OrderBook.hash_str (Command.symbol o))
          = symbols_of ob (OrderBook.hash_str (Command.symbol o))
        /\ cache_list_sorted_symbol_names ob'
             = cache_list_sorted_symbol_names ob).
Proof.
  intros Hge H. unfold OrderBook.add_new_order in H.
  destruct (Z.ltb_spec (Command.timestamp o) (timestamp ob)) as [Hlt|_]; [lia|].
  set (sym := Command.symbol o) in *.
  set (hid := OrderBook.hash (OrderBook.to_unsigned (Command.order_id o))) in *.
  fold (node_of o) in H.
  destruct (OrderBook.lookup ob sym) as [ptr|] eqn:El;
    cbn beta iota zeta in H;
    apply bind_Ok_inv in H as (e & Ee & H);
    apply bind_Ok_inv in H as ([b1 e1] & Ea & H);
    apply bind_Ok_inv in H as (ob3 & Es & H);
    inversion H; subst b ob'; clear H;
    destruct (store_entry_changed _ _ _ _ _ Ee (entry_add_symbol _ _ _ _ _ _ Ea) Es)
      as (_ & C3 & L3 & S3);
    cbn [cache_order_to_symbol cache_list_sorted_symbol_names
         OrderBook.set_timestamp OrderBook.set_cache_order_to_symbol] in *.
  - (* the bucket of the symbol has an entry *)
    assert (Hb : symbols_of ob (OrderBook.hash_str sym) <> []).
    { rewrite symbols_of_nil. unfold OrderBook.lookup in El.
      destruct (OrderBook.bucket ob (OrderBook.hash_str sym)); [discriminate|].
      discriminate. }
    split; [exact C3|]. split; [intros h _; exact (S3 h)|].
    split; [intros Hn; contradiction|]. intros _. split; [exact (S3 _)|exact L3].
  - (* the bucket is empty: insert *)
    assert (Hb : symbols_of ob (OrderBook.hash_str sym) = []).
    { rewrite symbols_of_nil. unfold OrderBook.lookup in El.
      destruct (OrderBook.bucket ob (OrderBook.hash_str sym)); [reflexivity|].
      discriminate. }
    split; [exact C3|].
    assert (Si : forall h, symbols_of ob3 h =
               symbols_of (OrderBook.insert ob sym).2 h) by exact S3.
    split.
    { intros h Hne.
      transitivity (symbols_of (OrderBook.insert ob sym).2 h); [exact (S3 h)|].
      unfold symbols_of, OrderBook.bucket, OrderBook.insert.
      cbn [snd table OrderBook.set_cache_list_sorted_symbol_names
           OrderBook.set_table].
      rewrite lookup_insert_ne by congruence. reflexivity. }
    split; [|intros Hn; contradiction]. intros _. split.
    { transitivity (symbols_of (OrderBook.insert ob sym).2 (OrderBook.hash_str sym));
        [exact (S3 _)|].
      unfold symbols_of, OrderBook.bucket, OrderBook.insert.
      cbn [snd table OrderBook.set_cache_list_sorted_symbol_names
           OrderBook.set_table].
      rewrite lookup_insert_eq. reflexivity. }
    rewrite L3. unfold OrderBook.insert.
    cbn [snd cache_list_sorted_symbol_names
         OrderBook.set_cache_list_sorted_symbol_names OrderBook.set_table].
    destruct (cache_list_sorted_symbol_names ob) as [|s0 next]; [reflexivity|].
    destruct (OrderBook.strcmp s0 sym >=? 0); [reflexivity|].
    apply insert_after_perm.
Qed.

Lemma add_new_order_directory_ok (fuel : nat) (ob : OrderBook) (o : Command.t)
    (b : bool) (ob' : OrderBook) :
  directory_ok ob -> OrderBook.add_new_order fuel ob o = Ok (b, ob') ->
  directory_ok ob'.
Proof.
  intros Hd H.
  destruct (add_new_order_clock _ _ _ _ _ H) as [(_ & -> & _)|(Hge & _ & _)];
    [exact Hd|].
  destruct (add_new_order_directory _ _ _ _ _ Hge H) as (C & Sne & Snil & Sin).
  destruct Hd as (D1 & D2 & D3 & D4).
  set (sym := Command.symbol o) in *. set (hs := OrderBook.hash_str sym) in *.
  assert (Hnow : symbols_of ob' hs <> []).
  { destruct (symbols_of ob hs) as [|s l] eqn:E.
    - rewrite (proj1 (Snil eq_refl)). discriminate.
    - rewrite (proj1 (Sin ltac:(discriminate))). discriminate. }
  assert (Hkeep : forall h, symbols_of ob h <> [] -> symbols_of ob' h <> []).
  { intros h Hh. destruct (decide (h = hs)) as [->|Hne]; [exact Hnow|].
    now rewrite (Sne h Hne). }
  split; [|split; [|split]].
  - intros h. destruct (decide (h = hs)) as [->|Hne]; [|rewrite (Sne h Hne); apply D1].
    destruct (symbols_of ob hs) as [|s l] eqn:E.
    + rewrite (proj1 (Snil eq_refl)). cbn. lia.
    + rewrite (proj1 (Sin ltac:(discriminate))). rewrite <- E. apply D1.
  - intros h s. destruct (decide (h = hs)) as [->|Hne];
      [|rewrite (Sne h Hne); apply D2].
    destruct (symbols_of ob hs) as [|s1 l] eqn:E.
    + rewrite (proj1 (Snil eq_refl)). intros [<-|[]]. reflexivity.
    + rewrite (proj1 (Sin ltac:(discriminate))). rewrite <- E. apply D2.
  - intros h node Hin. unfold OrderBook.cache_bucket in Hin. rewrite C in Hin.
    destruct (decide (OrderBook.hash (OrderBook.to_unsigned (Command.order_id o)) = h))
      as [<-|Hne].
    + rewrite lookup_insert_eq in Hin. cbn [default] in Hin. unfold id in Hin.
      apply in_app_or in Hin as [Hin|[<-|[]]].
      * apply Hkeep. exact (D3 _ node Hin).
      * exact Hnow.
    + rewrite lookup_insert_ne in Hin by exact Hne.
      apply Hkeep. exact (D3 h node Hin).
  - intros s Hin. destruct (symbols_of ob hs) as [|s1 l] eqn:E.
    + destruct (Snil eq_refl) as [_ P].
      assert (Hin' : In s (sym :: cache_list_sorted_symbol_names ob)).
      { exact (Permutation_in s P Hin). }
      destruct Hin' as [<-|Hin']; [exact Hnow|]. apply Hkeep. exact (D4 s Hin').
    + destruct (Sin ltac:(discriminate)) as [_ P]. rewrite P in Hin.
      apply Hkeep. exact (D4 s Hin).
Qed.

Lemma interpret_order_directory_ok (fuel : nat) (ob : OrderBook) (o : Command.t)
    (b : bool) (outs : list line) (ob' : OrderBook) :
  directory_ok ob ->
  OrderInterpreter.interpret_order fuel ob o = Ok (b, outs, ob') ->
  directory_ok ob'.
Proof.
  intros Hd H. unfold OrderInterpreter.interpret_order in H.
  destruct (Command.order_action o) eqn:Ea.
  - apply bind_Ok_inv in H as ([r ob1] & E & H). inversion H; subst.
    exact (add_new_order_directory_ok _ _ _ _ _ Hd E).
  - apply bind_Ok_inv in H as ([r ob1] & E & H). inversion H; subst.
    exact (same_directory_ok _ _
             (entries_changed_directory _ _
                (proj1 (ammend_order_changed _ _ _ _ _ E))) Hd).
  - apply bind_Ok_inv in H as ([r ob1] & E & H). inversion H; subst.
    destruct (cancel_order_changed _ _ _ _ _ E) as [(_ & -> & _)|(_ & _ & Hs & _)];
      [exact Hd|exact (same_directory_ok _ _ Hs Hd)].
  - apply bind_Ok_inv in H as ([[r outs1] ob1] & E & H). inversion H; subst.
    destruct (book_match_changed _ _ _ _ _ _ E) as [(_ & ->)|(_ & _ & Hs)];
      [exact Hd|exact (same_directory_ok _ _ Hs Hd)].
  - apply bind_Ok_inv in H as ([[r outs1] ob1] & E & H). inversion H; subst.
    now rewrite (book_query_same _ _ _ _ _ E).
Qed.

Lemma reachable_directory_ok (fuel : nat) (ob : OrderBook) :
  reachable fuel ob -> directory_ok ob.
Proof.
  induction 1 as [|ob o b outs ob' _ IH H].
  - assert (Hn : forall h, symbols_of OrderBook.new h = []).
    { intros h. unfold symbols_of, OrderBook.bucket, OrderBook.new.
      cbn [table]. now rewrite lookup_empty. }
    split; [|split; [|split]].
    + intros h. rewrite Hn. cbn. lia.
    + intros h s. rewrite Hn. intros [].
    + intros h node. unfold OrderBook.cache_bucket, OrderBook.new.
      cbn [cache_order_to_symbol]. rewrite lookup_empty. intros [].
    + intros s [].
  - exact (interpret_order_directory_ok _ _ _ _ _ _ IH H).
Qed.

Lemma lone_bucket (ob : OrderBook) (key : symbol_t) :
  directory_ok ob ->
  (OrderBook.bucket ob (OrderBook.hash_str key) = [] /\
   OrderBook.lookup ob key = None)
  \/ exists e,
       OrderBook.bucket ob (OrderBook.hash_str key) = [e]
       /\ OrderBook.lookup ob key = Some (OrderBook.hash_str key, 0%nat)
       /\ OrderBook.entry_at ob (OrderBook.lookup ob key) = Ok e
       /\ OrderBook.hash_str (symbol e) = OrderBook.hash_str key.
Proof.
  intros (D1 & D2 & _ & _).
  pose proof (D1 (OrderBook.hash_str key)) as Hl.
  pose proof (D2 (OrderBook.hash_str key)) as Hs.
  unfold symbols_of in Hl, Hs. unfold OrderBook.lookup, OrderBook.entry_at.
  destruct (OrderBook.bucket ob (OrderBook.hash_str key)) as [|e [|e2 l]] eqn:E.
  - left. split; reflexivity.
  - right. exists e. split; [reflexivity|]. split; [reflexivity|].
    rewrite E. split; [reflexivity|]. apply Hs. left. reflexivity.
  - cbn in Hl. lia.
Qed.

(** X16. In an order book the interpreter has reached, no bucket of the
    table ever chains two entries, so lookup never compares a symbol: it
    returns null when the bucket of the key is empty, and otherwise the one
    entry of the bucket, whose symbol has the hash of the key but need not
    be the key. Two symbols with the same hash share one entry. *)
Theorem lookup_returns_the_lone_entry (fuel : nat) (ob : OrderBook)
    (key : symbol_t) :
  reachable fuel ob ->
  (OrderBook.bucket ob (OrderBook.hash_str key) = [] /\
   OrderBook.lookup ob key = None)
  \/ exists e,
       OrderBook.bucket ob (OrderBook.hash_str key) = [e]
       /\ OrderBook.lookup ob key = Some (OrderBook.hash_str key, 0%nat)
       /\ OrderBook.entry_at ob (OrderBook.lookup ob key) = Ok e
       /\ OrderBook.hash_str (symbol e) = OrderBook.hash_str key.
Proof.
  intros Hr. exact (lone_bucket ob key (reachable_directory_ok fuel ob Hr)).
Qed.

Lemma colliding_book_reachable : reachable 1 colliding_book.
Proof.
  refine (reachable_step 1 _ (cmd_new 2 2 "AABK" LIMIT SELL 1000 1)
            true [Report 2 "Accept" None] colliding_book
            (reachable_step 1 OrderBook.new (cmd_new 1 1 "DTAA" LIMIT BUY 1000 1)
               true [Report 1 "Accept" None] _ (reachable_new 1) _) _).
  - vm_compute. reflexivity.
  - vm_compute. reflexivity.
Qed.

Lemma lookup_returns_the_lone_entry_witness :
  (OrderBook.bucket colliding_book (OrderBook.hash_str "AABK") = [] /\
   OrderBook.lookup colliding_book "AABK" = None)
  \/ exists e,
       OrderBook.bucket colliding_book (OrderBook.hash_str "AABK") = [e]
       /\ OrderBook.lookup colliding_book "AABK"
            = Some (OrderBook.hash_str "AABK", 0%nat)
       /\ OrderBook.entry_at colliding_book
            (OrderBook.lookup colliding_book "AABK") = Ok e
       /\ OrderBook.hash_str (symbol e) = OrderBook.hash_str "AABK".
Proof.
  apply (lookup_returns_the_lone_entry 1 colliding_book "AABK").
  exact colliding_book_reachable.
Defined.

(** X17. In an order book the interpreter has reached, a CANCEL on which
    interpret_order returns is never answered with CancelReject: when its
    timestamp is below the clock nothing is written, and otherwise
    CancelAccept is written, whether or not an order with that id is
    active. *)
Theorem cancel_is_never_rejected (fuel : nat) (ob : OrderBook) (o : Command.t)
    (b : bool) (outs : list line) (ob' : OrderBook) :
  reachable fuel ob ->
  Command.order_action o = CANCEL ->
  OrderInterpreter.interpret_order fuel ob o = Ok (b, outs, ob') ->
  outs = if Command.timestamp o <? timestamp ob then []
         else [Report (Command.order_id o) "CancelAccept" None].
Proof.
  intros Hr Ha H. pose proof (reachable_directory_ok _ _ Hr) as Hd.
  unfold OrderInterpreter.interpret_order in H. rewrite Ha in H.
  apply bind_Ok_inv in H as ([r ob1] & E & H). inversion H; subst. clear H.
  destruct (cancel_order_changed _ _ _ _ _ E)
    as [(Hlt & _ & ->)|(Hge & _ & _ & node & rest & Hc & ->)].
  - apply Z.ltb_lt in Hlt. rewrite Hlt. reflexivity.
  - destruct (Z.ltb_spec (Command.timestamp o) (timestamp ob)) as [|_]; [lia|].
    destruct (lone_bucket ob (hash_order_to_symbol.symbol node) Hd)
      as [[Hb _]|(e & _ & -> & _)]; [|reflexivity].
    exfalso. destruct Hd as (_ & _ & D3 & _).
    apply (D3 (OrderBook.hash (OrderBook.to_unsigned (Command.order_id o))) node);
      [rewrite Hc; left; reflexivity|].
    apply symbols_of_nil. exact Hb.
Qed.

Lemma cancel_is_never_rejected_witness :
  exists ob',
    OrderInterpreter.interpret_order 1 book_at_5 cancel_65537
      = Ok (true, [Report 65537 "CancelAccept" None], ob')
    /\ [Report 65537 "CancelAccept" None] =
       (if Command.timestamp cancel_65537 <? timestamp book_at_5 then []
        else [Report (Command.order_id cancel_65537) "CancelAccept" None]).
Proof.
  eexists. split.
  - vm_compute. reflexivity.
  - refine (cancel_is_never_rejected 1 book_at_5 cancel_65537 true
              [Report 65537 "CancelAccept" None] _ book_at_5_reachable _ _).
    + reflexivity.
    + vm_compute. reflexivity.
Defined.

(** X18. In an order book the interpreter has reached, every symbol of the
    list of symbol names has an entry in the table: the lookup the global
    query does for it never returns null, and the entry it returns has a
    symbol with the hash of the listed one. *)
Theorem listed_symbols_have_entries (fuel : nat) (ob : OrderBook) (s : symbol_t) :
  reachable fuel ob ->
  In s (cache_list_sorted_symbol_names ob) ->
  exists e,
    OrderBook.entry_at ob (OrderBook.lookup ob s) = Ok e
    /\ OrderBook.hash_str (symbol e) = OrderBook.hash_str s.
Proof.
  intros Hr Hin. pose proof (reachable_directory_ok _ _ Hr) as Hd.
  destruct (lone_bucket ob s Hd) as [[Hb _]|(e & _ & _ & He & Hh)].
  - exfalso. destruct Hd as (_ & _ & _ & D4).
    apply (D4 s Hin). apply symbols_of_nil. exact Hb.
  - exists e. split; assumption.
Qed.

Lemma listed_symbols_have_entries_witness :
  exists e,
    OrderBook.entry_at colliding_book (OrderBook.lookup colliding_book "DTAA")
      = Ok e
    /\ OrderBook.hash_str (symbol e) = OrderBook.hash_str "DTAA".
Proof.
  apply (listed_symbols_have_entries 1 colliding_book "DTAA").
  - exact colliding_book_reachable.
  - vm_compute. left. reflexivity.
Defined.

(** ** The lines interpret_order writes *)

(** X19. A NEW on which interpret_order returns is never answered with
    Reject: add_new_order is declared bool, so the status 303 it computes
    for a timestamp below the clock reaches interpret_order as 1, for which
    nothing is written; in every other case Accept is written. No check of
    the order id, the price or the quantity stands in the way. *)
Theorem new_is_never_rejected (fuel : nat) (ob : OrderBook) (o : Command.t)
    (b : bool) (outs : list line) (ob' : OrderBook) :
  Command.order_action o = NEW ->
  OrderInterpreter.interpret_order fuel ob o = Ok (b, outs, ob') ->
  outs = if Command.timestamp o <? timestamp ob then []
         else [Report (Command.order_id o) "Accept" None].
Proof.
  intros Ha H. unfold OrderInterpreter.interpret_order in H. rewrite Ha in H.
  apply bind_Ok_inv in H as ([r ob1] & E & H). inversion H; subst. clear H.
  destruct (add_new_order_clock _ _ _ _ _ E) as [(Hlt & _ & ->)|(Hge & _ & ->)].
  - apply Z.ltb_lt in Hlt. rewrite Hlt. reflexivity.
  - destruct (Z.ltb_spec (Command.timestamp o) (timestamp ob)) as [|_]; [lia|].
    reflexivity.
Qed.

Lemma new_is_never_rejected_witness :
  exists ob',
    OrderInterpreter.interpret_order 1 book_at_5
      (cmd_new 2 3 "AB" LIMIT SELL 1000 1) = Ok (true, [], ob')
    /\ [] = (if 3 <? timestamp book_at_5 then []
             else [Report 2 "Accept" None]).
Proof.
  eexists. split.
  - vm_compute. reflexivity.
  - refine (new_is_never_rejected 1 book_at_5
              (cmd_new 2 3 "AB" LIMIT SELL 1000 1) true [] _ _ _).
    + reflexivity.
    + vm_compute. reflexivity.
Defined.

(** X20. An AMEND on which interpret_order returns is never answered with
    AmmendAccept, and never with the rejection 101. When the bucket of its
    symbol has an entry, OrderEntry::ammend returns true, which reaches
    interpret_order as the status 1, and nothing is written, whether or
    not the order was found; the same holds for a timestamp below the
    clock (303). AmmendReject with 404 is written exactly when the
    timestamp is not below the clock and the lookup of the symbol returns
    null. *)
Theorem amend_is_never_acknowledged (fuel : nat) (ob : OrderBook)
    (o : Command.t) (b : bool) (outs : list line) (ob' : OrderBook) :
  Command.order_action o = AMEND ->
  OrderInterpreter.interpret_order fuel ob o = Ok (b, outs, ob') ->
  outs = if Command.timestamp o <? timestamp ob then []
         else match OrderBook.lookup ob (Command.symbol o) with
              | Some _ => []
              | None =>
                  [Report (Command.order_id o) "AmmendReject"
                     (Some (ORDER_DOES_NOT_EXIST, "Order does not exist"))]
              end.
Proof.
  intros Ha H. unfold OrderInterpreter.interpret_order in H. rewrite Ha in H.
  apply bind_Ok_inv in H as ([r ob1] & E & H). inversion H; subst. clear H.
  destruct (ammend_order_changed _ _ _ _ _ E) as [_ ->].
  destruct (Command.timestamp o <? timestamp ob); [reflexivity|].
  destruct (OrderBook.lookup ob (Command.symbol o)); reflexivity.
Qed.

Lemma amend_is_never_acknowledged_witness :
  exists ob',
    OrderInterpreter.interpret_order 1 book_at_5
      (cmd_amend 1 9 "AB" LIMIT BUY 1100 1) = Ok (true, [], ob')
    /\ [] = (if 9 <? timestamp book_at_5 then []
             else match OrderBook.lookup book_at_5 "AB" with
                  | Some _ => []
                  | None =>
                      [Report 1 "AmmendReject"
                         (Some (ORDER_DOES_NOT_EXIST, "Order does not exist"))]
                  end).
Proof.
  eexists. split.
  - vm_compute. reflexivity.
  - refine (amend_is_never_acknowledged 1 book_at_5
              (cmd_amend 1 9 "AB" LIMIT BUY 1100 1) true [] _ _ _).
    + reflexivity.
    + vm_compute. reflexivity.
Defined.

(** X21. A MATCH or a QUERY that names a symbol whose bucket is empty
    calls a method through the null pointer lookup returns: OrderBook::match
    with the format M,t,symbol (when the timestamp is not below the clock)
    and OrderBook::query with any of the three formats that name a symbol
    have no defined result. *)
Theorem unknown_symbol_is_dereferenced (fuel : nat) (ob : OrderBook)
    (o : Command.t) :
  OrderBook.lookup ob (Command.symbol o) = None ->
  (Command.format o = F_MATCH_TIMESTAMP_SYMBOL ->
   timestamp ob <= Command.timestamp o ->
   OrderBook.match_ fuel ob o = Undefined NullPointer
   /\ (Command.order_action o = MATCH ->
       OrderInterpreter.interpret_order fuel ob o = Undefined NullPointer))
  /\ (Command.format o = F_QUERY_SYMBOL \/
      Command.format o = F_QUERY_SYMBOL_TIMESTAMP \/
      Command.format o = F_QUERY_TIMESTAMP_SYMBOL ->
      OrderBook.query ob o = Undefined NullPointer
      /\ (Command.order_action o = QUERY ->
          OrderInterpreter.interpret_order fuel ob o = Undefined NullPointer)).
Proof.
  intros Hl. split.
  - intros Hf Hge.
    assert (Hm : OrderBook.match_ fuel ob o = Undefined NullPointer).
    { unfold OrderBook.match_.
      destruct (Z.ltb_spec (Command.timestamp o) (timestamp ob)) as [|_]; [lia|].
      rewrite Hf, Hl. reflexivity. }
    split; [exact Hm|]. intros Ha. unfold OrderInterpreter.interpret_order.
    rewrite Ha, Hm. reflexivity.
  - intros Hf.
    assert (Hq : OrderBook.query ob o = Undefined NullPointer).
    { unfold OrderBook.query.
      destruct Hf as [-> | [-> | ->]]; rewrite Hl; reflexivity. }
    split; [exact Hq|]. intros Ha. unfold OrderInterpreter.interpret_order.
    rewrite Ha, Hq. reflexivity.
Qed.

Lemma unknown_symbol_is_dereferenced_witness :
  OrderBook.match_ 1 book_at_5 (cmd_match F_MATCH_TIMESTAMP_SYMBOL 9 "XY")
    = Undefined NullPointer
  /\ OrderInterpreter.interpret_order 1 book_at_5
       (cmd_match F_MATCH_TIMESTAMP_SYMBOL 9 "XY") = Undefined NullPointer.
Proof.
  pose proof (unknown_symbol_is_dereferenced 1 book_at_5
                (cmd_match F_MATCH_TIMESTAMP_SYMBOL 9 "XY")) as H.
  destruct H as [H _]; [vm_compute; reflexivity|].
  destruct H as [H1 H2]; [reflexivity|vm_compute; discriminate|].
  split; [exact H1|apply H2; reflexivity].
Defined.

(** ** OrderMinMaxHeap: get_max_n_orders *)

Lemma rd_middle (sp : list Order) (x : Order) (rest : list Order) (a : nat) :
  a = length sp -> OrderMinMaxHeap.rd (sp ++ x :: rest) a = Ok x.
Proof.
  intros ->. unfold OrderMinMaxHeap.rd. now rewrite list_lookup_middle.
Qed.

Lemma wr_middle (tp : list Order) (y : Order) (rest : list Order) (d : Order)
    (b : nat) :
  b = length tp ->
  OrderMinMaxHeap.wr (tp ++ y :: rest) b d = Ok (tp ++ d :: rest).
Proof.
  intros ->. unfold OrderMinMaxHeap.wr.
  rewrite bool_decide_eq_true_2 by (rewrite length_app; cbn [length]; lia).
  f_equal. rewrite <- (Nat.add_0_r (length tp)) at 1.
  now rewrite insert_app_r.
Qed.

Lemma place_rest_spec (seg : list Order) :
  forall (sp junk tp trest : list Order) (a b : nat),
    a = length sp -> b = length tp -> (length seg <= length trest)%nat ->
    OrderMinMaxHeap.place_rest (length seg) (sp ++ seg ++ junk) (tp ++ trest) a b
    = Ok (tp ++ seg ++ drop (length seg) trest).
Proof.
  induction seg as [|x seg IH]; intros sp junk tp trest a b Ha Hb Hl.
  - reflexivity.
  - cbn [length OrderMinMaxHeap.place_rest].
    destruct trest as [|y rest]; [cbn in Hl; lia|].
    change ((x :: seg) ++ junk) with (x :: (seg ++ junk)).
    rewrite (rd_middle sp x (seg ++ junk) a Ha). cbn [bind].
    rewrite (wr_middle tp y rest x b Hb). cbn [bind].
    replace (sp ++ x :: seg ++ junk) with ((sp ++ [x]) ++ seg ++ junk)
      by (rewrite <- app_assoc; reflexivity).
    replace (tp ++ x :: rest) with ((tp ++ [x]) ++ rest)
      by (rewrite <- app_assoc; reflexivity).
    rewrite (IH (sp ++ [x]) junk (tp ++ [x]) rest (S a) (S b)).
    + rewrite <- app_assoc. reflexivity.
    + rewrite length_app. cbn [length]. lia.
    + rewrite length_app. cbn [length]. lia.
    + cbn [length] in Hl. lia.
Qed.

Lemma copy_place_rest (k : nat) :
  forall (src dst : list Order) (i : nat),
    OrderMinMaxHeap.copy k src dst i = OrderMinMaxHeap.place_rest k src dst i i.
Proof.
  induction k as [|k IH]; intros src dst i; [reflexivity|].
  cbn [OrderMinMaxHeap.copy OrderMinMaxHeap.place_rest].
  destruct (OrderMinMaxHeap.rd src i) as [x| |]; cbn [bind]; try reflexivity.
  destruct (OrderMinMaxHeap.wr dst i x) as [dst1| |]; cbn [bind]; try reflexivity.
  apply IH.
Qed.

Lemma insert_by_price_length (t : time_t) (d : Order) (l : list Order) :
  length (insert_by_price t d l) = S (length l).
Proof.
  induction l as [|x l IH]; [reflexivity|]. cbn [insert_by_price].
  destruct (OrderMinMaxHeap.has_precedence d x t); cbn [length]; [reflexivity|].
  now rewrite IH.
Qed.

Lemma insert_by_price_perm (t : time_t) (d : Order) (l : list Order) :
  insert_by_price t d l ≡ₚ d :: l.
Proof.
  induction l as [|x l IH]; [reflexivity|]. cbn [insert_by_price].
  destruct (OrderMinMaxHeap.has_precedence d x t); [reflexivity|].
  rewrite IH. apply Permutation_swap.
Qed.

Lemma insert_by_price_Forall (P : Order -> Prop) (t : time_t) (d : Order)
    (l : list Order) :
  P d -> Forall P l -> Forall P (insert_by_price t d l).
Proof.
  intros Hd Hl. induction Hl as [|x l Hx Hl IH]; cbn [insert_by_price].
  - constructor; [exact Hd|constructor].
  - destruct (OrderMinMaxHeap.has_precedence d x t).
    + constructor; [exact Hd|]. constructor; assumption.
    + constructor; assumption.
Qed.

Lemma insert_by_price_sorted (t : time_t) (d : Order) (l : list Order) :
  StronglySorted (cheaper_first t) l ->
  StronglySorted (cheaper_first t) (insert_by_price t d l).
Proof.
  induction 1 as [|x l Hs IH Hx]; cbn [insert_by_price].
  - constructor; constructor.
  - unfold OrderMinMaxHeap.has_precedence.
    destruct (Z.ltb_spec (Order.get_price d t) (Order.get_price x t)) as [Hlt|Hge].
    + constructor; [constructor; assumption|].
      constructor; [unfold cheaper_first; lia|].
      eapply Forall_impl; [exact Hx|]. unfold cheaper_first. intros y Hy. lia.
    + constructor; [exact IH|].
      apply insert_by_price_Forall; [exact Hge|exact Hx].
Qed.

(* the two loops that build t_stack, when the stack has room *)
Lemma place_then_rest (t : time_t) (n : nat) (d : Order) (mid : list Order) :
  forall (sp junk tp trest : list Order) (a b si : nat),
    a = length sp -> b = length tp -> a = b ->
    si = (a + length mid)%nat -> (si < n)%nat ->
    (length mid < length trest)%nat ->
    exists ts a' b',
      OrderMinMaxHeap.place (S (length mid)) d t n (sp ++ mid ++ junk)
        (tp ++ trest) a b si = Ok (ts, a', b', S si)
      /\ OrderMinMaxHeap.place_rest (S si - b') (sp ++ mid ++ junk) ts a' b'
         = Ok (tp ++ insert_by_price t d mid ++ drop (S (length mid)) trest).
Proof.
  induction mid as [|x mid IH]; intros sp junk tp trest a b si Ha Hb Hab Hsi Hn Hl;
    (destruct trest as [|y rest]; [cbn [length] in Hl; lia|]).
  - cbn [length] in Hsi. cbn [length OrderMinMaxHeap.place].
    rewrite (bool_decide_eq_true_2 (a = si)) by lia.
    rewrite (bool_decide_eq_true_2 (si < n)%nat) by exact Hn.
    cbn [andb bind]. rewrite (wr_middle tp y rest d b Hb). cbn [bind].
    eexists _, _, _. split; [reflexivity|].
    replace (S si - S b)%nat with 0%nat by lia. reflexivity.
  - cbn [length] in Hsi, Hl. cbn [length OrderMinMaxHeap.place].
    rewrite (bool_decide_eq_false_2 (a = si)) by lia. cbn [andb].
    change ((x :: mid) ++ junk) with (x :: (mid ++ junk)).
    rewrite (rd_middle sp x (mid ++ junk) a Ha). cbn [bind].
    destruct (OrderMinMaxHeap.has_precedence d x t) eqn:Hp.
    + rewrite (wr_middle tp y rest d b Hb). cbn [bind].
      eexists _, _, _. split; [reflexivity|].
      replace (S si - S b)%nat with (length (x :: mid)) by (cbn [length]; lia).
      replace (tp ++ d :: rest) with ((tp ++ [d]) ++ rest)
        by (rewrite <- app_assoc; reflexivity).
      change (sp ++ x :: mid ++ junk) with (sp ++ (x :: mid) ++ junk).
      rewrite (place_rest_spec (x :: mid) sp junk (tp ++ [d]) rest a (S b)).
      * cbn [insert_by_price]. rewrite Hp. rewrite <- app_assoc. reflexivity.
      * exact Ha.
      * rewrite length_app. cbn [length]. lia.
      * cbn [length]. lia.
    + rewrite (wr_middle tp y rest x b Hb). cbn [bind].
      replace (sp ++ x :: mid ++ junk) with ((sp ++ [x]) ++ mid ++ junk)
        by (rewrite <- app_assoc; reflexivity).
      replace (tp ++ x :: rest) with ((tp ++ [x]) ++ rest)
        by (rewrite <- app_assoc; reflexivity).
      destruct (IH (sp ++ [x]) junk (tp ++ [x]) rest (S a) (S b) si)
        as (ts & a' & b' & Hpl & Hre).
      * rewrite length_app. cbn [length]. lia.
      * rewrite length_app. cbn [length]. lia.
      * lia.
      * lia.
      * exact Hn.
      * lia.
      * exists ts, a', b'. split; [exact Hpl|]. rewrite Hre.
        cbn [insert_by_price]. rewrite Hp. rewrite <- app_assoc. reflexivity.
Qed.

(* one turn of the loop of get_max_n_orders for an active order, when the
   stack has room *)
Lemma step_with_room (t : time_t) (n : nat) (d : Order) (mid junk : list Order) :
  length (mid ++ junk) = n -> (length mid < n)%nat ->
  Order.active_at d t = true ->
  OrderMinMaxHeap.get_max_n_orders_step t n d (mid ++ junk) (length mid)
  = Ok (insert_by_price t d mid ++ drop 1 junk, S (length mid)).
Proof.
  intros Hlen Hroom Hact. unfold OrderMinMaxHeap.get_max_n_orders_step.
  rewrite Hact. cbn [negb].
  rewrite (bool_decide_eq_true_2 (length mid < n)%nat) by exact Hroom.
  cbn [bind].
  assert (Hrep : (length mid < length (replicate n Order.new_default))%nat)
    by (rewrite length_replicate; exact Hroom).
  destruct (place_then_rest t n d mid [] junk [] (replicate n Order.new_default)
              0%nat 0%nat (length mid) eq_refl eq_refl eq_refl eq_refl Hroom Hrep)
    as (ts & a' & b' & Hpl & Hre).
  cbn [app] in Hpl, Hre. rewrite Hpl. cbn [bind]. rewrite Hre. cbn [bind].
  rewrite copy_place_rest.
  rewrite <- (insert_by_price_length t d mid).
  pose proof (place_rest_spec (insert_by_price t d mid) []
                (drop (length (insert_by_price t d mid))
                   (replicate n Order.new_default))
                [] (mid ++ junk) 0%nat 0%nat eq_refl eq_refl) as Hc.
  cbn [app] in Hc. rewrite Hc.
  - cbn [bind]. rewrite insert_by_price_length.
    replace (S (length mid)) with (length mid + 1)%nat by lia.
    rewrite <- drop_drop, drop_app_length. reflexivity.
  - rewrite insert_by_price_length, Hlen. lia.
Qed.

Lemma loop_with_room (h : OrderMinMaxHeap) (t : time_t) (n : nat) (k : nat) :
  forall (d : Z) (mid junk : list Order),
    0 <= d -> d + Z.of_nat k <= MAX_NUM_ORDERS_IN_HEAP ->
    length (mid ++ junk) = n ->
    (length mid +
     length (List.filter (fun o => Order.active_at o t) (slots_from h d k))
     <= n)%nat ->
    exists junk',
      OrderMinMaxHeap.get_max_n_orders_loop k h t n d (mid ++ junk) (length mid)
      = Ok (fold_left (fun acc o => insert_by_price t o acc)
              (List.filter (fun o => Order.active_at o t) (slots_from h d k))
              mid ++ junk',
            (length mid +
             length (List.filter (fun o => Order.active_at o t)
                       (slots_from h d k)))%nat).
Proof.
  induction k as [|k IH]; intros d mid junk Hd Hk Hlen Hfit.
  - exists junk. cbn. now rewrite Nat.add_0_r.
  - cbn [OrderMinMaxHeap.get_max_n_orders_loop slots_from List.filter] in *.
    rewrite (get_data_ok h d) by lia. cbn [bind].
    set (o := default Order.new_default (data h !! d)) in *.
    destruct (Order.active_at o t) eqn:Hact.
    + cbn [length] in Hfit.
      rewrite (step_with_room t n o mid junk Hlen ltac:(lia) Hact). cbn [bind].
      destruct (IH (d + 1) (insert_by_price t o mid) (drop 1 junk))
        as (junk' & Hloop); [lia|lia| |rewrite insert_by_price_length; lia|].
      { rewrite length_app, insert_by_price_length, length_drop.
        rewrite length_app in Hlen. lia. }
      rewrite insert_by_price_length in Hloop. rewrite Hloop.
      exists junk'. cbn [fold_left length]. f_equal. f_equal. lia.
    + unfold OrderMinMaxHeap.get_max_n_orders_step. rewrite Hact.
      cbn [negb bind].
      destruct (IH (d + 1) mid junk) as (junk' & Hloop); [lia|lia|exact Hlen|exact Hfit|].
      rewrite Hloop. exists junk'. reflexivity.
Qed.

Lemma fold_insert_perm (t : time_t) (l acc : list Order) :
  fold_left (fun acc o => insert_by_price t o acc) l acc ≡ₚ acc ++ l.
Proof.
  revert acc. induction l as [|x l IH]; intros acc; cbn [fold_left].
  - now rewrite app_nil_r.
  - rewrite IH, insert_by_price_perm.
    rewrite (Permutation_middle acc l x). reflexivity.
Qed.

Lemma fold_insert_sorted (t : time_t) (l acc : list Order) :
  StronglySorted (cheaper_first t) acc ->
  StronglySorted (cheaper_first t)
    (fold_left (fun acc o => insert_by_price t o acc) l acc).
Proof.
  revert acc. induction l as [|x l IH]; intros acc Hs; cbn [fold_left];
    [exact Hs|]. apply IH, insert_by_price_sorted, Hs.
Qed.

Lemma get_max_n_orders_spec (h : OrderMinMaxHeap) (t : time_t)
    (output : list Order) (n : nat) :
  0 <= matched_ptr h <= MAX_NUM_ORDERS_IN_HEAP ->
  (length (active_slots h t) <= n)%nat ->
  (length (active_slots h t) <= length output)%nat ->
  exists out,
    OrderMinMaxHeap.get_max_n_orders h t output n
      = Ok (out, length (active_slots h t))
    /\ take (length (active_slots h t)) out ≡ₚ active_slots h t
    /\ StronglySorted (cheaper_first t) (take (length (active_slots h t)) out)
    /\ drop (length (active_slots h t)) out
       = drop (length (active_slots h t)) output
    /\ length out = length output.
Proof.
  intros Hm Hn Hout. unfold OrderMinMaxHeap.get_max_n_orders.
  destruct (loop_with_room h t n (Z.to_nat (matched_ptr h)) 0 []
              (replicate n Order.new_default))
    as (junk' & Hloop);
    [lia|lia|cbn [app]; apply length_replicate|exact Hn|].
  cbn [app length Nat.add] in Hloop. fold (active_slots h t) in Hloop.
  rewrite Hloop. cbn [bind].
  set (sorted := fold_left (fun acc o => insert_by_price t o acc)
                   (active_slots h t) []) in *.
  assert (Hp : sorted ≡ₚ active_slots h t) by apply (fold_insert_perm t _ []).
  assert (Hl : length sorted = length (active_slots h t)) by now rewrite Hp.
  rewrite copy_place_rest. rewrite <- Hl.
  pose proof (place_rest_spec sorted [] junk' [] output 0%nat 0%nat
                eq_refl eq_refl) as Hc.
  cbn [app] in Hc. rewrite Hc by lia. cbn [bind].
  eexists. split; [reflexivity|].
  rewrite take_app_length, drop_app_length.
  split; [exact Hp|]. split; [apply fold_insert_sorted; constructor|].
  split; [reflexivity|].
  rewrite length_app, length_drop. lia.
Qed.

(** X22. get_max_n_orders when the heap has at most n orders that are
    active at t in its slots below matched_ptr, matched_ptr is in the
    array and output has room for them: the call returns their number, the
    first slots of output hold exactly these orders, each once, in
    ascending order of their price at t (for the buy side too), and the
    rest of output is untouched. *)
Theorem get_max_n_orders_sorts_by_price (h : OrderMinMaxHeap) (t : time_t)
    (output : list Order) (n : nat) :
  0 <= matched_ptr h <= MAX_NUM_ORDERS_IN_HEAP ->
  (length (active_slots h t) <= n)%nat ->
  (length (active_slots h t) <= length output)%nat ->
  exists out,
    OrderMinMaxHeap.get_max_n_orders h t output n
      = Ok (out, length (active_slots h t))
    /\ take (length (active_slots h t)) out ≡ₚ active_slots h t
    /\ StronglySorted (cheaper_first t) (take (length (active_slots h t)) out)
    /\ drop (length (active_slots h t)) out
       = drop (length (active_slots h t)) output.
Proof.
  intros Hm Hn Hout.
  destruct (get_max_n_orders_spec h t output n Hm Hn Hout)
    as (out & H1 & H2 & H3 & H4 & _).
  exists out. repeat split; assumption.
Qed.

Lemma get_max_n_orders_sorts_by_price_witness :
  exists out,
    OrderMinMaxHeap.get_max_n_orders three_buys_heap (-1)
      (replicate 5 Order.new_default) 5
      = Ok (out, length (active_slots three_buys_heap (-1)))
    /\ take (length (active_slots three_buys_heap (-1))) out
         ≡ₚ active_slots three_buys_heap (-1)
    /\ StronglySorted (cheaper_first (-1))
         (take (length (active_slots three_buys_heap (-1))) out)
    /\ drop (length (active_slots three_buys_heap (-1))) out
       = drop (length (active_slots three_buys_heap (-1)))
           (replicate 5 Order.new_default).
Proof.
  apply (get_max_n_orders_sorts_by_price three_buys_heap (-1)
           (replicate 5 Order.new_default) 5).
  - vm_compute. split; discriminate.
  - vm_compute. lia.
  - vm_compute. lia.
Defined.

Lemma place_overrun (t : time_t) (n : nat) (d : Order) (mid : list Order) :
  forall (sp tp trest : list Order) (a b : nat),
    a = length sp -> b = length tp -> n = (a + length mid)%nat ->
    Forall (fun x => OrderMinMaxHeap.has_precedence d x t = false) mid ->
    (length mid <= length trest)%nat ->
    OrderMinMaxHeap.place (S (length mid)) d t n (sp ++ mid) (tp ++ trest) a b n
    = Undefined OutOfBounds.
Proof.
  induction mid as [|x mid IH]; intros sp tp trest a b Ha Hb Hn Hall Hl.
  - cbn [length] in Hn. cbn [length OrderMinMaxHeap.place].
    rewrite (bool_decide_eq_false_2 (n < n)%nat) by lia.
    rewrite andb_false_r. unfold OrderMinMaxHeap.rd.
    rewrite app_nil_r, lookup_ge_None_2 by lia. reflexivity.
  - cbn [length] in Hn, Hl. cbn [length OrderMinMaxHeap.place].
    destruct trest as [|y rest]; [cbn [length] in Hl; lia|].
    rewrite (bool_decide_eq_false_2 (a = n)) by lia. cbn [andb].
    rewrite (rd_middle sp x mid a Ha). cbn [bind].
    inversion Hall as [|x' mid' Hx Hmid]; subst. rewrite Hx.
    rewrite (wr_middle tp y rest x _ eq_refl). cbn [bind].
    replace (sp ++ x :: mid) with ((sp ++ [x]) ++ mid)
      by (rewrite <- app_assoc; reflexivity).
    replace (tp ++ x :: rest) with ((tp ++ [x]) ++ rest)
      by (rewrite <- app_assoc; reflexivity).
    apply IH.
    + rewrite length_app. cbn [length]. lia.
    + rewrite length_app. cbn [length]. lia.
    + lia.
    + exact Hmid.
    + cbn [length] in Hl. lia.
Qed.

(** X23. One turn of the loop of get_max_n_orders for an order that is
    active at t when the stack is already full (stack_i = n). If the price
    of the order is above that of the last order of the stack, and not
    below any price in the stack, the loop that places it runs past the
    stack and reads stack[n], outside the array. Otherwise t_stack is left
    as allocated and is copied over the stack all the same: the n orders
    collected so far are replaced by n default orders. *)
Theorem get_max_n_orders_step_on_full_stack (t : time_t) (d : Order)
    (front : list Order) (lastx : Order) :
  Order.active_at d t = true ->
  (Order.get_price lastx t < Order.get_price d t ->
   Forall (fun x => Order.get_price x t <= Order.get_price d t) front ->
   OrderMinMaxHeap.get_max_n_orders_step t (length (front ++ [lastx])) d
     (front ++ [lastx]) (length (front ++ [lastx]))
   = Undefined OutOfBounds)
  /\ (Order.get_price d t <= Order.get_price lastx t ->
      OrderMinMaxHeap.get_max_n_orders_step t (length (front ++ [lastx])) d
        (front ++ [lastx]) (length (front ++ [lastx]))
      = Ok (replicate (length (front ++ [lastx])) Order.new_default,
            length (front ++ [lastx]))).
Proof.
  intros Hact.
  set (stack := front ++ [lastx]). set (n := length stack).
  assert (Hn : n = S (length front)).
  { unfold n, stack. rewrite length_app. cbn [length]. lia. }
  assert (Hlast : OrderMinMaxHeap.rd stack (n - 1) = Ok lastx).
  { unfold stack. apply rd_middle. lia. }
  unfold OrderMinMaxHeap.get_max_n_orders_step. rewrite Hact. cbn [negb].
  rewrite (bool_decide_eq_false_2 (n < n)%nat) by lia.
  rewrite (bool_decide_eq_true_2 (1 <= n)%nat) by lia.
  rewrite Hlast. cbn [bind]. unfold OrderMinMaxHeap.has_precedence.
  split.
  - intros Hlt Hall. apply Z.ltb_lt in Hlt as Hlt'. rewrite Hlt'.
    pose proof (place_overrun t n d stack [] [] (replicate n Order.new_default)
                  0%nat 0%nat eq_refl eq_refl eq_refl) as Hp.
    cbn [app] in Hp. fold n in Hp. rewrite Hp; [reflexivity| |].
    + unfold stack. apply Forall_app. split.
      * eapply Forall_impl; [exact Hall|]. intros x Hx.
        unfold OrderMinMaxHeap.has_precedence. apply Z.ltb_ge. exact Hx.
      * constructor; [|constructor].
        unfold OrderMinMaxHeap.has_precedence. apply Z.ltb_ge. lia.
    + rewrite length_replicate. lia.
  - intros Hge. apply Z.ltb_ge in Hge as Hge'. rewrite Hge'. cbn [bind].
    rewrite copy_place_rest.
    pose proof (place_rest_spec (replicate n Order.new_default) [] [] [] stack
                  0%nat 0%nat eq_refl eq_refl) as Hc.
    rewrite length_replicate in Hc. cbn [app] in Hc. rewrite app_nil_r in Hc.
    rewrite Hc by lia. cbn [bind].
    replace (drop n stack) with (@nil Order) by (symmetry; apply drop_all).
    rewrite app_nil_r. reflexivity.
Qed.

Lemma get_max_n_orders_step_on_full_stack_witness :
  OrderMinMaxHeap.get_max_n_orders_step (-1)
    (length ([Order.new 1 LIMIT 1 1000 1] ++ [Order.new 2 LIMIT 2 2000 1]))
    (Order.new 3 LIMIT 3 3000 1)
    ([Order.new 1 LIMIT 1 1000 1] ++ [Order.new 2 LIMIT 2 2000 1])
    (length ([Order.new 1 LIMIT 1 1000 1] ++ [Order.new 2 LIMIT 2 2000 1]))
  = Undefined OutOfBounds
  /\ OrderMinMaxHeap.get_max_n_orders_step (-1)
       (length ([Order.new 1 LIMIT 1 1000 1] ++ [Order.new 2 LIMIT 2 2000 1]))
       (Order.new 3 LIMIT 3 1500 1)
       ([Order.new 1 LIMIT 1 1000 1] ++ [Order.new 2 LIMIT 2 2000 1])
       (length ([Order.new 1 LIMIT 1 1000 1] ++ [Order.new 2 LIMIT 2 2000 1]))
     = Ok (replicate
             (length ([Order.new 1 LIMIT 1 1000 1] ++ [Order.new 2 LIMIT 2 2000 1]))
             Order.new_default,
           length ([Order.new 1 LIMIT 1 1000 1] ++ [Order.new 2 LIMIT 2 2000 1])).
Proof.
  split.
  - apply (proj1 (get_max_n_orders_step_on_full_stack (-1)
                    (Order.new 3 LIMIT 3 3000 1)
                    [Order.new 1 LIMIT 1 1000 1] (Order.new 2 LIMIT 2 2000 1)
                    eq_refl)).
    + vm_compute. reflexivity.
    + constructor; [vm_compute; discriminate|constructor].
  - apply (proj2 (get_max_n_orders_step_on_full_stack (-1)
                    (Order.new 3 LIMIT 3 1500 1)
                    [Order.new 1 LIMIT 1 1000 1] (Order.new 2 LIMIT 2 2000 1)
                    eq_refl)).
    vm_compute. discriminate.
Defined.

(** ** OrderEntry: query *)

Lemma query_rows_symbols (e : OrderEntry) (t : time_t)
    (top_buys min_sells : list Order) (num_buys num_sells : nat) (k : nat) :
  forall i : nat,
    (num_buys <= length top_buys)%nat -> (num_sells <= length min_sells)%nat ->
    exists rows,
      OrderEntry.query_rows k e t top_buys min_sells num_buys num_sells i
        = Ok rows
      /\ row_symbols rows = replicate k (symbol e)
      /\ length rows = k.
Proof.
  induction k as [|k IH]; intros i Hb Hs.
  - exists []. repeat split.
  - cbn [OrderEntry.query_rows]. unfold OrderEntry.query_row.
    assert (Hrb : forall i, (i < num_buys)%nat ->
                    exists o, OrderMinMaxHeap.rd top_buys i = Ok o).
    { intros j Hj. unfold OrderMinMaxHeap.rd.
      destruct (lookup_lt_is_Some_2 top_buys j ltac:(lia)) as [o ->]. now exists o. }
    assert (Hrs : forall i, (i < num_sells)%nat ->
                    exists o, OrderMinMaxHeap.rd min_sells i = Ok o).
    { intros j Hj. unfold OrderMinMaxHeap.rd.
      destruct (lookup_lt_is_Some_2 min_sells j ltac:(lia)) as [o ->]. now exists o. }
    destruct (IH (S i) Hb Hs) as (rows & Hrows & Hsym & Hlen).
    destruct (decide (i < num_buys)%nat) as [Hib|Hib];
      [rewrite (bool_decide_eq_true_2 _ Hib); destruct (Hrb i Hib) as [ob ->]
      |rewrite (bool_decide_eq_false_2 _ Hib)];
      cbn [bind];
      (destruct (decide (i < num_sells)%nat) as [His|His];
       [rewrite (bool_decide_eq_true_2 _ His); destruct (Hrs i His) as [os ->]
       |rewrite (bool_decide_eq_false_2 _ His)]);
      cbn [bind]; rewrite Hrows; cbn [bind];
      (eexists; split; [reflexivity|]; split;
       [cbn [row_symbols flat_map app replicate]; f_equal; exact Hsym
       |cbn [length]; now rewrite Hlen]).
Qed.

(** X24. OrderEntry::query when each side has at most five orders that
    are active at t (and matched_ptr of each heap is in its array): the
    call returns ACCEPT and writes one row per rank, as many rows as the
    larger of the two numbers of active orders, each for the symbol of the
    entry. *)
Theorem query_writes_a_row_per_rank (e : OrderEntry) (t : time_t) :
  0 <= matched_ptr (buys e) <= MAX_NUM_ORDERS_IN_HEAP ->
  0 <= matched_ptr (sells e) <= MAX_NUM_ORDERS_IN_HEAP ->
  (length (active_slots (buys e) t) <= 5)%nat ->
  (length (active_slots (sells e) t) <= 5)%nat ->
  exists rows,
    OrderEntry.query e t = Ok (ACCEPT, rows)
    /\ length rows = Nat.max (length (active_slots (buys e) t))
                             (length (active_slots (sells e) t))
    /\ row_symbols rows = replicate (length rows) (symbol e).
Proof.
  intros Hmb Hms Hb Hs. unfold OrderEntry.query.
  destruct (get_max_n_orders_spec (buys e) t (replicate 5 Order.new_default) 5
              Hmb Hb) as (tb & Eb & _ & _ & _ & Lb);
    [rewrite length_replicate; exact Hb|].
  destruct (get_max_n_orders_spec (sells e) t (replicate 5 Order.new_default) 5
              Hms Hs) as (ms & Es & _ & _ & _ & Ls);
    [rewrite length_replicate; exact Hs|].
  rewrite Eb. cbn [bind]. rewrite Es. cbn [bind].
  rewrite length_replicate in Lb, Ls.
  set (nb := length (active_slots (buys e) t)) in *.
  set (ns := length (active_slots (sells e) t)) in *.
  destruct (query_rows_symbols e t tb ms nb ns
              (if (ns <? nb)%nat then nb else ns) 0%nat)
    as (rows & Hrows & Hsym & Hlen); [lia|lia|].
  rewrite Hrows. cbn [bind]. exists rows. split; [reflexivity|].
  assert (Hmax : (if (ns <? nb)%nat then nb else ns) = Nat.max nb ns).
  { destruct (Nat.ltb_spec ns nb); lia. }
  split; [now rewrite Hlen|]. now rewrite Hlen.
Qed.

Lemma query_writes_a_row_per_rank_witness :
  exists rows,
    OrderEntry.query two_buys_entry (-1) = Ok (ACCEPT, rows)
    /\ length rows = Nat.max (length (active_slots (buys two_buys_entry) (-1)))
                             (length (active_slots (sells two_buys_entry) (-1)))
    /\ row_symbols rows = replicate (length rows) (symbol two_buys_entry).
Proof.
  apply (query_writes_a_row_per_rank two_buys_entry (-1)).
  - vm_compute. split; discriminate.
  - vm_compute. split; discriminate.
  - vm_compute. lia.
  - vm_compute. lia.
Defined.

(** ** The field parsers *)

Lemma match_symbol_loop_spec (letters : list Ascii.ascii) (rest : string) :
  Forall (fun a => Parser.is_upper a = true) letters ->
  Parser.is_upper (first_char rest) = false ->
  forall sym : list Ascii.ascii,
    Parser.match_symbol_loop (prepend letters rest) sym =
      if (length (sym ++ letters) =? 0)%nat then Ok (false, rest, None)
      else if (length (sym ++ letters) <? 4)%nat
           then Ok (true, rest, Some (String.string_of_list_ascii (sym ++ letters)))
           else Undefined OutOfBounds.
Proof.
  intros Hall Hrest. induction Hall as [|a letters Ha Hall IH]; intros sym.
  - cbn [prepend fold_right]. rewrite app_nil_r.
    assert (Hd : Parser.match_symbol_loop rest sym
                 = Parser.match_symbol_default rest sym).
    { destruct rest as [|b rest']; [reflexivity|].
      cbn [Parser.match_symbol_loop]. cbn [first_char] in Hrest.
      now rewrite Hrest. }
    rewrite Hd. unfold Parser.match_symbol_default.
    destruct sym as [|x sym]; reflexivity.
  - cbn [prepend fold_right Parser.match_symbol_loop]. rewrite Ha.
    fold (prepend letters rest).
    destruct (Nat.ltb_spec (length sym) 4) as [Hlt|Hge].
    + rewrite IH, <- app_assoc. reflexivity.
    + rewrite length_app. cbn [length].
      destruct (Nat.eqb_spec (length sym + S (length letters)) 0) as [|_]; [lia|].
      destruct (Nat.ltb_spec (length sym + S (length letters)) 4) as [|_]; [lia|].
      reflexivity.
Qed.

(** X25. match_symbol on a run of capital letters followed by a character
    that is none (the terminator included). With no letter nothing is
    produced and the pointer stays; with one to three letters the symbol is
    these letters and the pointer is left after them; with four letters or
    more the function writes outside its buffer of four characters (the
    terminator of a four-letter symbol goes to sym[4]). *)
Theorem match_symbol_takes_up_to_three_letters (letters : list Ascii.ascii)
    (rest : string) :
  Forall (fun a => Parser.is_upper a = true) letters ->
  Parser.is_upper (first_char rest) = false ->
  Parser.match_symbol (prepend letters rest) =
    if (length letters =? 0)%nat then Ok (false, rest, None)
    else if (length letters <? 4)%nat
         then Ok (true, rest, Some (String.string_of_list_ascii letters))
         else Undefined OutOfBounds.
Proof.
  intros Hall Hrest. unfold Parser.match_symbol.
  exact (match_symbol_loop_spec letters rest Hall Hrest []).
Qed.

Lemma match_symbol_takes_up_to_three_letters_witness :
  Parser.match_symbol "ALBA,L,S,60.90,100" = Undefined OutOfBounds.
Proof.
  apply (match_symbol_takes_up_to_three_letters
           (String.list_ascii_of_string "ALBA") ",L,S,60.90,100").
  - repeat constructor.
  - reflexivity.
Defined.

Lemma match_order_id_loop_spec (ds : list Ascii.ascii) (rest : string) :
  Forall (fun a => Parser.is_digit a = true) ds ->
  Parser.is_digit (first_char rest) = false ->
  forall (v : Z) (moved : bool),
    Parser.match_order_id_loop (prepend ds rest) (Parser.to_uint64 v) moved =
      (moved || negb (length ds =? 0)%nat || Parser.is_comma (first_char rest),
       rest,
       Parser.to_uint64
         (fold_left (fun v a => v * 10 + (Z.of_nat (Ascii.nat_of_ascii a) - 48))
            ds v)).
Proof.
  intros Hall Hrest. induction Hall as [|a ds Ha Hall IH]; intros v moved.
  - cbn [prepend fold_right fold_left length Nat.eqb negb].
    rewrite orb_false_r.
    destruct rest as [|b rest']; cbn [Parser.match_order_id_loop first_char].
    + cbn. now rewrite orb_false_r.
    + cbn [first_char] in Hrest. rewrite Hrest.
      destruct (Parser.is_comma b); [now rewrite orb_true_r|now rewrite orb_false_r].
  - cbn [prepend fold_right Parser.match_order_id_loop fold_left]. rewrite Ha.
    fold (prepend ds rest).
    assert (Hw : Parser.to_uint64
                   (Parser.to_uint64 (Parser.to_uint64 v * 10)
                    + (Z.of_nat (Ascii.nat_of_ascii a) - 48))
                 = Parser.to_uint64
                     (v * 10 + (Z.of_nat (Ascii.nat_of_ascii a) - 48))).
    { unfold Parser.to_uint64.
      generalize (Z.of_nat (Ascii.nat_of_ascii a) - 48). intros k.
      Z.div_mod_to_equations. lia. }
    rewrite Hw, IH. cbn [length Nat.eqb negb].
    now rewrite orb_true_r.
Qed.

(** X26. match_order_id on a run of digits followed by a character that
    is none. The pointer is left after the digits and the id is the number
    they write in base ten, modulo 2^64. The id is produced when there is
    a digit, and also when there is none but the next character is a comma:
    an empty id field is taken as the id 0. *)
Theorem match_order_id_reads_decimal (ds : list Ascii.ascii) (rest : string) :
  Forall (fun a => Parser.is_digit a = true) ds ->
  Parser.is_digit (first_char rest) = false ->
  Parser.match_order_id (prepend ds rest) =
    (negb (length ds =? 0)%nat || Parser.is_comma (first_char rest),
     rest,
     decimal ds mod 18446744073709551616).
Proof.
  intros Hall Hrest. unfold Parser.match_order_id.
  change 0 with (Parser.to_uint64 0) at 1.
  rewrite (match_order_id_loop_spec ds rest Hall Hrest 0 false).
  reflexivity.
Qed.

Lemma match_order_id_reads_decimal_witness :
  Parser.match_order_id ",0000002,ALN" = (true, ",0000002,ALN", 0).
Proof.
  apply (match_order_id_reads_decimal [] ",0000002,ALN").
  - constructor.
  - reflexivity.
Defined.

Lemma hash_base26 (x : string) :
  forall r r' : Z,
    r mod 65536 = r' mod 65536 ->
    OrderBook.hash (OrderBook.hash_str_loop x r)
      = (1279 * base26 x r' + 2203) mod 65536.
Proof.
  induction x as [|c xi IH]; intros r r' Hr;
    cbn [OrderBook.hash_str_loop base26].
  - rewrite hash_mod. Z.div_mod_to_equations. lia.
  - apply IH. unfold OrderBook.to_unsigned.
    generalize (Z.of_nat (Ascii.nat_of_ascii c) - 97). intros k.
    Z.div_mod_to_equations. lia.
Qed.

Lemma code_inj (a b : Ascii.ascii) :
  Z.of_nat (Ascii.nat_of_ascii a) = Z.of_nat (Ascii.nat_of_ascii b) -> a = b.
Proof.
  intros H. apply Nat2Z.inj in H.
  rewrite <- (Ascii.ascii_nat_embedding a), <- (Ascii.ascii_nat_embedding b).
  now rewrite H.
Qed.

Lemma is_upper_bounds (a : Ascii.ascii) :
  Parser.is_upper a = true -> 65 <= Z.of_nat (Ascii.nat_of_ascii a) <= 90.
Proof. unfold Parser.is_upper. intros H. apply andb_true_iff in H. lia. Qed.

Lemma hash_str_capital_inj (s s' : string) :
  capital_symbol s -> capital_symbol s' ->
  OrderBook.hash_str s = OrderBook.hash_str s' -> s = s'.
Proof.
  intros [Hu Hl] [Hu' Hl'] Hh. unfold OrderBook.hash_str in Hh.
  rewrite (hash_base26 s 0 0 eq_refl), (hash_base26 s' 0 0 eq_refl) in Hh.
  assert (Hb : base26 s 0 mod 65536 = base26 s' 0 mod 65536)
    by (Z.div_mod_to_equations; lia).
  clear Hh.
  destruct s as [|a [|b [|c [|? ?]]]]; cbn [String.length] in Hl; try lia;
    destruct s' as [|a' [|b' [|c' [|? ?]]]]; cbn [String.length] in Hl'; try lia;
    cbn [all_upper] in Hu, Hu'; cbn [base26] in Hb;
    repeat match goal with
           | H : _ && _ = true |- _ => apply andb_true_iff in H as [? ?]
           end;
    repeat match goal with
           | H : Parser.is_upper _ = true |- _ => apply is_upper_bounds in H
           end;
    first
      [ solve [ repeat match goal with
                       | |- String _ _ = String _ _ => f_equal
                       end;
                try reflexivity;
                apply code_inj; Z.div_mod_to_equations; lia ]
      | exfalso; Z.div_mod_to_equations; lia ].
Qed.

(** X27. hash(char* x) tells apart the symbols match_symbol can store: two
    symbols of one to three capital letters with the same hash are the
    same symbol, so that no two of them share a bucket of the table. *)
Theorem hash_separates_capital_symbols (s s' : string) :
  capital_symbol s -> capital_symbol s' ->
  OrderBook.hash_str s = OrderBook.hash_str s' -> s = s'.
Proof. exact (hash_str_capital_inj s s'). Qed.

Lemma hash_separates_capital_symbols_witness : "ALN" = "ALN".
Proof.
  apply (hash_separates_capital_symbols "ALN" "ALN").
  - split; [reflexivity|cbn; lia].
  - split; [reflexivity|cbn; lia].
  - reflexivity.
Defined.

(** X28. In an order book the interpreter has reached whose table holds
    symbols of one to three capital letters only, as match_symbol stores
    them, lookup is exact on such symbols: it returns null when no entry
    of the table has the symbol, and otherwise the entry of that very
    symbol. *)
Theorem lookup_is_exact_on_capital_symbols (fuel : nat) (ob : OrderBook)
    (key : symbol_t) :
  reachable fuel ob ->
  (forall h s, In s (symbols_of ob h) -> capital_symbol s) ->
  capital_symbol key ->
  (OrderBook.lookup ob key = None /\ forall h, ~ In key (symbols_of ob h))
  \/ exists e,
       OrderBook.entry_at ob (OrderBook.lookup ob key) = Ok e
       /\ symbol e = key.
Proof.
  intros Hr Hcap Hkey. pose proof (reachable_directory_ok _ _ Hr) as Hd.
  destruct (lone_bucket ob key Hd) as [[Hb Hl]|(e & Hb & _ & He & Hh)].
  - left. split; [exact Hl|]. intros h Hin.
    destruct Hd as (_ & D2 & _ & _). pose proof (D2 h key Hin) as <-.
    unfold symbols_of in Hin. rewrite Hb in Hin. destruct Hin.
  - right. exists e. split; [exact He|].
    apply hash_str_capital_inj; [|exact Hkey|exact Hh].
    apply (Hcap (OrderBook.hash_str key)). unfold symbols_of. rewrite Hb.
    left. reflexivity.
Qed.

Lemma lookup_is_exact_on_capital_symbols_witness :
  (OrderBook.lookup book_at_5 "AB" = None
   /\ forall h, ~ In "AB" (symbols_of book_at_5 h))
  \/ exists e,
       OrderBook.entry_at book_at_5 (OrderBook.lookup book_at_5 "AB") = Ok e
       /\ symbol e = "AB".
Proof.
  apply (lookup_is_exact_on_capital_symbols 1 book_at_5 "AB").
  - exact book_at_5_reachable.
  - intros h s Hin.
    destruct (decide (h = OrderBook.hash_str "AB")) as [->|Hne].
    + vm_compute in Hin. destruct Hin as [<-|[]].
      split; [reflexivity|cbn; lia].
    + exfalso. unfold symbols_of, OrderBook.bucket in Hin.
      assert (Ht : table book_at_5 !! h = None).
      { change (table book_at_5)
          with (<[OrderBook.hash_str "AB" := [entry_at_5]]>
                  (∅ : gmap Z (list OrderEntry))).
        rewrite lookup_insert_ne by congruence. apply lookup_empty. }
      rewrite Ht in Hin. destruct Hin.
  - split; [reflexivity|cbn; lia].
Defined.

(** ** The order books the interpreter reaches *)

(** X29. The invariant of the order book. In every order book reached
    from the empty one through interpret_order, the clock is not negative,
    and in every entry of the table both heaps have the right shape (the
    cursors in the array with active_ptr not above matched_ptr, and marks
    on slots below active_ptr only) and every slot holds an order whose
    history is in ascending order of timestamps. *)
Theorem reachable_books_are_well_formed (fuel : nat) (ob : OrderBook) (h : Z)
    (chain : list OrderEntry) (p : nat) (e : OrderEntry) :
  reachable fuel ob ->
  table ob !! h = Some chain -> chain !! p = Some e ->
  0 <= timestamp ob
  /\ heap_wf (buys e) /\ heap_wf (sells e)
  /\ forall (s : side_t) (i : Z) (o : Order),
       OrderMinMaxHeap.get_data (side_heap e s) i = Ok o ->
       admitted o /\ StronglySorted date_le (Order.chain o).
Proof.
  intros Hr Ht Hc. destruct (reachable_ok _ _ Hr) as [H0 Hb].
  destruct (Hb h chain p e Ht Hc) as [[Wb _] [Ws _]].
  split; [exact H0|]. split; [exact Wb|]. split; [exact Ws|].
  intros s i o Ho.
  pose proof (reachable_orders_admitted fuel ob h chain p e s i o Hr Ht Hc Ho) as Ha.
  split; [exact Ha|exact (admitted_strongly_sorted o Ha)].
Qed.

Lemma reachable_books_are_well_formed_witness :
  0 <= timestamp book_at_5
  /\ heap_wf (buys entry_at_5) /\ heap_wf (sells entry_at_5)
  /\ forall (s : side_t) (i : Z) (o : Order),
       OrderMinMaxHeap.get_data (side_heap entry_at_5 s) i = Ok o ->
       admitted o /\ StronglySorted date_le (Order.chain o).
Proof.
  apply (reachable_books_are_well_formed 1 book_at_5 (OrderBook.hash_str "AB")
           [entry_at_5] 0%nat entry_at_5).
  - exact book_at_5_reachable.
  - vm_compute. reflexivity.
  - reflexivity.
Defined.

(** ** OrderMinMaxHeap: push_down *)

(** X30. push_down from the root leaves every heap as it is. When slot 0
    is marked, has_children(0) holds, for both of its indices are 0, and
    the first turn of push_down_min compares slot 0 with itself and breaks;
    when slot 0 is not marked the loop of push_down_max is not entered.
    ammend, cancel and transact call push_down with the root only, so no
    order is ever moved by it. *)
Theorem push_down_from_the_root_moves_nothing (fuel : nat) (h : OrderMinMaxHeap) :
  (1 <= fuel)%nat ->
  OrderMinMaxHeap.has_children h 0 = Ok (default false (allocated h !! 0))
  /\ OrderMinMaxHeap.push_down fuel h 0 = Ok h.
Proof.
  intros Hf. split; [apply has_children_root|apply push_down_root, Hf].
Qed.

Lemma push_down_from_the_root_moves_nothing_witness :
  OrderMinMaxHeap.has_children three_buys_heap 0
    = Ok (default false (allocated three_buys_heap !! 0))
  /\ OrderMinMaxHeap.push_down 1 three_buys_heap 0 = Ok three_buys_heap.
Proof.
  apply (push_down_from_the_root_moves_nothing 1 three_buys_heap). lia.
Defined.
